(** * Clixon: startup orchestration, file utilities, RESTCONF error replies
      and the RPC client calls, embedded from the C sources.

    Layout
    - [File]       lib/src/clixon_file.c         (file copy, directory listing)
    - [Backend]    apps/backend/backend_startup.c (startup, failsafe, extra XML)
    - [Restconf]   apps/restconf/restconf_err.c and restconf_main.c
    - [ProtoClient] lib/src/clixon_proto_client.c (the RPC client calls)

    Each source file has a module with its embedding, followed further
    down by a module with its properties.

    C [int] return codes are kept as [Z]; C strings are [string]; byte
    buffers are [list Byte.byte]; a NULL pointer is [None].  A system call
    or library call whose body is outside these files is either a field of
    the environment record the function runs in, or a definition marked as
    modelled from the specification. *)

From Stdlib Require Import ZArith String Ascii Strings.Byte Permutation.
From stdpp Require Import base option list gmap strings pretty.

Local Open Scope Z_scope.

(* ===================================================================== *)
(** ** State passing *)
(* ===================================================================== *)

(** A C function that reads and updates the state [S] of the process and
    returns an [A]. *)
Definition state (S A : Type) : Type := S -> A * S.

Definition ret {S A : Type} (a : A) : state S A := fun s => (a, s).

Definition bind {S A B : Type} (m : state S A) (k : A -> state S B)
  : state S B :=
  fun s => let '(a, s') := m s in k a s'.

Notation "'let*' x ':=' c 'in' k" := (bind c (fun x => k))
  (at level 10, x pattern, c at level 100, k at level 200).
Notation "c ;; k" := (bind c (fun _ => k))
  (at level 100, k at level 200, right associativity).

(* ===================================================================== *)
(** ** lib/src/clixon_file.c *)
(* ===================================================================== *)
Module File.

(** *** The file system seen by [clicon_file_copy]

    A regular file (an inode) is its permission bits and its bytes.  A
    path leads to a directory entry and a directory entry names an inode:
    two spellings of one path lead to the same entry, and two hard links
    are two entries that name the same inode. *)
Record file := mkFile { f_mode : Z; f_data : list Byte.byte }.

(** What a [read(2)] or [write(2)] call returns: -1, or a count.  The
    call transfers the smaller of the count and the request, so a count
    below the request is a short read or a short write. *)
Inductive io_result :=
| IoFail
| IoCount (n : nat).

(** The operating system as far as the copy is concerned. *)
Record os := mkOs {
  locate       : string -> nat;    (* the directory entry a path leads to *)
  entries      : gmap nat nat;     (* directory entry -> inode *)
  inodes       : gmap nat file;
  umask        : Z;
  can_read     : string -> bool;   (* open(path, O_RDONLY) succeeds *)
  can_write    : string -> bool;   (* open(path, O_WRONLY|O_CREAT|O_TRUNC) succeeds *)
  read_result  : nat -> io_result; (* the read made as call number k, from 0 *)
  write_result : nat -> io_result  (* the write made as call number k *)
}.

Definition set_inodes (o : os) (m : gmap nat file) : os :=
  mkOs (locate o) (entries o) m (umask o) (can_read o) (can_write o)
       (read_result o) (write_result o).

(** [stat(path, &st)]: the inode the path names and its file, [None] when
    the call fails. *)
Definition stat (o : os) (path : string) : option (nat * file) :=
  match entries o !! locate o path with
  | Some i => match inodes o !! i with
              | Some f => Some (i, f)
              | None => None
              end
  | None => None
  end.

Definition content (o : os) (path : string) : option (list Byte.byte) :=
  match stat o path with
  | Some (_, f) => Some (f_data f)
  | None => None
  end.

(** [sizeof(line)] for [char line[512]]. *)
Definition LINE_SIZE : nat := 512.

(** [open(target, O_WRONLY | O_CREAT | O_TRUNC, st.st_mode)]: the inode
    opened and the system afterwards.  An existing file keeps its inode
    and its mode and loses its bytes; a missing one gets a new inode with
    the permission bits [mode & ~umask]. *)
Definition open_trunc (o : os) (target : string) (mode : Z) : nat * os :=
  match stat o target with
  | Some (i, f) => (i, set_inodes o (<[i := mkFile (f_mode f) []]> (inodes o)))
  | None =>
      let i := fresh (dom (inodes o)) in
      (i, mkOs (locate o) (<[locate o target := i]> (entries o))
               (<[i := mkFile (Z.land mode (Z.lnot (umask o))) []]> (inodes o))
               (umask o) (can_read o) (can_write o)
               (read_result o) (write_result o))
  end.

(** The loop
    [while ((bytes = read(inF, line, sizeof(line))) > 0)
        if (write(ouF, line, bytes) < 0) goto error;]
    [k] counts the iterations, [inp] is what is left to read, [out] what
    has been written.  The count [write] returns is not looked at, so after
    a short write the next line follows what was written.  The result is
    [None] only when [fuel] runs out; otherwise [Some (true, out)] when the
    loop ends (read returned 0 or -1) and [Some (false, out)] when a write
    returned -1. *)
Fixpoint copy_loop (o : os) (fuel k : nat) (inp out : list Byte.byte)
  : option (bool * list Byte.byte) :=
  match fuel with
  | O => None
  | S fuel' =>
      match read_result o k with
      | IoFail => Some (true, out)
      | IoCount n =>
          let line := take (Nat.min n LINE_SIZE) inp in
          if Nat.eqb (length line) 0 then Some (true, out)
          else match write_result o k with
               | IoFail => Some (false, out)
               | IoCount m =>
                   copy_loop o fuel' (S k) (drop (length line) inp)
                     (out ++ take m line)
               end
      end
  end.

(** The bytes of inode [i] become [d]. *)
Definition write_data (o : os) (i : nat) (d : list Byte.byte) : os :=
  match inodes o !! i with
  | Some f => set_inodes o (<[i := mkFile (f_mode f) d]> (inodes o))
  | None => o
  end.

(** [clicon_file_copy(src, target)]: return value and the system
    afterwards.  [errno] is not modelled.  The descriptor [inF] reads the
    inode [src] named when it was opened. *)
Definition clicon_file_copy (o : os) (src target : string) : Z * os :=
  match stat o src with
  | None => (-1, o)                                    (* stat(src) != 0 *)
  | Some (isrc, st) =>
      if negb (can_read o src) then (-1, o)            (* open(src) == -1 *)
      else if negb (can_write o target) then (-1, o)   (* open(target) == -1 *)
      else
        let '(it, o1) := open_trunc o target (f_mode st) in
        let inp := default [] (f_data <$> inodes o1 !! isrc) in
        match copy_loop o (S (length inp)) 0 inp [] with
        | Some (true, out) => (0, write_data o1 it out)
        | Some (false, out) => (-1, write_data o1 it out)
        | None => (-1, o1)
        end
  end.

(** The statement of the atomic-copy property, as the datastore interface
    words it: success makes the target's bytes those the source had, any
    failure leaves the target's bytes as they were. *)
Definition copy_is_atomic : Prop :=
  forall (o : os) (src target : string),
    let '(r, o') := clicon_file_copy o src target in
    (r = 0 -> content o' target = content o src) /\
    (r <> 0 -> content o' target = content o target).

(** A call that transfers its whole request of at most [LINE_SIZE]. *)
Definition full_read (o : os) (k : nat) : Prop :=
  exists n, read_result o k = IoCount n /\ (LINE_SIZE <= n)%nat.

Definition full_write (o : os) (k : nat) : Prop :=
  exists m, write_result o k = IoCount m /\ (LINE_SIZE <= m)%nat.

(** *** Directory listing

    The file as checked in does not compile: [clicon_file_list] is used as
    a type name without a typedef, [clicon_file_list_init] writes
    [siezof] and dereferences [list->first] of a pointer to a pointer,
    [clicon_file_list_add] copies the name through [*list->name] and never
    to the [item->name] it allocated, [clicon_file_dirent] compares with
    [null], and [clicon_file_list_free] uses an undeclared [current].

    The return value of [clicon_file_dirent] depends on none of these
    lines and is taken as written.  The content of the list does: the
    names below are what the list would hold if line 112 copied to
    [item->name]; the code as written stores no name in any item, so
    nothing is proved of the list's content or order. *)

(** The C library functions the listing calls. *)
Record libc := mkLibc {
  regcomp : string -> option (string -> bool);
      (* regcomp(&re, regexp, REG_EXTENDED): None when it returns non-zero,
         otherwise the matcher regexec(&re, name, 0, NULL, 0) == 0 *)
  strcoll : string -> string -> Z
}.

Inductive opendir_result :=
| DirNoEnt                           (* opendir == NULL, errno == ENOENT *)
| DirErr                             (* opendir == NULL, another errno *)
| DirOpen (names : list string).     (* d_name of each readdir, in order *)

Record dirsys := mkDirsys {
  opendir : string -> opendir_result;
  lstat : string -> option Z;        (* st_mode, None when lstat != 0 *)
  MAXPATHLEN : nat
}.

(** The singly linked [clicon_file_list] is the list of its [name]s from
    [first] on; the [clicon_file_list **ent] is [None] while it is NULL. *)
Definition clicon_file_list := list string.

Definition clicon_file_list_init : clicon_file_list := [].

(** The walk [while (iterator->next != NULL &&
    strcoll(name, iterator->next->name) > 0) iterator = iterator->next;]
    followed by the insertion after [iterator]; [rest] is the list from
    [iterator->next] on.  The names compared are those line 112 was to
    store. *)
Fixpoint list_add_walk (lc : libc) (rest : list string) (name : string)
  : list string :=
  match rest with
  | [] => [name]
  | nx :: rest' =>
      if (strcoll lc name nx >? 0)%Z then nx :: list_add_walk lc rest' name
      else name :: nx :: rest'
  end.

Definition clicon_file_list_add (lc : libc) (l : clicon_file_list)
    (name : string) : clicon_file_list :=
  match l with
  | [] => [name]
  | first :: rest =>
      if (strcoll lc name first <=? 0)%Z then name :: first :: rest
      else first :: list_add_walk lc rest name
  end.

(** [snprintf(filename, MAXPATHLEN-1, "%s/%s", dir, dent->d_name)] keeps at
    most [MAXPATHLEN-2] characters. *)
Fixpoint string_take (n : nat) (s : string) : string :=
  match n, s with
  | S n', String c s' => String c (string_take n' s')
  | _, _ => EmptyString
  end.

Definition dirent_filename (ds : dirsys) (dir name : string) : string :=
  string_take (MAXPATHLEN ds - 2) (dir +:+ "/" +:+ name).

(** One directory entry against the two filters: [None] when [lstat]
    fails, otherwise whether the entry is kept. *)
Definition dirent_keep (ds : dirsys) (re : option (string -> bool))
    (dir : string) (type : Z) (name : string) : option bool :=
  if match re with Some m => negb (m name) | None => false end
  then Some false
  else if (type =? 0)%Z then Some true
  else match lstat ds (dirent_filename ds dir name) with
       | None => None
       | Some mode => Some (negb (Z.land type mode =? 0)%Z)
       end.

(** The [readdir] loop: the entries still to come, [*ent] and [nent]. *)
Fixpoint dirent_loop (lc : libc) (ds : dirsys) (re : option (string -> bool))
    (dir : string) (type : Z) (names : list string)
    (ent : option clicon_file_list) (nent : Z)
  : Z * option clicon_file_list :=
  match names with
  | [] => (nent, ent)
  | name :: rest =>
      match dirent_keep ds re dir type name with
      | None => (-1, ent)
      | Some false => dirent_loop lc ds re dir type rest ent nent
      | Some true =>
          let l := match ent with
                   | None => clicon_file_list_init
                   | Some l => l
                   end in
          dirent_loop lc ds re dir type rest
            (Some (clicon_file_list_add lc l name)) (nent + 1)
      end
  end.

(** [regexp && regcomp(&re, regexp, REG_EXTENDED)]: [None] when the
    compilation fails, [Some None] when there is no regexp. *)
Definition regexp_compile (lc : libc) (regexp : option string)
  : option (option (string -> bool)) :=
  match regexp with
  | None => Some None
  | Some r => match regcomp lc r with
              | None => None
              | Some m => Some (Some m)
              end
  end.

(** [clicon_file_dirent(dir, &ent, regexp, type)]: return value and [*ent].
    [regexp] is [None] for a NULL pointer; [nent] stays within [int]. *)
Definition clicon_file_dirent (lc : libc) (ds : dirsys) (dir : string)
    (regexp : option string) (type : Z) : Z * option clicon_file_list :=
  match regexp_compile lc regexp with
  | None => (-1, None)
  | Some re =>
      match opendir ds dir with
      | DirNoEnt => (0, None)
      | DirErr => (-1, None)
      | DirOpen names => dirent_loop lc ds re dir type names None 0
      end
  end.

(** [regexp == NULL || regexec(&re, name, 0, NULL, 0) == 0] *)
Definition regexp_passes (re : option (string -> bool)) (name : string)
  : bool :=
  match re with
  | Some m => m name
  | None => true
  end.

(** The entries the loop calls [lstat] on, if it gets to them: those that
    pass the regexp, when the mask is not 0. *)
Definition lstat_asked (re : option (string -> bool)) (type : Z)
    (name : string) : bool :=
  regexp_passes re name && negb (type =? 0)%Z.

(** The entries the loop counts: the name passes the regexp and, with a
    mask other than 0, [lstat] succeeds and [st_mode] has a bit of the
    mask, [(type & st.st_mode) != 0].  This is a test of bits, not a
    comparison of the file type [st_mode & S_IFMT] with the mask. *)
Definition dirent_counted (ds : dirsys) (re : option (string -> bool))
    (dir : string) (type : Z) (name : string) : bool :=
  regexp_passes re name &&
  (if (type =? 0)%Z then true
   else match lstat ds (dirent_filename ds dir name) with
        | Some mode => negb (Z.land type mode =? 0)%Z
        | None => false
        end).

(** The return value as C7 words it: whatever the directory, the regexp
    and the mask, the number of entries whose name matches the regexp and
    whose type matches the mask; [type_matches] says when the type [lstat]
    gives ([None] when it gives none) matches a mask. *)
Definition dirent_count_as_claimed (type_matches : Z -> option Z -> bool)
  : Prop :=
  forall (lc : libc) (ds : dirsys) (dir : string) (regexp : option string)
         (type : Z) (re : option (string -> bool)) (names : list string),
    regexp_compile lc regexp = Some re ->
    opendir ds dir = DirOpen names ->
    fst (clicon_file_dirent lc ds dir regexp type) =
      Z.of_nat (length (List.filter
        (fun name => regexp_passes re name &&
                     type_matches type (lstat ds (dirent_filename ds dir name)))
        names)).

(** [S_IFREG] and [S_IFLNK] of stat(2): 0100000 and 0120000. *)
Definition S_IFREG : Z := 32768.
Definition S_IFLNK : Z := 40960.

(** [strcmp] as the collation of the C locale, for concrete runs. *)
Definition strcmp (a b : string) : Z :=
  match String.compare a b with
  | Lt => -1
  | Eq => 0
  | Gt => 1
  end.

(** Concrete systems used to run the functions: "src" and "./src" lead to
    one file of 600 bytes, "dst" to a file of 3 bytes, "new" to no file. *)
Definition ex_bytes (n : nat) : list Byte.byte := repeat x41 n.

Definition faults_at (f : option nat) (k : nat) : bool :=
  match f with
  | Some j => Nat.eqb j k
  | None => false
  end.

Definition ex_locate (p : string) : nat :=
  if String.eqb p "src" then 1%nat
  else if String.eqb p "./src" then 1%nat
  else if String.eqb p "dst" then 2%nat
  else if String.eqb p "new" then 3%nat
  else 0%nat.

(** Reads are complete; the write number [wf], if any, fails, the others
    are complete. *)
Definition ex_os (wf : option nat) : os :=
  mkOs ex_locate
       (<[1%nat := 10%nat]> (<[2%nat := 20%nat]> ∅))
       (<[10%nat := mkFile 420 (ex_bytes 600)]>
        (<[20%nat := mkFile 384 (ex_bytes 3)]> ∅))
       18
       (fun p => negb (String.eqb p "secret"))
       (fun p => negb (String.eqb p "readonly"))
       (fun _ => IoCount LINE_SIZE)
       (fun k => if faults_at wf k then IoFail else IoCount LINE_SIZE).

(** The same files with the second [read] failing. *)
Definition ex_os_read_fault : os :=
  mkOs (locate (ex_os None)) (entries (ex_os None)) (inodes (ex_os None))
       (umask (ex_os None)) (can_read (ex_os None)) (can_write (ex_os None))
       (fun k => if Nat.eqb k 1 then IoFail else IoCount LINE_SIZE)
       (write_result (ex_os None)).

(** The same files with the first [write] writing 100 bytes only. *)
Definition ex_os_short_write : os :=
  mkOs (locate (ex_os None)) (entries (ex_os None)) (inodes (ex_os None))
       (umask (ex_os None)) (can_read (ex_os None)) (can_write (ex_os None))
       (read_result (ex_os None))
       (fun k => if Nat.eqb k 0 then IoCount 100 else IoCount LINE_SIZE).

(** The C library and directories used to run the listing. *)
Definition ex_libc : libc :=
  mkLibc (fun r => if String.eqb r "(" then None
                   else Some (fun name => negb (String.eqb name "skip")))
         strcmp.

Definition ex_dirsys (names : list string) : dirsys :=
  mkDirsys (fun d => if String.eqb d "/etc/plugins" then DirOpen names
                     else DirNoEnt)
           (fun p => if String.eqb p "/etc/plugins/dir" then Some 16384
                     else Some 32768)
           4096.

(** A plugin directory in which [lstat] fails on one entry. *)
Definition ex_dirsys_gone (names : list string) : dirsys :=
  mkDirsys (opendir (ex_dirsys names))
           (fun p => if String.eqb p "/etc/plugins/gone" then None
                     else lstat (ex_dirsys names) p)
           4096.

(** The same directory on a system where every [lstat] fails. *)
Definition ex_dirsys_nostat (names : list string) : dirsys :=
  mkDirsys (opendir (ex_dirsys names)) (fun _ => None) 4096.

(** A plugin directory with a regular file a.so (mode 0100644) and a
    symbolic link link.so (mode 0120777). *)
Definition ex_dirsys_link : dirsys :=
  mkDirsys (fun d => if String.eqb d "/etc/plugins"
                     then DirOpen ["a.so"; "link.so"] else DirNoEnt)
           (fun p => if String.eqb p "/etc/plugins/link.so" then Some 41471
                     else Some 33188)
           4096.

End File.

(* ===================================================================== *)
(** ** XML trees ([cxobj]) as the sources use them *)
(* ===================================================================== *)
Module Xml.

(** Modelled from the spec: the XML object model of section 4.2, labeled
    ordered trees (clixon_xml.c and the XPath evaluator are not among the
    sources).  A node is an element with its children in document order,
    or a body (text) node.  Attributes play no part in the functions
    embedded here. *)
#[local] Unset Elimination Schemes.
Inductive cxobj :=
| CxElmnt (name : string) (children : list cxobj)
| CxBody (value : string).
#[local] Set Elimination Schemes.

Definition xml_name (x : cxobj) : string :=
  match x with
  | CxElmnt n _ => n
  | CxBody _ => "body"
  end.

Definition xml_children (x : cxobj) : list cxobj :=
  match x with
  | CxElmnt _ cs => cs
  | CxBody _ => []
  end.

Definition xml_child_nr (x : cxobj) : Z := Z.of_nat (length (xml_children x)).

(** [xml_new(name, NULL)]: a new element without parent or children. *)
Definition xml_new (name : string) : cxobj := CxElmnt name [].

Definition xml_name_set (x : cxobj) (name : string) : cxobj :=
  match x with
  | CxElmnt _ cs => CxElmnt name cs
  | CxBody v => CxBody v
  end.

Definition is_body (x : cxobj) : option string :=
  match x with
  | CxBody v => Some v
  | CxElmnt _ _ => None
  end.

(** [xml_body(x)]: the text of the first body child, NULL without one. *)
Fixpoint first_body (cs : list cxobj) : option string :=
  match cs with
  | [] => None
  | CxBody v :: _ => Some v
  | CxElmnt _ _ :: cs' => first_body cs'
  end.

Definition xml_body (x : cxobj) : option string := first_body (xml_children x).

Definition is_elmnt_named (name : string) (x : cxobj) : bool :=
  match x with
  | CxElmnt n _ => String.eqb n name
  | CxBody _ => false
  end.

(** All nodes below [x], in document order. *)
Fixpoint xml_descendants (x : cxobj) : list cxobj :=
  match x with
  | CxElmnt _ cs => flat_map (fun c => c :: xml_descendants c) cs
  | CxBody _ => []
  end.

(** The location paths the sources pass to [xpath_first], parsed:
    "//rpc-error" is [[Desc "rpc-error"]], "//data/config" is
    [[Desc "data"; Child "config"]], "error-tag" is [[Child "error-tag"]]. *)
Inductive xstep :=
| Child (name : string)
| Desc (name : string).

Definition xstep_apply (st : xstep) (x : cxobj) : list cxobj :=
  match st with
  | Child n => List.filter (is_elmnt_named n) (xml_children x)
  | Desc n => List.filter (is_elmnt_named n) (xml_descendants x)
  end.

Fixpoint xpath_vec (ctx : list cxobj) (p : list xstep) : list cxobj :=
  match p with
  | [] => ctx
  | st :: p' => xpath_vec (flat_map (xstep_apply st) ctx) p'
  end.

(** Modelled from the spec: xpath_first, "XPath evaluation returns the
    first match" of section 4.2: the first node of the node-set, NULL when
    it is empty; a NULL context node selects nothing. *)
Definition xpath_first (x : option cxobj) (p : list xstep) : option cxobj :=
  match x with
  | None => None
  | Some x => head (xpath_vec [x] p)
  end.

(** Structural equality of trees. *)
Fixpoint cxobj_eqb (a b : cxobj) : bool :=
  match a, b with
  | CxBody v, CxBody v' => String.eqb v v'
  | CxElmnt n cs, CxElmnt n' cs' =>
      String.eqb n n' &&
      (fix all2 (l l' : list cxobj) : bool :=
         match l, l' with
         | [], [] => true
         | x :: l0, y :: l0' => cxobj_eqb x y && all2 l0 l0'
         | _, _ => false
         end) cs cs'
  | _, _ => false
  end.

(** [xml_rootchild(xp, i, &xc)]: child [i] of a parentless tree replaces
    it; an error when there is no such child. *)
Definition xml_rootchild (xp : cxobj) (i : nat) : option cxobj :=
  xml_children xp !! i.

(** [<name>text</name>] *)
Definition xml_leaf (name text : string) : cxobj :=
  CxElmnt name [CxBody text].

End Xml.

(* ===================================================================== *)
(** ** apps/backend/backend_startup.c *)
(* ===================================================================== *)
Module Backend.
Import Xml.

Inductive operation_type :=
| OP_MERGE | OP_REPLACE | OP_CREATE | OP_DELETE | OP_REMOVE | OP_NONE.

Inductive clicon_err_category := OE_DB | OE_XML | OE_UNIX | OE_FATAL.

(** The plugin callback phases of the specification. *)
Inductive phase :=
| PH_reset | PH_prevalidate | PH_validate | PH_commit | PH_commit_done
| PH_rollback.

(** The calls that leave backend_startup.c. *)
Inductive call :=
| C_cbuf_new
| C_xmldb_exists (db : string)
| C_xmldb_create (db : string)
| C_xmldb_copy (from to : string)
| C_xmldb_db_reset (db : string)
| C_xmldb_delete (db : string)
| C_xmldb_get (db : string)
| C_xmldb_get0 (db : string)
| C_xmldb_put (db : string) (op : operation_type)
| C_clixon_plugin_reset (db : string)
| C_startup_validate (db : string)
| C_startup_commit (db : string)
| C_candidate_commit (db : string)
| C_open (filename : string)
| C_xml_parse_file (filename : string)
| C_xml_rootchild.

(** What a run leaves behind, oldest first: each call with its return
    value, each plugin callback and static validation that ran, and each
    [clicon_err] and [clicon_log]. *)
Inductive event :=
| Ev_call (c : call) (ret : Z)
| Ev_plugin (ph : phase) (plugin : string)
| Ev_validator (db : string)
| Ev_err (cat : clicon_err_category) (msg : string)
| Ev_log (msg : string).

(** [errno] value ENOENT. *)
Definition ENOENT : Z := 2.

(** The canonical empty configuration. *)
Definition empty_config : cxobj := xml_new "config".

Record world := mkWorld {
  dbs   : gmap string cxobj;   (* the datastore: content of each database *)
  errno : Z;
  cbret : string;              (* text of the cbuf passed as [cbret] *)
  trace : list event
}.

(** A plugin declares the callbacks it has.  A reset hook gives the new
    content of the database it is handed, or fails; the transaction hooks
    see source and target and accept or reject. *)
Record plugin := mkPlugin {
  p_name         : string;
  ca_reset       : option (cxobj -> option cxobj);
  ca_prevalidate : option (cxobj -> cxobj -> bool);
  ca_validate    : option (cxobj -> cxobj -> bool);
  ca_commit      : option (cxobj -> cxobj -> bool);
  ca_commit_done : option (cxobj -> cxobj -> bool);
  ca_rollback    : option (cxobj -> cxobj -> bool)
}.

(** Everything the run does not decide itself. *)
Record env := mkEnv {
  fault      : call -> option Z;
      (* Some e: the call fails (returns -1 or NULL) and sets errno to e *)
  plugins    : list plugin;
  validator  : cxobj -> option string;
      (* the static Validator: None when valid, else the error document *)
  upgraded   : cxobj -> option cxobj;
      (* the tree a successful startup validation hands back *)
  xml_modify : operation_type -> cxobj -> cxobj -> cxobj;
      (* put: the content after applying the tree with the operation *)
  put_reject : string -> operation_type -> cxobj -> option string;
      (* put: validation_failed with this error document *)
  file_xml   : string -> option cxobj
      (* xml_parse_file on the opened file, None when it fails *)
}.

(** The calls of the backend thread the world. *)
Abbreviation M := (state world).

Definition emit (ev : event) : M unit :=
  fun w => (tt, mkWorld (dbs w) (errno w) (cbret w) (trace w ++ [ev])).

Definition set_dbs (m : gmap string cxobj) : M unit :=
  fun w => (tt, mkWorld m (errno w) (cbret w) (trace w)).

Definition set_errno (e : Z) : M unit :=
  fun w => (tt, mkWorld (dbs w) e (cbret w) (trace w)).

Definition set_cbret (s : string) : M unit :=
  fun w => (tt, mkWorld (dbs w) (errno w) s (trace w)).

Definition get_dbs : M (gmap string cxobj) := fun w => (dbs w, w).
Definition get_errno : M Z := fun w => (errno w, w).
Definition get_cbret : M string := fun w => (cbret w, w).

Definition clicon_err (cat : clicon_err_category) (msg : string) : M unit :=
  emit (Ev_err cat msg).

Definition clicon_log (msg : string) : M unit := emit (Ev_log msg).

(** A call that fails when the environment says so and otherwise acts on
    the datastore. *)
Definition call_ds (e : env) (c : call)
    (f : gmap string cxobj -> Z * gmap string cxobj) : M Z :=
  match fault e c with
  | Some en => set_errno en ;; emit (Ev_call c (-1)) ;; ret (-1)
  | None =>
      let* m := get_dbs in
      let '(r, m') := f m in
      set_dbs m' ;; emit (Ev_call c r) ;; ret r
  end.

Definition db_content (m : gmap string cxobj) (db : string) : cxobj :=
  default empty_config (m !! db).

Definition db_present (m : gmap string cxobj) (db : string) : bool :=
  match m !! db with
  | Some _ => true
  | None => false
  end.

(** [cbuf_new()]: true unless the allocation fails. *)
Definition cbuf_new (e : env) : M bool :=
  match fault e C_cbuf_new with
  | Some en => set_errno en ;; emit (Ev_call C_cbuf_new (-1)) ;; ret false
  | None => emit (Ev_call C_cbuf_new 0) ;; set_cbret EmptyString ;; ret true
  end.

(** Modelled from the spec: xmldb_exists, the datastore [exists(db)] of
    section 4.1, non-mutating; 1 when present, 0 when absent. *)
Definition xmldb_exists (e : env) (db : string) : M Z :=
  call_ds e (C_xmldb_exists db)
    (fun m => (if db_present m db then 1 else 0, m)).

(** Modelled from the spec: xmldb_create, the datastore [create(db)] of
    section 4.1, idempotent creation of an empty database. *)
Definition xmldb_create (e : env) (db : string) : M Z :=
  call_ds e (C_xmldb_create db)
    (fun m => (0, if db_present m db then m else <[db := empty_config]> m)).

(** Modelled from the spec: xmldb_db_reset, the datastore [reset(db)] of
    section 4.1, truncating the content to the empty configuration. *)
Definition xmldb_db_reset (e : env) (db : string) : M Z :=
  call_ds e (C_xmldb_db_reset db) (fun m => (0, <[db := empty_config]> m)).

(** Modelled from the spec: xmldb_copy, the datastore [copy(src, dst)] of
    section 4.1, replacing [dst] by the content of [src]; on failure
    [dst] is unchanged. *)
Definition xmldb_copy (e : env) (from to : string) : M Z :=
  call_ds e (C_xmldb_copy from to)
    (fun m => match m !! from with
              | Some x => (0, <[to := x]> m)
              | None => (-1, m)
              end).

(** Modelled from the spec: xmldb_delete, the datastore [delete(db)] of
    section 4.1; absence is not an error. *)
Definition xmldb_delete (e : env) (db : string) : M Z :=
  call_ds e (C_xmldb_delete db) (fun m => (0, delete db m)).

(** Modelled from the spec: xmldb_get and xmldb_get0, the datastore
    [read(db)] of section 4.1 without filter: the configured tree, the
    empty tree for an absent root. *)
Definition xmldb_read (e : env) (c : call) (db : string)
  : M (Z * option cxobj) :=
  let* r := call_ds e c (fun m => (0, m)) in
  if r <? 0 then ret (r, None)
  else let* m := get_dbs in ret (r, Some (db_content m db)).

Definition xmldb_get (e : env) (db : string) : M (Z * option cxobj) :=
  xmldb_read e (C_xmldb_get db) db.

Definition xmldb_get0 (e : env) (db : string) : M (Z * option cxobj) :=
  xmldb_read e (C_xmldb_get0 db) db.

(** Modelled from the spec: xmldb_put, the datastore [put(db, op, tree)]
    of section 4.1: 1 when applied, 0 for validation_failed with the
    error document in [cbret], -1 on error. *)
Definition xmldb_put (e : env) (db : string) (op : operation_type)
    (xt : cxobj) : M Z :=
  match fault e (C_xmldb_put db op) with
  | Some en => set_errno en ;; emit (Ev_call (C_xmldb_put db op) (-1)) ;; ret (-1)
  | None =>
      match put_reject e db op xt with
      | Some errdoc =>
          set_cbret errdoc ;; emit (Ev_call (C_xmldb_put db op) 0) ;; ret 0
      | None =>
          let* m := get_dbs in
          set_dbs (<[db := xml_modify e op (db_content m db) xt]> m) ;;
          emit (Ev_call (C_xmldb_put db op) 1) ;; ret 1
      end
  end.

(** *** The transaction engine and the plugin registry *)

(** The callbacks of one phase, in registration order, until one rejects:
    the plugins that accepted (latest first), the events, and whether all
    accepted. *)
Fixpoint fire (ph : phase)
    (sel : plugin -> option (cxobj -> cxobj -> bool))
    (ps : list plugin) (src tgt : cxobj) (done : list plugin)
  : bool * list plugin * list event :=
  match ps with
  | [] => (true, done, [])
  | p :: ps' =>
      match sel p with
      | None => fire ph sel ps' src tgt done
      | Some cb =>
          if cb src tgt then
            let '(ok, done', evs) := fire ph sel ps' src tgt (p :: done) in
            (ok, done', Ev_plugin ph (p_name p) :: evs)
          else (false, done, [Ev_plugin ph (p_name p)])
      end
  end.

(** The rollback callbacks of the plugins whose commit succeeded, latest
    first. *)
Definition rollback_events (done : list plugin) : list event :=
  omap (fun p => match ca_rollback p with
                 | Some _ => Some (Ev_plugin PH_rollback (p_name p))
                 | None => None
                 end) done.

Definition emit_all (evs : list event) : M unit :=
  fun w => (tt, mkWorld (dbs w) (errno w) (cbret w) (trace w ++ evs)).

(** Modelled from the spec: the commit state machine of section 4.5 with
    target [running]; it stands for candidate_commit and startup_commit of
    backend_commit.c.  1: the target now has the source's content; 0:
    validation failed, error document in [cbret]; -1: error.  Unless the
    result is 1 the target is as before. *)
Definition txe_commit (e : env) (c : call) (source : string) : M Z :=
  let ps := plugins e in
  match fault e c with
  | Some en => set_errno en ;; emit (Ev_call c (-1)) ;; ret (-1)
  | None =>
    let* m := get_dbs in
    match m !! source with
    | None => emit (Ev_call c (-1)) ;; ret (-1)            (* broken source *)
    | Some src =>
      let tgt := db_content m "running" in
      if cxobj_eqb src tgt then emit (Ev_call c 1) ;; ret 1  (* empty diff *)
      else
        let '(ok1, _, ev1) := fire PH_prevalidate ca_prevalidate ps src tgt [] in
        emit_all ev1 ;;
        if negb ok1 then set_cbret "pre-validate" ;; emit (Ev_call c 0) ;; ret 0
        else
          emit (Ev_validator source) ;;
          match validator e src with
          | Some errdoc => set_cbret errdoc ;; emit (Ev_call c 0) ;; ret 0
          | None =>
            let '(ok2, _, ev2) := fire PH_validate ca_validate ps src tgt [] in
            emit_all ev2 ;;
            if negb ok2 then set_cbret "validate" ;; emit (Ev_call c 0) ;; ret 0
            else
              let '(ok3, done, ev3) := fire PH_commit ca_commit ps src tgt [] in
              emit_all ev3 ;;
              if negb ok3 then
                emit_all (rollback_events done) ;;
                emit (Ev_call c (-1)) ;; ret (-1)
              else
                match fault e (C_xmldb_copy source "running") with
                | Some en =>                      (* publish failed: undo *)
                    set_errno en ;;
                    emit_all (rollback_events done) ;;
                    emit (Ev_call c (-1)) ;; ret (-1)
                | None =>
                    set_dbs (<["running" := src]> m) ;;
                    (* a failing commit-done neither stops nor undoes *)
                    let '(_, _, ev4) :=
                      fire PH_commit_done
                        (fun p => match ca_commit_done p with
                                  | Some _ => Some (fun _ _ => true)
                                  | None => None
                                  end) ps src tgt [] in
                    emit_all ev4 ;; emit (Ev_call c 1) ;; ret 1
                end
          end
    end
  end.

Definition candidate_commit (e : env) (db : string) : M Z :=
  txe_commit e (C_candidate_commit db) db.

Definition startup_commit (e : env) (db : string) : M Z :=
  txe_commit e (C_startup_commit db) db.

(** Modelled from the spec: startup_validate of backend_commit.c, the
    static Validator of section 4.3 run on the database: 1 and the
    validated tree, 0 with the error document in [cbret], -1 on error. *)
Definition startup_validate (e : env) (db : string) : M (Z * option cxobj) :=
  let c := C_startup_validate db in
  match fault e c with
  | Some en => set_errno en ;; emit (Ev_call c (-1)) ;; ret (-1, None)
  | None =>
      let* m := get_dbs in
      emit (Ev_validator db) ;;
      match validator e (db_content m db) with
      | Some errdoc => set_cbret errdoc ;; emit (Ev_call c 0) ;; ret (0, None)
      | None => emit (Ev_call c 1) ;; ret (1, upgraded e (db_content m db))
      end
  end.

(** Modelled from the spec: clixon_plugin_reset, "invoke each plugin's
    reset(tmp) hook" of section 4.6 step 5, in registration order, the
    first failing hook ending the pass with -1. *)
Fixpoint plugin_reset_all (ps : list plugin) (db : string) : M Z :=
  match ps with
  | [] => ret 0
  | p :: ps' =>
      match ca_reset p with
      | None => plugin_reset_all ps' db
      | Some hook =>
          emit (Ev_plugin PH_reset (p_name p)) ;;
          let* m := get_dbs in
          match hook (db_content m db) with
          | None => ret (-1)
          | Some x => set_dbs (<[db := x]> m) ;; plugin_reset_all ps' db
          end
      end
  end.

Definition clixon_plugin_reset (e : env) (db : string) : M Z :=
  let c := C_clixon_plugin_reset db in
  match fault e c with
  | Some en => set_errno en ;; emit (Ev_call c (-1)) ;; ret (-1)
  | None =>
      let* r := plugin_reset_all (plugins e) db in
      emit (Ev_call c r) ;; ret r
  end.

(** *** The functions of backend_startup.c *)

(** [db_merge(h, db1, db2, cbret)]: merge db1 into db2 without commit. *)
Definition db_merge (e : env) (db1 db2 : string) : M Z :=
  let* (r, xt) := xmldb_get0 e db1 in
  if r <? 0 then ret (-1)
  else match xt with
       | Some x => xmldb_put e db2 OP_MERGE x
       | None => ret (-1)       (* not reached: a successful read has a tree *)
       end.

(** [startup_mode_startup(h, db, cbret)] *)
Definition startup_mode_startup (e : env) (db : string) : M Z :=
  if String.eqb db "running" then
    clicon_err OE_FATAL ("Invalid startup db: " +:+ db) ;; ret (-1)
  else
    let* ex := xmldb_exists e db in
    let* cr := (if negb (ex =? 1) then xmldb_create e db else ret 0) in
    if cr <? 0 then ret (-1)
    else
      let* r := startup_commit e db in
      if r <? 0 then ret (-1)
      else if r =? 0 then ret 0
      else ret 1.

(** [load_extraxml(h, filename, db, cbret)]; [filename] is [None] for a
    NULL pointer. *)
Definition load_extraxml (e : env) (filename : option string) (db : string)
  : M Z :=
  match filename with
  | None => ret 1
  | Some fn =>
      match fault e (C_open fn) with
      | Some en =>
          set_errno en ;; emit (Ev_call (C_open fn) (-1)) ;;
          clicon_err OE_UNIX ("open(" +:+ fn +:+ ")") ;; ret (-1)
      | None =>
          emit (Ev_call (C_open fn) 0) ;;
          match file_xml e fn with
          | None => emit (Ev_call (C_xml_parse_file fn) (-1)) ;; ret (-1)
          | Some xt =>
              emit (Ev_call (C_xml_parse_file fn) 0) ;;
              match xml_rootchild xt 0 with
              | None => emit (Ev_call C_xml_rootchild (-1)) ;; ret (-1)
              | Some xt' =>
                  emit (Ev_call C_xml_rootchild 0) ;;
                  xmldb_put e db OP_MERGE xt'
              end
          end
      end
  end.

Definition tmp_db : string := "tmp".

(** [startup_extraxml], first part: clear tmp, run the reset hooks, load
    the file.  1 to go on, 0 for [goto fail], -1 for [goto done]. *)
Definition extraxml_prepare (e : env) (file : option string) : M Z :=
  let* r := xmldb_db_reset e tmp_db in
  if r <? 0 then ret (-1)
  else
    let* r := clixon_plugin_reset e tmp_db in
    if r <? 0 then ret (-1)
    else
      match file with
      | None => ret 1
      | Some _ =>
          let* r := load_extraxml e file tmp_db in
          if r <? 0 then ret (-1)
          else if r =? 0 then ret 0
          else ret 1
      end.

Definition xml_is_empty (xt : option cxobj) : bool :=
  match xt with
  | None => true
  | Some x => xml_child_nr x =? 0
  end.

(** [startup_extraxml], second part: from the emptiness check of tmp to
    the labels [ok] and [fail]; the result is [retval] on reaching
    [done]. *)
Definition extraxml_merge (e : env) : M Z :=
  let* (r, xt0) := xmldb_get e tmp_db in
  if r <? 0 then ret (-1)
  else if xml_is_empty xt0 then ret 1
  else
    let* (r, xt) := startup_validate e tmp_db in
    if r <? 0 then ret (-1)
    else if r =? 0 then ret 0
    else if xml_is_empty xt then ret 1
    else
      let* r := db_merge e tmp_db "running" in
      if r <? 0 then ret 0
      else if r =? 0 then ret 0
      else ret 1.

(** [startup_extraxml], from the label [done]: tmp is deleted, and a
    failure of that other than ENOENT replaces [retval] by -1. *)
Definition extraxml_done (e : env) (retval : Z) : M Z :=
  let* d := xmldb_delete e tmp_db in
  let* en := get_errno in
  if negb (d =? 0) && negb (en =? ENOENT) then ret (-1)
  else ret retval.

(** [startup_extraxml(h, file, cbret)]; [file] is [None] for a NULL
    pointer. *)
Definition startup_extraxml (e : env) (file : option string) : M Z :=
  let* retval :=
    (let* r := extraxml_prepare e file in
     if r =? 1 then extraxml_merge e else ret r) in
  extraxml_done e retval.

(** [startup_failsafe(h)] *)
Definition startup_failsafe (e : env) : M Z :=
  let db := "failsafe" in
  let* cb := cbuf_new e in
  if negb cb then clicon_err OE_XML "cbuf_new" ;; ret (-1)
  else
    let* r := xmldb_exists e db in
    if r <? 0 then ret (-1)
    else if r =? 0 then
      clicon_err OE_DB "Startup failed and no Failsafe database found, exiting" ;;
      ret (-1)
    else
      let* c := xmldb_copy e "running" "tmp" in
      if c <? 0 then ret (-1)
      else
        let* c := xmldb_db_reset e "running" in
        if c <? 0 then ret (-1)
        else
          let* r := candidate_commit e db in
          let* c := (if negb (r =? 1) then xmldb_copy e "tmp" "running"
                     else ret 0) in
          if c <? 0 then ret (-1)
          else if r <? 0 then ret (-1)
          else if r =? 0 then
            let* msg := get_cbret in
            clicon_err OE_DB
              ("Startup failed, Failsafe database validation failed " +:+ msg) ;;
            ret (-1)
          else
            clicon_log "Startup failed, Failsafe database loaded " ;;
            ret 0.

(** Concrete configurations: running holds a/x = 1, failsafe a/x = 7,
    startup a/x = bad; the Validator rejects the text "bad"; a merge
    appends the children of the new tree; one plugin validates and
    commits. *)
Definition ex_tree (top leaf text : string) : cxobj :=
  CxElmnt "config" [CxElmnt top [xml_leaf leaf text]].

Definition ex_validator (x : cxobj) : option string :=
  if existsb (fun d => match d with
                       | CxBody v => String.eqb v "bad"
                       | CxElmnt _ _ => false
                       end) (xml_descendants x)
  then Some "invalid-value" else None.

Definition ex_modify (op : operation_type) (old new : cxobj) : cxobj :=
  match op with
  | OP_MERGE => CxElmnt (xml_name old) (xml_children old ++ xml_children new)
  | _ => new
  end.

Definition ex_plugin : plugin :=
  mkPlugin "example" None None (Some (fun _ _ => true))
           (Some (fun _ _ => true)) None None.

Definition ex_files (fn : string) : option cxobj :=
  if String.eqb fn "extra.xml" then Some (CxElmnt "top" [ex_tree "b" "y" "2"])
  else if String.eqb fn "bad.xml" then Some (CxElmnt "top" [ex_tree "b" "y" "bad"])
  else None.

Definition ex_env (faults : call -> option Z) : env :=
  mkEnv faults [ex_plugin] ex_validator Some ex_modify (fun _ _ _ => None)
        ex_files.

Definition no_fault (c : call) : option Z := None.

(** Deleting tmp fails with EACCES. *)
Definition delete_fault (c : call) : option Z :=
  match c with
  | C_xmldb_delete db => if String.eqb db "tmp" then Some 13 else None
  | _ => None
  end.

Definition ex_world (failsafe : cxobj) : world :=
  mkWorld (<["running" := ex_tree "a" "x" "1"]>
           (<["failsafe" := failsafe]>
            (<["startup" := ex_tree "a" "x" "bad"]> ∅))) 0 EmptyString [].

(** A datastore without failsafe. *)
Definition ex_world_bare : world :=
  mkWorld (<["running" := ex_tree "a" "x" "1"]> ∅) 0 EmptyString [].

(** The events a run from [w] to [w'] added. *)
Definition new_events (w w' : world) : list event :=
  drop (length (trace w)) (trace w').

(** The events inside a transaction: plugin callbacks and the static
    Validator. *)
Definition txe_event (ev : event) : Prop :=
  match ev with
  | Ev_plugin _ _ | Ev_validator _ => True
  | _ => False
  end.

Definition is_call (ev : event) : Prop :=
  match ev with
  | Ev_call _ _ => True
  | _ => False
  end.

(** Calls that change the datastore or run a transaction on it. *)
Definition is_ds_mutation (ev : event) : Prop :=
  match ev with
  | Ev_call (C_xmldb_create _) _ | Ev_call (C_xmldb_copy _ _) _
  | Ev_call (C_xmldb_db_reset _) _ | Ev_call (C_xmldb_delete _) _
  | Ev_call (C_xmldb_put _ _) _ | Ev_call (C_clixon_plugin_reset _) _
  | Ev_call (C_startup_commit _) _ | Ev_call (C_candidate_commit _) _ => True
  | _ => False
  end.

(** A plugin callback of the transaction phases (pre-validate, validate,
    commit, commit-done, rollback). *)
Definition is_transaction_callback (ev : event) : Prop :=
  match ev with
  | Ev_plugin PH_prevalidate _ | Ev_plugin PH_validate _
  | Ev_plugin PH_commit _ | Ev_plugin PH_commit_done _
  | Ev_plugin PH_rollback _ => True
  | _ => False
  end.

(** The extra-XML step as C5 words it, for the runs in which the reset
    hooks and the file load went through and left the world [w1]: with tmp
    non-empty the run validates tmp and after that puts into running with
    merge; with tmp empty there is no validation and no put and the result
    is 1 (success); in no case is a plugin transaction callback run from
    there on. *)
Definition extraxml_as_claimed : Prop :=
  forall (e : env) (file : option string) (w w1 w' : world) (r : Z),
    extraxml_prepare e file w = (1, w1) ->
    startup_extraxml e file w = (r, w') ->
    (xml_child_nr (db_content (dbs w1) tmp_db) <> 0 ->
       exists vr pr t1 t2 t3,
         new_events w1 w' =
           t1 ++ Ev_call (C_startup_validate tmp_db) vr ::
           t2 ++ Ev_call (C_xmldb_put "running" OP_MERGE) pr :: t3) /\
    (xml_child_nr (db_content (dbs w1) tmp_db) = 0 ->
       (forall vr, ~ In (Ev_call (C_startup_validate tmp_db) vr)
                        (new_events w1 w')) /\
       (forall db op pr, ~ In (Ev_call (C_xmldb_put db op) pr)
                              (new_events w1 w')) /\
       r = 1) /\
    Forall (fun ev => ~ is_transaction_callback ev) (new_events w1 w').

(** The events of the first part of [startup_extraxml]: the calls on tmp,
    the reset hooks, the file, and the error of a failed [open]. *)
Definition prepare_event (ev : event) : Prop :=
  match ev with
  | Ev_call (C_xmldb_db_reset db) _ | Ev_call (C_clixon_plugin_reset db) _ =>
      db = tmp_db
  | Ev_call (C_xmldb_put db op) _ => db = tmp_db /\ op = OP_MERGE
  | Ev_call (C_open _) _ | Ev_call (C_xml_parse_file _) _
  | Ev_call C_xml_rootchild _ => True
  | Ev_plugin PH_reset _ => True
  | Ev_err OE_UNIX _ => True
  | _ => False
  end.

(** The events of its second part: the reads and the validation of tmp and
    the merge put into running. *)
Definition merge_event (ev : event) : Prop :=
  match ev with
  | Ev_call (C_xmldb_get db) _ | Ev_call (C_xmldb_get0 db) _
  | Ev_call (C_startup_validate db) _ => db = tmp_db
  | Ev_call (C_xmldb_put db op) _ => db = "running" /\ op = OP_MERGE
  | Ev_validator db => db = tmp_db
  | _ => False
  end.

(** The put into running fails with EIO. *)
Definition put_fault (c : call) : option Z :=
  match c with
  | C_xmldb_put db _ => if String.eqb db "running" then Some 5 else None
  | _ => None
  end.

(** The copy of tmp back to running fails with EIO. *)
Definition restore_fault (c : call) : option Z :=
  match c with
  | C_xmldb_copy from to =>
      if String.eqb from "tmp" && String.eqb to "running" then Some 5 else None
  | _ => None
  end.

(** The failsafe subpath as C4 words it: whenever the commit of failsafe
    into running was called and did not return 1, the result is an error
    and running has the content it had at the start. *)
Definition failsafe_restore_as_claimed : Prop :=
  forall (e : env) (w w' : world) (r rc : Z),
    startup_failsafe e w = (r, w') ->
    In (Ev_call (C_candidate_commit "failsafe") rc) (new_events w w') ->
    rc <> 1 ->
    r <> 0 /\ dbs w' !! "running" = dbs w !! "running".

End Backend.

(* ===================================================================== *)
(** ** apps/restconf/restconf_err.c and restconf_main.c *)
(* ===================================================================== *)
Module Restconf.
Import Xml.

Inductive restconf_media :=
| YANG_DATA_JSON
| YANG_DATA_XML
| MEDIA_OTHER (n : Z).        (* any other value of the enum *)

(** The calls that leave the two files and can fail. *)
Inductive rcall :=
| R_cbuf_new
| R_netconf_xml (tag : string)       (* a netconf_*_xml builder *)
| R_netconf_err2cb
| R_xml_name_set
| R_reply_header (name : string)
| R_reply_send (code : Z)
| R_xml2cbuf
| R_xml2json
| R_strsep
| R_str2cvec
| R_readdata
| R_plugin_auth.

Inductive revent :=
| RE_call (c : rcall) (ret : Z)
| RE_err (msg : string).

(** The HTTP side of a request handle, and what the run has logged. *)
Record rstate := mkRstate {
  headers : list (string * string);
  replies : list (Z * option string);   (* status code and body, in order *)
  rlog    : list revent;
  ticks   : nat                          (* fallible calls made so far *)
}.

(** What the two files take from elsewhere. *)
Record renv := mkRenv {
  rfault : nat -> rcall -> bool;
      (* the call made as number n fails *)
  restconf_err2code : option string -> Z;
      (* the error-tag table of restconf_lib.c; -1 for an unknown tag *)
  netconf_err2cb : cxobj -> string;
  xml2cbuf : cxobj -> bool -> string;       (* clicon_xml2cbuf at level 2 *)
  xml2json : cxobj -> bool -> string;       (* xml2json_cbuf *)
  plugin_auth : Z;
      (* clixon_plugin_auth: negative on error, 0 when not authenticated *)
  opt_pretty : bool;                        (* CLICON_RESTCONF_PRETTY *)
  (* the method handlers, by their return value and the replies they send *)
  api_root : bool -> restconf_media -> Z * list (Z * option string);
  api_yang_library_version :
    bool -> restconf_media -> Z * list (Z * option string);
  api_data : string -> bool -> restconf_media -> Z * list (Z * option string);
  api_operations :
    string -> bool -> restconf_media -> Z * list (Z * option string);
  restconf_test_out : list (Z * option string)
      (* what restconf_test(r, 0) writes to the request *)
}.

Abbreviation R := (state rstate).

Definition run_handler (h : Z * list (Z * option string)) : R Z :=
  fun s => (fst h, mkRstate (headers s) (replies s ++ snd h) (rlog s) (ticks s)).

(** Modelled from the spec: restconf_test(r, dbg) of restconf_lib.c, a
    diagnostic outside the specified surface: with [dbg] set it writes to
    the debug log only, otherwise to the request. *)
Definition restconf_test (env : renv) (dbg : bool) : R Z :=
  if dbg then ret 0 else run_handler (0, restconf_test_out env).

Definition rlog_add (ev : revent) : R unit :=
  fun s => (tt, mkRstate (headers s) (replies s) (rlog s ++ [ev]) (ticks s)).

Definition clicon_err (msg : string) : R unit := rlog_add (RE_err msg).

(** A fallible call: true when it goes through. *)
Definition attempt (env : renv) (c : rcall) : R bool :=
  fun s =>
    let failed := rfault env (ticks s) c in
    (negb failed,
     mkRstate (headers s) (replies s)
       (rlog s ++ [RE_call c (if failed then -1 else 0)]) (S (ticks s))).

(** Modelled from the spec: restconf_reply_header of restconf_api.c, which
    adds one header to the reply under construction. *)
Definition restconf_reply_header (env : renv) (name value : string) : R Z :=
  let* ok := attempt env (R_reply_header name) in
  if ok then
    (fun s => (0, mkRstate (headers s ++ [(name, value)]) (replies s)
                    (rlog s) (ticks s)))
  else ret (-1).

(** Modelled from the spec: restconf_reply_send of restconf_api.c, which
    sends one HTTP reply with the given status code and body. *)
Definition restconf_reply_send (env : renv) (code : Z) (body : option string)
  : R Z :=
  let* ok := attempt env (R_reply_send code) in
  if ok then
    (fun s => (0, mkRstate (headers s) (replies s ++ [(code, body)])
                    (rlog s) (ticks s)))
  else ret (-1).

(** Modelled from the spec: the netconf_*_xml builders of
    clixon_netconf_lib.c: an rpc-reply holding one rpc-error with the
    standard fields of section 6. *)
Definition netconf_rpc_error (tag type msg : string) : cxobj :=
  CxElmnt "rpc-reply"
    [CxElmnt "rpc-error"
       [xml_leaf "error-type" type; xml_leaf "error-tag" tag;
        xml_leaf "error-severity" "error"; xml_leaf "error-message" msg]].

Definition netconf_xml (env : renv) (tag type msg : string)
  : R (option cxobj) :=
  let* ok := attempt env (R_netconf_xml tag) in
  if ok then ret (Some (netconf_rpc_error tag type msg)) else ret None.

Definition netconf_operation_not_supported_xml (env : renv) :=
  netconf_xml env "operation-not-supported".
Definition netconf_operation_failed_xml (env : renv) :=
  netconf_xml env "operation-failed".
Definition netconf_access_denied_xml (env : renv) :=
  netconf_xml env "access-denied".

(** Modelled from the spec: restconf_media_int2str, the media types of
    section 6; printf renders the NULL of any other value as "(null)". *)
Definition restconf_media_int2str (media : restconf_media) : string :=
  match media with
  | YANG_DATA_JSON => "application/yang-data+json"
  | YANG_DATA_XML => "application/yang-data+xml"
  | MEDIA_OTHER _ => "(null)"
  end.

Definition unauthorized_msg : string := "The requested URL was unauthorized".

(** The test of the special case in [api_return_err]: the first
    error-message child has a body and it is the unauthorized message. *)
Definition is_unauthorized (xerr : cxobj) : bool :=
  match xpath_first (Some xerr) [Child "error-message"] with
  | Some xmsg =>
      match xml_body xmsg with
      | Some mb => String.eqb mb unauthorized_msg
      | None => false
      end
  | None => false
  end.

(** The status code [api_return_err] chooses. *)
Definition err_code (env : renv) (xerr xtag : cxobj) (code0 : Z) : Z :=
  if negb (code0 =? 0) then code0
  else
    let code := restconf_err2code env (xml_body xtag) in
    let code := if code <? 0 then 500 else code in
    if code =? 403 then (if is_unauthorized xerr then 401 else code)
    else code.

(** The characters the C string literals escape. *)
Definition DQ : string := String (ascii_of_nat 34) EmptyString.
Definition LF : string := String (ascii_of_nat 10) EmptyString.
Definition CRLF : string :=
  String (ascii_of_nat 13) (String (ascii_of_nat 10) EmptyString).

Definition errors_open : string :=
  "<errors xmlns=" +:+ DQ +:+ "urn:ietf:params:xml:ns:yang:ietf-restconf"
  +:+ DQ +:+ ">".

(** The body [api_return_err] builds in [cb], with the serializer it
    calls; [None] for the default case of the switch. *)
Definition err_body (env : renv) (xerr : cxobj) (pretty : bool)
    (media : restconf_media) : option (rcall * string) :=
  match media with
  | YANG_DATA_XML =>
      Some (R_xml2cbuf,
            if pretty then
              "    " +:+ errors_open +:+ LF +:+
              xml2cbuf env xerr pretty +:+ "    </errors>" +:+ CRLF
            else
              errors_open +:+ xml2cbuf env xerr pretty +:+ "</errors>" +:+ CRLF)
  | YANG_DATA_JSON =>
      Some (R_xml2json,
            if pretty then
              "{" +:+ LF +:+ DQ +:+ "ietf-restconf:errors" +:+ DQ +:+ " : " +:+
              xml2json env xerr pretty +:+ LF +:+ "}" +:+ CRLF
            else
              "{" +:+ DQ +:+ "ietf-restconf:errors" +:+ DQ +:+ ":" +:+
              xml2json env xerr pretty +:+ "}" +:+ CRLF)
  | MEDIA_OTHER _ => None
  end.

(** *** restconf_err.c *)

(** The branch of [api_return_err] taken for an error message that is not
    an rpc-error with an error-tag: an operation-failed error is generated
    in its place.  The result is the error and its error-tag node, [None]
    for [goto done]. *)
Definition err_regenerate (env : renv) (xerr : cxobj)
  : R (option (cxobj * cxobj)) :=
  let* ok := attempt env R_cbuf_new in
  if negb ok then clicon_err "cbuf_new" ;; ret None
  else
    let* ok := attempt env R_netconf_err2cb in
    if negb ok then ret None
    else
      let* x2 := netconf_operation_failed_xml env "application"
                   ("Internal error, system returned invalid error message: "
                    +:+ netconf_err2cb env xerr) in
      match xpath_first x2 [Child "rpc-error"] with
      | None =>
          match x2 with
          | None => ret None
          | Some _ => clicon_err "Internal error, shouldnt happen" ;; ret None
          end
      | Some xe =>
          match xpath_first (Some xe) [Child "error-tag"] with
          | None => clicon_err "Internal error, shouldnt happen" ;; ret None
          | Some xtag => ret (Some (xe, xtag))
          end
      end.

(** [api_return_err(h, req, xerr, pretty, media, code0)] *)
Definition api_return_err (env : renv) (xerr : cxobj) (pretty : bool)
    (media : restconf_media) (code0 : Z) : R Z :=
  let* ok := attempt env R_cbuf_new in
  if negb ok then clicon_err "cbuf_new" ;; ret (-1)
  else
    let* wf :=
      (if negb (String.eqb (xml_name xerr) "rpc-error")
       then err_regenerate env xerr
       else match xpath_first (Some xerr) [Child "error-tag"] with
            | None => err_regenerate env xerr
            | Some xtag => ret (Some (xerr, xtag))
            end) in
    match wf with
    | None => ret (-1)
    | Some (xerr, xtag) =>
        let* ok := attempt env R_xml_name_set in
        if negb ok then ret (-1)
        else
          let xerr := xml_name_set xerr "error" in
          let code := err_code env xerr xtag code0 in
          let* h := restconf_reply_header env "Content-Type"
                      (restconf_media_int2str media) in
          if h <? 0 then ret (-1)
          else
            match err_body env xerr pretty media with
            | None => clicon_err "Invalid media type" ;; ret (-1)
            | Some (ser, body) =>
                let* ok := attempt env ser in
                if negb ok then ret (-1)
                else
                  let* r := restconf_reply_send env code (Some body) in
                  if r <? 0 then ret (-1) else ret 0
            end
    end.

(** [api_return_err0]: the error is the rpc-error child of [xerr]. *)
Definition api_return_err0 (env : renv) (xerr : cxobj) (pretty : bool)
    (media : restconf_media) (code : Z) : R Z :=
  match xpath_first (Some xerr) [Child "rpc-error"] with
  | None => clicon_err "Expected xml on the form <rpc-error>.." ;; ret (-1)
  | Some xe =>
      let* r := api_return_err env xe pretty media code in
      if r <? 0 then ret (-1) else ret 0
  end.

(** [restconf_unsupported_media]: HTTP error 415. *)
Definition restconf_unsupported_media (env : renv) (pretty : bool)
    (media : restconf_media) : R Z :=
  let* x := netconf_operation_not_supported_xml env "protocol"
              "Unsupported Media Type" in
  match x with
  | None => ret (-1)
  | Some xerr =>
      let* r := api_return_err0 env xerr pretty media 415 in
      if r <? 0 then ret (-1) else ret 0
  end.

(** [restconf_not_acceptable]: documented as HTTP error 406. *)
Definition restconf_not_acceptable (env : renv) (pretty : bool)
    (media : restconf_media) : R Z :=
  let* x := netconf_operation_not_supported_xml env "protocol"
              "Unacceptable output encoding" in
  match x with
  | None => ret (-1)
  | Some xerr =>
      let* r := api_return_err0 env xerr pretty media 415 in
      if r <? 0 then ret (-1)
      else
        let* r := restconf_reply_send env 415 None in
        if r <? 0 then ret (-1) else ret 0
  end.

(** [restconf_notimplemented]: HTTP error 501. *)
Definition restconf_notimplemented (env : renv) (pretty : bool) : R Z :=
  let* x := netconf_operation_not_supported_xml env "protocol"
              "Not Implemented" in
  match x with
  | None => ret (-1)
  | Some xerr =>
      let* r := api_return_err0 env xerr pretty YANG_DATA_JSON 501 in
      if r <? 0 then ret (-1) else ret 0
  end.

(** The replies a run from [s] to [s'] sent, and the events it logged. *)
Definition new_replies (s s' : rstate) : list (Z * option string) :=
  drop (length (replies s)) (replies s').

Definition new_rlog (s s' : rstate) : list revent :=
  drop (length (rlog s)) (rlog s').

(** *** restconf_main.c *)

Record request := mkRequest {
  req_path   : string;            (* restconf_uripath(r) *)
  req_accept : option string      (* HTTP_ACCEPT, None when not sent *)
}.

(** The macro RESTCONF_API of restconf_lib.h, the root of the URL surface
    of section 6. *)
Definition RESTCONF_API : string := "restconf".

(** Modelled from the spec: restconf_media_str2int, the media types of
    section 6; [None] is -1. *)
Definition restconf_media_str2int (str : string) : option restconf_media :=
  if String.eqb str "application/yang-data+json" then Some YANG_DATA_JSON
  else if String.eqb str "application/yang-data+xml" then Some YANG_DATA_XML
  else None.

(** Modelled from the spec: restconf_notfound(r) and the one-argument
    restconf_unsupported_media(r) that restconf_main.c calls, one reply
    with status 404 and 415 of the mapping of section 6. *)
Definition restconf_notfound (env : renv) : R Z :=
  restconf_reply_send env 404 None.

Definition restconf_unsupported_media_r (env : renv) : R Z :=
  restconf_reply_send env 415 None.

(** [clicon_strsep(path, "/", &pn)]: the fields between the separators. *)
Fixpoint clicon_strsep (sep : ascii) (str : string) : list string :=
  match str with
  | EmptyString => [EmptyString]
  | String a rest =>
      if Ascii.eqb a sep then EmptyString :: clicon_strsep sep rest
      else match clicon_strsep sep rest with
           | hd :: tl => String a hd :: tl
           | [] => [String a EmptyString]
           end
  end.

Definition slash : ascii := ascii_of_nat 47.

(** The output media of [api_restconf]: [None] when the Accept header
    names an unsupported media. *)
Definition media_out_of (accept : option string) : option restconf_media :=
  match accept with
  | None => Some YANG_DATA_JSON
  | Some str =>
      match restconf_media_str2int str with
      | Some m => Some m
      | None => if String.eqb str "*/*" then Some YANG_DATA_JSON else None
      end
  end.

(** [api_restconf], the part after successful authentication. *)
Definition api_dispatch (env : renv) (path method : string) (pretty : bool)
    (media_out : restconf_media) : R Z :=
  if String.eqb method "yang-library-version" then
    let* r := run_handler (api_yang_library_version env pretty media_out) in
    if r <? 0 then ret (-1) else ret 0
  else if String.eqb method "data" then
    let* r := run_handler (api_data env path pretty media_out) in
    if r <? 0 then ret (-1) else ret 0
  else if String.eqb method "operations" then
    let* r := run_handler (api_operations env path pretty media_out) in
    if r <? 0 then ret (-1) else ret 0
  else if String.eqb method "test" then restconf_test env false ;; ret 0
  else restconf_notfound env ;; ret 0.

(** [api_restconf(h, r)].  The user name kept in the handle is not
    modelled. *)
Definition api_restconf (env : renv) (rq : request) : R Z :=
  let pretty := opt_pretty env in
  match media_out_of (req_accept rq) with
  | None => restconf_unsupported_media_r env
  | Some media_out =>
      let* ok := attempt env R_strsep in
      if negb ok then ret (-1)
      else
        let pvec := clicon_strsep slash (req_path rq) in
        if (length pvec <? 2)%nat then restconf_notfound env ;; ret 0
        else if negb (String.eqb (nth 0 pvec EmptyString) EmptyString)
        then restconf_notfound env
        else if negb (String.eqb (nth 1 pvec EmptyString) RESTCONF_API)
        then restconf_notfound env
        else
          restconf_test env true ;;
          if (length pvec =? 2)%nat
          then run_handler (api_root env pretty media_out)
          else
            let method := nth 2 pvec EmptyString in
            let* ok := attempt env R_str2cvec in            (* query *)
            if negb ok then ret (-1) else
            let* ok := attempt env R_str2cvec in            (* path *)
            if negb ok then ret (-1) else
            let* ok := attempt env R_readdata in
            if negb ok then ret (-1) else
            let* ok := attempt env R_str2cvec in            (* data *)
            if negb ok then ret (-1) else
            rlog_add (RE_call R_plugin_auth (plugin_auth env)) ;;
            if plugin_auth env <? 0 then ret (-1)
            else if negb (plugin_auth env =? 0) then
              api_dispatch env (req_path rq) method pretty media_out
            else
              let* xret := netconf_access_denied_xml env "protocol"
                             unauthorized_msg in
              match xret with
              | None => ret (-1)
              | Some _ =>
                  match xpath_first xret [Desc "rpc-error"] with
                  | Some xerr =>
                      let* r := api_return_err env xerr pretty media_out 0 in
                      if r <? 0 then ret (-1) else ret 0
                  | None => ret 0
                  end
              end
  end.

(** Modelled from the spec: the error-tag to status mapping of
    restconf_lib.c as section 6 lists it, with operation-not-supported on
    405 as the comments of restconf_err.c say. *)
Definition restconf_err2code_spec (tag : option string) : Z :=
  match tag with
  | None => -1
  | Some t =>
      if String.eqb t "invalid-value" then 400
      else if String.eqb t "access-denied" then 403
      else if String.eqb t "operation-not-supported" then 405
      else if String.eqb t "in-use" then 409
      else if String.eqb t "data-exists" then 409
      else if String.eqb t "lock-denied" then 412
      else if String.eqb t "operation-failed" then 500
      else -1
  end.

(** The rpc-error the unauthenticated branch of [api_restconf] finds in
    what [netconf_access_denied_xml] built. *)
Definition access_denied_error : cxobj :=
  CxElmnt "rpc-error"
    [xml_leaf "error-type" "protocol"; xml_leaf "error-tag" "access-denied";
     xml_leaf "error-severity" "error";
     xml_leaf "error-message" unauthorized_msg].

(** A gateway where no call fails and no request is authenticated. *)
Definition ex_renv : renv :=
  mkRenv (fun _ _ => false) restconf_err2code_spec
         (fun _ => "error") (fun _ _ => "<error/>") (fun _ _ => "{}")
         0 false
         (fun _ _ => (0, [])) (fun _ _ => (0, [])) (fun _ _ _ => (0, []))
         (fun _ _ _ => (0, [])) [].

Definition rstate0 : rstate := mkRstate [] [] [] 0.

(** [restconf_method_notallowed]: HTTP error 405 with an Allow header.
    The call of [api_return_err0] passes YANG_DATA_JSON and code 0
    whatever [media] is. *)
Definition restconf_method_notallowed (env : renv) (allow : string)
    (pretty : bool) (media : restconf_media) : R Z :=
  let* x := netconf_operation_not_supported_xml env "protocol"
              "Method not allowed" in
  match x with
  | None => ret (-1)
  | Some xerr =>
      let* h := restconf_reply_header env "Allow" allow in
      if h <? 0 then ret (-1)
      else
        let* r := api_return_err0 env xerr pretty YANG_DATA_JSON 0 in
        if r <? 0 then ret (-1) else ret 0
  end.

(** What [api_return_err] builds in [xerr2] for an error message that is
    not well formed. *)
Definition internal_error (env : renv) (xerr : cxobj) : cxobj :=
  netconf_rpc_error "operation-failed" "application"
    ("Internal error, system returned invalid error message: "
     +:+ netconf_err2cb env xerr).

(** The same gateway with other handlers behind the authentication. *)
Definition with_handlers (env : renv)
    (ylv : bool -> restconf_media -> Z * list (Z * option string))
    (data ops : string -> bool -> restconf_media -> Z * list (Z * option string))
    (test : list (Z * option string)) : renv :=
  mkRenv (rfault env) (restconf_err2code env) (netconf_err2cb env)
         (xml2cbuf env) (xml2json env) (plugin_auth env) (opt_pretty env)
         (api_root env) ylv data ops test.

(** *** The request loop of [main]

    [strncmp(a, b, n) == 0]: the first [n] characters agree, the
    comparison ending early where both strings end. *)
Fixpoint strncmp_eq (a b : string) (n : nat) {struct n} : bool :=
  match n with
  | O => true
  | S n' =>
      match a, b with
      | EmptyString, EmptyString => true
      | String x a', String y b' => Ascii.eqb x y && strncmp_eq a' b' n'
      | _, _ => false
      end
  end.

Definition RESTCONF_WELL_KNOWN : string := "/.well-known/host-meta".

(** The function a request is handed to. *)
Inductive route :=
| To_api_restconf
| To_api_stream
| To_api_well_known
| To_restconf_notfound
| No_uri.                       (* REQUEST_URI is NULL: nothing is called *)

(** [path + 1] for a non-empty [path]. *)
Definition string_tail (s : string) : string :=
  match s with
  | String _ s' => s'
  | EmptyString => EmptyString
  end.

(** The dispatch on REQUEST_URI in the loop of [main]; [stream_path] is
    the option CLICON_STREAM_PATH.  An empty REQUEST_URI, for which
    [path + 1] lies behind the string, is outside the model. *)
Definition main_route (uri : option string) (stream_path : string) : route :=
  match uri with
  | None => No_uri
  | Some path =>
      if strncmp_eq path ("/" +:+ RESTCONF_API)
           (String.length ("/" +:+ RESTCONF_API))
      then To_api_restconf
      else if strncmp_eq (string_tail path) stream_path
                (String.length stream_path)
      then To_api_stream
      else if strncmp_eq path RESTCONF_WELL_KNOWN
                (String.length RESTCONF_WELL_KNOWN)
      then To_api_well_known
      else To_restconf_notfound
  end.

End Restconf.

(* ===================================================================== *)
(** ** lib/src/clixon_proto_client.c *)
(* ===================================================================== *)
Module ProtoClient.
Import Xml.

Inductive sock_family := AF_UNIX | AF_INET | AF_OTHER.

(** The allocations that can fail in [clicon_rpc_get_config]. *)
Inductive pcall := P_cbuf_new | P_xml_new | P_xml_rm.

(** The handle's options and what lies behind the socket. *)
Record penv := mkPenv {
  pfault : pcall -> bool;
  clicon_msg_encode : string -> option string;
      (* the message for a format string, None for NULL *)
  clicon_sock : option string;
  clicon_sock_family : sock_family;
  clicon_sock_port : Z;
  clicon_rpc_connect_unix : string -> string -> option (option string);
  clicon_rpc_connect_inet : string -> string -> Z -> option (option string);
      (* None: the call failed; Some retdata, retdata None for NULL *)
  clicon_xml_parse_str : string -> option cxobj    (* None on a parse error *)
}.

(** [clicon_rpc_msg(h, msg, &xret, NULL)]: return value and [xret]. *)
Definition clicon_rpc_msg (env : penv) (msg : string) : Z * option cxobj :=
  match clicon_sock env with
  | None => (-1, None)                   (* CLICON_SOCK option not set *)
  | Some sock =>
      let connected :=
        match clicon_sock_family env with
        | AF_UNIX => clicon_rpc_connect_unix env msg sock
        | AF_INET =>
            if clicon_sock_port env <? 0 then None
            else clicon_rpc_connect_inet env msg sock (clicon_sock_port env)
        | AF_OTHER => Some None
        end in
      match connected with
      | None => (-1, None)
      | Some None => (0, None)
      | Some (Some retdata) =>
          match clicon_xml_parse_str env retdata with
          | None => (-1, None)
          | Some xret => (0, Some xret)
          end
      end
  end.

Definition DQ : string := String (ascii_of_nat 34) EmptyString.

(** The request text built in [cb]; [xpath] is [None] for NULL. *)
Definition get_config_request (db : string) (xpath : option string) : string :=
  "<rpc><get-config><source><" +:+ db +:+ "/></source>" +:+
  match xpath with
  | Some xp =>
      if (String.length xp =? 0)%nat then EmptyString
      else "<filter type=" +:+ DQ +:+ "xpath" +:+ DQ +:+ " select=" +:+ DQ
           +:+ xp +:+ DQ +:+ "/>"
  | None => EmptyString
  end +:+ "</get-config></rpc>".

(** [clicon_rpc_get_config(h, db, xpath, xt)]: the return value and the
    tree stored through [xt], [None] when nothing is stored; [xt_given]
    says whether the caller passed a non-NULL [xt]. *)
Definition clicon_rpc_get_config (env : penv) (db : string)
    (xpath : option string) (xt_given : bool) : Z * option cxobj :=
  if pfault env P_cbuf_new then (-1, None)
  else
    match clicon_msg_encode env (get_config_request db xpath) with
    | None => (-1, None)
    | Some msg =>
        let '(r, xret) := clicon_rpc_msg env msg in
        if r <? 0 then (-1, None)
        else
          match xpath_first xret [Desc "rpc-error"] with
          | Some xerr => (-1, None)         (* clicon_rpc_generate_error *)
          | None =>
              let xd :=
                match xpath_first xret [Desc "data"; Child "config"] with
                | Some xd => Some xd
                | None => if pfault env P_xml_new then None
                          else Some (xml_new "config")
                end in
              match xd with
              | None => (-1, None)
              | Some xd =>
                  if xt_given then
                    if pfault env P_xml_rm then (-1, None)
                    else (0, Some xd)
                  else (0, None)
              end
          end
    end.

(** A backend that answers [<rpc-reply><data/></rpc-reply>]. *)
Definition ex_penv : penv :=
  mkPenv (fun _ => false) Some (Some "/var/run/clixon.sock") AF_UNIX 0
         (fun _ _ => Some (Some "<rpc-reply><data/></rpc-reply>"))
         (fun _ _ _ => None)
         (fun _ => Some (CxElmnt "rpc-reply" [CxElmnt "data" []])).

(** *** The RPCs that expect an empty reply

    After building the request they all do the same: encode it, send it
    with [clicon_rpc_msg], and fail when the reply holds an rpc-error
    anywhere ([xpath_first(xret, "//rpc-error")]). *)
Definition rpc_expect_ok (env : penv) (request : string) : Z :=
  match clicon_msg_encode env request with
  | None => -1
  | Some msg =>
      let '(r, xret) := clicon_rpc_msg env msg in
      if r <? 0 then -1
      else match xpath_first xret [Desc "rpc-error"] with
           | Some xerr => -1             (* clicon_rpc_generate_error *)
           | None => 0
           end
  end.

Definition clicon_rpc_copy_config (env : penv) (db1 db2 : string) : Z :=
  rpc_expect_ok env
    ("<rpc><copy-config><source><" +:+ db1 +:+ "/></source><target><" +:+ db2
     +:+ "/></target></copy-config></rpc>").

Definition clicon_rpc_delete_config (env : penv) (db : string) : Z :=
  rpc_expect_ok env
    ("<rpc><delete-config><target><" +:+ db
     +:+ "/></target></delete-config></rpc>").

Definition clicon_rpc_lock (env : penv) (db : string) : Z :=
  rpc_expect_ok env
    ("<rpc><lock><target><" +:+ db +:+ "/></target></lock></rpc>").

Definition clicon_rpc_unlock (env : penv) (db : string) : Z :=
  rpc_expect_ok env
    ("<rpc><unlock><target><" +:+ db +:+ "/></target></unlock></rpc>").

Definition clicon_rpc_close_session (env : penv) : Z :=
  rpc_expect_ok env "<rpc><close-session/></rpc>".

(** [%d] of the session id. *)
Definition clicon_rpc_kill_session (env : penv) (session_id : Z) : Z :=
  rpc_expect_ok env
    ("<rpc><kill-session><session-id>" +:+ pretty session_id
     +:+ "</session-id></kill-session></rpc>").

(** [clicon_rpc_validate] logs the error-message instead of raising the
    error; the control flow is the same. *)
Definition clicon_rpc_validate (env : penv) (db : string) : Z :=
  rpc_expect_ok env
    ("<rpc><validate><source><" +:+ db +:+ "/></source></validate></rpc>").

Definition clicon_rpc_commit (env : penv) : Z :=
  rpc_expect_ok env "<rpc><commit/></rpc>".

Definition clicon_rpc_discard_changes (env : penv) : Z :=
  rpc_expect_ok env "<rpc><discard_changes/></rpc>".

(** [clicon_rpc_debug] also wants an [ok] below an [rpc-reply]
    ([xpath_first(xret, "//rpc-reply/ok")]). *)
Definition clicon_rpc_debug (env : penv) (level : Z) : Z :=
  match clicon_msg_encode env
          ("<rpc><debug><level>" +:+ pretty level +:+ "</level></debug></rpc>")
  with
  | None => -1
  | Some msg =>
      let '(r, xret) := clicon_rpc_msg env msg in
      if r <? 0 then -1
      else match xpath_first xret [Desc "rpc-error"] with
           | Some xerr => -1
           | None =>
               match xpath_first xret [Desc "rpc-reply"; Child "ok"] with
               | None => -1
               | Some _ => 0
               end
           end
  end.

(** Whether the reply holds an rpc-error element below its root. *)
Definition has_rpc_error (xret : cxobj) : bool :=
  existsb (is_elmnt_named "rpc-error") (xml_descendants xret).

(** A backend that answers every request with the tree [xret]. *)
Definition ex_penv_reply (xret : cxobj) : penv :=
  mkPenv (fun _ => false) Some (Some "/var/run/clixon.sock") AF_UNIX 0
         (fun _ _ => Some (Some "reply")) (fun _ _ _ => None)
         (fun _ => Some xret).

(** A handle whose socket family is neither AF_UNIX nor AF_INET, and whose
    connect functions would fail. *)
Definition ex_penv_other : penv :=
  mkPenv (fun _ => false) Some (Some "sock") AF_OTHER 0
         (fun _ _ => None) (fun _ _ _ => None) (fun _ => None).

End ProtoClient.

(* ===================================================================== *)
(** ** Properties of lib/src/clixon_file.c *)
(* ===================================================================== *)
Module FileSpec.
Import File.

(** *** File copy *)

Lemma stat_Some (o : os) (p : string) (i : nat) (f : file) :
  stat o p = Some (i, f) <->
  entries o !! locate o p = Some i /\ inodes o !! i = Some f.
Proof.
  unfold stat. destruct (entries o !! locate o p) as [j|].
  - destruct (inodes o !! j) as [g|] eqn:E; split.
    + intros H. by inversion H; subst.
    + intros [H1 H2]. inversion H1; subst. congruence.
    + discriminate.
    + intros [H1 H2]. inversion H1; subst. congruence.
  - split; [discriminate | by intros [? _]].
Qed.

Lemma content_stat (o : os) (p : string) (i : nat) (f : file) :
  stat o p = Some (i, f) -> content o p = Some (f_data f).
Proof. intros H. unfold content. by rewrite H. Qed.

(** The open of the target: the inode opened holds no bytes afterwards and
    the target names it; no other inode and no other directory entry
    changes; the inode is the target's former one or a new one. *)
Lemma open_trunc_spec (o o1 : os) (target : string) (mode : Z) (it : nat) :
  open_trunc o target mode = (it, o1) ->
  locate o1 = locate o /\
  entries o1 !! locate o target = Some it /\
  (forall e, e <> locate o target -> entries o1 !! e = entries o !! e) /\
  (exists md, inodes o1 = <[it := mkFile md []]> (inodes o)) /\
  ((exists f, stat o target = Some (it, f) /\
              inodes o1 = <[it := mkFile (f_mode f) []]> (inodes o)) \/
   (stat o target = None /\ inodes o !! it = None)).
Proof.
  unfold open_trunc. intros H.
  destruct (stat o target) as [[i f]|] eqn:Hst.
  - inversion H; subst; simpl. apply stat_Some in Hst. destruct Hst as [He Hi].
    split; [done|]. split; [done|]. split; [done|].
    split; [by eexists|]. left. by exists f.
  - inversion H; subst; simpl. split; [done|].
    split; [by rewrite lookup_insert_eq|].
    split; [by intros; rewrite lookup_insert_ne|].
    split; [by eexists|]. right. split; [done|].
    apply not_elem_of_dom. apply is_fresh.
Qed.

Lemma copy_loop_fuel (o : os) (fuel k : nat) (inp out : list Byte.byte) :
  (length inp < fuel)%nat -> copy_loop o fuel k inp out <> None.
Proof.
  revert k inp out.
  induction fuel as [|fuel IH]; intros k inp out Hlt; [lia|].
  cbn [copy_loop]. destruct (read_result o k) as [|n]; [discriminate|].
  destruct (Nat.eqb (length (take (Nat.min n LINE_SIZE) inp)) 0) eqn:E0;
    [discriminate|].
  destruct (write_result o k); [discriminate|].
  apply IH. apply Nat.eqb_neq in E0. rewrite length_drop.
  rewrite length_take in *. lia.
Qed.

(** One iteration with a complete read and a complete write moves one
    line. *)
Lemma copy_loop_step (o : os) (fuel k : nat) (inp out : list Byte.byte) :
  full_read o k -> full_write o k -> inp <> [] ->
  copy_loop o (S fuel) k inp out =
  copy_loop o fuel (S k) (drop LINE_SIZE inp) (out ++ take LINE_SIZE inp).
Proof.
  intros (n & Hr & Hn) (m & Hw & Hm) Hne. cbn [copy_loop]. rewrite Hr, Hw.
  rewrite Nat.min_r by done.
  assert (length (take LINE_SIZE inp) <> 0)%nat as Hlen.
  { rewrite length_take. destruct inp; [done|]. simpl length.
    unfold LINE_SIZE. lia. }
  apply Nat.eqb_neq in Hlen. rewrite Hlen. f_equal.
  - rewrite length_take.
    destruct (Nat.le_ge_cases LINE_SIZE (length inp)) as [Hge|Hle].
    + by rewrite Nat.min_l.
    + rewrite Nat.min_r by done. by rewrite !drop_ge.
  - f_equal. apply take_ge. rewrite length_take. lia.
Qed.

Lemma copy_loop_eof (o : os) (fuel k n : nat) (out : list Byte.byte) :
  read_result o k = IoCount n ->
  copy_loop o (S fuel) k [] out = Some (true, out).
Proof. intros Hr. cbn [copy_loop]. rewrite Hr. by rewrite take_nil. Qed.

(** With every read and write complete the loop copies all its input. *)
Lemma copy_loop_complete (o : os) (fuel k : nat) (inp out : list Byte.byte) :
  (forall i, (k <= i)%nat -> full_read o i /\ full_write o i) ->
  (length inp < fuel)%nat ->
  copy_loop o fuel k inp out = Some (true, out ++ inp).
Proof.
  revert k inp out.
  induction fuel as [|fuel IH]; intros k inp out Hfull Hlt; [lia|].
  destruct (Hfull k (Nat.le_refl k)) as [Hr Hw].
  destruct inp as [|b inp].
  - destruct Hr as (n & Hr & _). rewrite (copy_loop_eof _ _ _ n) by done.
    by rewrite app_nil_r.
  - rewrite copy_loop_step by done.
    rewrite IH.
    + by rewrite <- app_assoc, take_drop.
    + intros i Hi. apply Hfull. lia.
    + rewrite length_drop. unfold LINE_SIZE. simpl length in *. lia.
Qed.

(** The loop up to call [j], the calls before it being complete: what has
    been written when call [j] is reached is the first [j - k] lines. *)
Lemma copy_loop_prefix (o : os) (fuel k j : nat) (inp out : list Byte.byte) :
  (forall i, (k <= i < j)%nat -> full_read o i /\ full_write o i) ->
  (k <= j)%nat -> ((j - k) * LINE_SIZE < length inp)%nat ->
  (length inp < fuel)%nat ->
  exists fuel',
    (length (drop ((j - k) * LINE_SIZE) inp) < fuel')%nat /\
    copy_loop o fuel k inp out =
    copy_loop o fuel' j (drop ((j - k) * LINE_SIZE) inp)
      (out ++ take ((j - k) * LINE_SIZE) inp).
Proof.
  revert k inp out.
  induction fuel as [|fuel IH]; intros k inp out Hfull Hk Hlen Hlt; [lia|].
  destruct (Nat.eq_dec k j) as [->|Hne].
  - exists (S fuel). rewrite Nat.sub_diag. simpl.
    rewrite drop_0, take_0, app_nil_r. done.
  - destruct (Hfull k ltac:(lia)) as [Hr Hw].
    assert (inp <> []) as Hnil by (intros ->; simpl in Hlen; lia).
    rewrite copy_loop_step by done.
    replace (j - k)%nat with (S (j - S k)) in * by lia.
    replace (S (j - S k) * LINE_SIZE)%nat
      with (LINE_SIZE + (j - S k) * LINE_SIZE)%nat in * by (simpl; lia).
    set (m := ((j - S k) * LINE_SIZE)%nat) in *.
    destruct (IH (S k) (drop LINE_SIZE inp) (out ++ take LINE_SIZE inp))
      as (fuel' & Hf' & Heq).
    + intros i Hi. apply Hfull. lia.
    + lia.
    + rewrite length_drop. lia.
    + rewrite length_drop. clearbody m. unfold LINE_SIZE in *. lia.
    + exists fuel'. rewrite drop_drop in Hf', Heq.
      split; [done|]. rewrite Heq. f_equal.
      by rewrite <- app_assoc, take_take_drop.
Qed.

(** A failing write at call [j] leaves the lines written before it. *)
Lemma copy_loop_write_fail (o : os) (fuel j n : nat) (inp : list Byte.byte) :
  (forall i, (i < j)%nat -> full_read o i /\ full_write o i) ->
  read_result o j = IoCount n -> (1 <= n)%nat ->
  write_result o j = IoFail ->
  (j * LINE_SIZE < length inp)%nat -> (length inp < fuel)%nat ->
  copy_loop o fuel 0 inp [] = Some (false, take (j * LINE_SIZE) inp).
Proof.
  intros Hfull Hr Hn Hw Hlen Hlt.
  destruct (copy_loop_prefix o fuel 0 j inp []) as (fuel' & Hf' & ->);
    [intros i Hi; apply Hfull; lia | lia | by rewrite Nat.sub_0_r | done |].
  rewrite Nat.sub_0_r. simpl app.
  destruct fuel' as [|fuel']; [lia|]. cbn [copy_loop]. rewrite Hr, Hw.
  assert (length (take (n `min` LINE_SIZE) (drop (j * LINE_SIZE) inp)) <> 0)%nat
    as Hne.
  { rewrite length_take, length_drop. unfold LINE_SIZE in *. lia. }
  apply Nat.eqb_neq in Hne. by rewrite Hne.
Qed.

(** A failing read at call [j] ends the loop as the end of the file does. *)
Lemma copy_loop_read_fail (o : os) (fuel j : nat) (inp : list Byte.byte) :
  (forall i, (i < j)%nat -> full_read o i /\ full_write o i) ->
  read_result o j = IoFail -> (length inp < fuel)%nat ->
  copy_loop o fuel 0 inp [] = Some (true, take (j * LINE_SIZE) inp).
Proof.
  intros Hfull Hr Hlt.
  destruct (Nat.lt_ge_cases (j * LINE_SIZE) (length inp)) as [Hlen|Hlen].
  - destruct (copy_loop_prefix o fuel 0 j inp []) as (fuel' & Hf' & ->);
      [intros i Hi; apply Hfull; lia | lia | by rewrite Nat.sub_0_r | done |].
    rewrite Nat.sub_0_r. simpl app.
    destruct fuel' as [|fuel']; [lia|]. cbn [copy_loop]. by rewrite Hr.
  - (* the file ends before call j: all of it has been copied *)
    rewrite take_ge by done.
    assert (forall fuel k inp out,
              (forall i, (k <= i < j)%nat -> full_read o i /\ full_write o i) ->
              (k <= j)%nat -> (length inp <= (j - k) * LINE_SIZE)%nat ->
              (length inp < fuel)%nat ->
              copy_loop o fuel k inp out = Some (true, out ++ inp)) as Hgen.
    { clear - Hr. induction fuel as [|fuel IH]; intros k inp out Hfull Hk Hlen Hlt;
        [lia|].
      destruct (Nat.eq_dec k j) as [->|Hne].
      - cbn [copy_loop]. rewrite Hr. rewrite Nat.sub_diag in Hlen.
        destruct inp; [by rewrite app_nil_r | simpl in Hlen; lia].
      - destruct (Hfull k ltac:(lia)) as [Hrd Hw].
        destruct inp as [|b inp].
        + destruct Hrd as (n & Hrd & _).
          rewrite (copy_loop_eof _ _ _ n) by done. by rewrite app_nil_r.
        + rewrite copy_loop_step by done. rewrite IH.
          * by rewrite <- app_assoc, take_drop.
          * intros i Hi. apply Hfull. lia.
          * lia.
          * rewrite length_drop.
            replace (j - k)%nat with (S (j - S k)) in Hlen by lia.
            simpl in Hlen. unfold LINE_SIZE in *. simpl length in *. lia.
          * rewrite length_drop. unfold LINE_SIZE. simpl length in *. lia. }
    apply (Hgen fuel 0%nat inp []); [intros i Hi; apply Hfull; lia | lia | | done].
    rewrite Nat.sub_0_r. lia.
Qed.

Lemma write_data_inodes (o : os) (i : nat) (d : list Byte.byte) (f : file) :
  inodes o !! i = Some f ->
  inodes (write_data o i d) = <[i := mkFile (f_mode f) d]> (inodes o) /\
  entries (write_data o i d) = entries o /\
  locate (write_data o i d) = locate o.
Proof. intros H. unfold write_data. by rewrite H. Qed.

(** The shape of a run that got past the three system calls. *)
Lemma clicon_file_copy_run (o : os) (src target : string) (isrc : nat) (st : file) :
  stat o src = Some (isrc, st) ->
  can_read o src = true -> can_write o target = true ->
  exists it o1 md ok out,
    open_trunc o target (f_mode st) = (it, o1) /\
    copy_loop o (S (length (default [] (f_data <$> inodes o1 !! isrc)))) 0
      (default [] (f_data <$> inodes o1 !! isrc)) [] = Some (ok, out) /\
    clicon_file_copy o src target =
      ((if ok then 0 else -1), write_data o1 it out) /\
    inodes (write_data o1 it out) = <[it := mkFile md out]> (inodes o) /\
    entries (write_data o1 it out) = entries o1 /\
    locate (write_data o1 it out) = locate o.
Proof.
  intros Hst Hr Hw. unfold clicon_file_copy. rewrite Hst, Hr, Hw. cbn [negb].
  destruct (open_trunc o target (f_mode st)) as [it o1] eqn:Hop.
  pose proof (open_trunc_spec _ _ _ _ _ Hop) as (Hloc & Het & Heo & [md Hino] & _).
  set (inp := default [] (f_data <$> inodes o1 !! isrc)).
  pose proof (copy_loop_fuel o (S (length inp)) 0 inp [] ltac:(lia)) as Hfuel.
  destruct (copy_loop o (S (length inp)) 0 inp []) as [[ok out]|] eqn:Hloop;
    [|done].
  assert (inodes o1 !! it = Some (mkFile md [])) as Hit
    by (by rewrite Hino, lookup_insert_eq).
  destruct (write_data_inodes o1 it out _ Hit) as (Hwi & Hwe & Hwl).
  exists it, o1, md, ok, out. split; [done|]. split; [done|].
  split; [by destruct ok|].
  split; [by rewrite Hwi, Hino, insert_insert_eq|].
  split; [done|]. by rewrite Hwl.
Qed.

(** A run on two different files that got past the three system calls:
    the loop reads the source's bytes, the target ends up with what the
    loop wrote, and the source is as before. *)
Lemma clicon_file_copy_distinct (o : os) (src target : string) (isrc : nat)
    (st : file) :
  stat o src = Some (isrc, st) ->
  can_read o src = true -> can_write o target = true ->
  (forall f, stat o target <> Some (isrc, f)) ->
  exists ok out,
    copy_loop o (S (length (f_data st))) 0 (f_data st) [] = Some (ok, out) /\
    fst (clicon_file_copy o src target) = (if ok then 0 else -1) /\
    content (snd (clicon_file_copy o src target)) target = Some out /\
    content (snd (clicon_file_copy o src target)) src = Some (f_data st).
Proof.
  intros Hst Hr Hw Hdiff.
  destruct (clicon_file_copy_run o src target isrc st Hst Hr Hw)
    as (it & o1 & md & ok & out & Hop & Hloop & Hrun & Hino & Hent & Hloc).
  rewrite Hrun. cbn [fst snd].
  pose proof (open_trunc_spec _ _ _ _ _ Hop)
    as (_ & Het & Heo & [md1 Hino1] & Horigin).
  apply stat_Some in Hst. destruct Hst as [Hes His].
  assert (it <> isrc) as Hne.
  { intros ->. destruct Horigin as [(f & Hf & _)|[_ Hnone]];
      [by apply (Hdiff f) | congruence]. }
  assert (locate o src <> locate o target) as Hle.
  { intros Heq. destruct Horigin as [(f & Hf & _)|[Hnone _]].
    - apply stat_Some in Hf. destruct Hf as [Hf _]. congruence.
    - unfold stat in Hnone. rewrite <- Heq, Hes, His in Hnone. done. }
  assert (inodes o1 !! isrc = Some st) as His1
    by (by rewrite Hino1, lookup_insert_ne).
  rewrite His1 in Hloop. cbn [default fmap option_fmap option_map] in Hloop.
  exists ok, out. split; [done|]. split; [done|]. split.
  - apply (content_stat _ _ it (mkFile md out)). apply stat_Some.
    rewrite Hloc, Hent, Hino. split; [done|]. by rewrite lookup_insert_eq.
  - apply (content_stat _ _ isrc st). apply stat_Some.
    rewrite Hloc, Hent, Hino. split; [by rewrite Heo|].
    by rewrite lookup_insert_ne.
Qed.

(** C1, as stated, fails: with a 600-byte source, a 3-byte target and the
    second [write] failing, the call returns -1 and the target holds the
    first 512 bytes of the source instead of its own 3 bytes. *)
Lemma clicon_file_copy_not_atomic : ~ copy_is_atomic.
Proof.
  intros H. specialize (H (ex_os (Some 1%nat)) "src" "dst").
  vm_compute in H. destruct H as [_ H].
  assert (-1 <> 0) as Hne by lia. specialize (H Hne). discriminate H.
Qed.

(** C1, amended: the copy truncates the target when it opens it and then
    writes line by line.  (1) The result is 0 or -1.  (2) When the source
    cannot be examined or opened, or the target cannot be opened, the
    result is -1 and nothing has changed.  For a source and a target that
    are different files and past those calls: (3) when every read and
    every write transfers its whole request, the result is 0, the target's
    bytes are the source's and the source is as before; (4) when the write
    number [j] fails, the calls before it being complete, the result is
    -1 and the target holds exactly the [j] lines written before it, the
    source being as before. *)
Theorem clicon_file_copy_spec (o o' : os) (src target : string) (r : Z) :
  clicon_file_copy o src target = (r, o') ->
  (r = 0 \/ r = -1) /\
  (stat o src = None \/ can_read o src = false \/ can_write o target = false ->
     r = -1 /\ o' = o) /\
  (forall (isrc : nat) (st : file),
     stat o src = Some (isrc, st) ->
     can_read o src = true -> can_write o target = true ->
     (forall f, stat o target <> Some (isrc, f)) ->
     ((forall k, full_read o k /\ full_write o k) ->
        r = 0 /\ content o' target = Some (f_data st) /\
        content o' src = Some (f_data st)) /\
     (forall j n : nat,
        (forall k, (k < j)%nat -> full_read o k /\ full_write o k) ->
        read_result o j = IoCount n -> (1 <= n)%nat ->
        write_result o j = IoFail ->
        (j * LINE_SIZE < length (f_data st))%nat ->
        r = -1 /\
        content o' target = Some (take (j * LINE_SIZE) (f_data st)) /\
        content o' src = Some (f_data st))).
Proof.
  intros H. split; [|split].
  - unfold clicon_file_copy in H.
    destruct (stat o src) as [[isrc st]|]; [|inversion H; auto].
    destruct (can_read o src); [|inversion H; auto].
    destruct (can_write o target); [|inversion H; auto]. cbn [negb] in H.
    destruct (open_trunc o target (f_mode st)) as [it o1].
    destruct (copy_loop _ _ _ _ _) as [[[|] out]|]; inversion H; auto.
  - unfold clicon_file_copy in H. intros [Hs|[Hr|Hw]].
    + rewrite Hs in H. by inversion H.
    + destruct (stat o src) as [[isrc st]|]; [|by inversion H].
      rewrite Hr in H. by inversion H.
    + destruct (stat o src) as [[isrc st]|]; [|by inversion H].
      destruct (can_read o src); [|by inversion H].
      rewrite Hw in H. by inversion H.
  - intros isrc st Hst Hr Hw Hdiff.
    destruct (clicon_file_copy_distinct o src target isrc st Hst Hr Hw Hdiff)
      as (ok & out & Hloop & Hres & Ht & Hs).
    rewrite H in Hres, Ht, Hs. cbn [fst snd] in Hres, Ht, Hs. split.
    + intros Hfull.
      rewrite copy_loop_complete in Hloop by (intros; apply Hfull || lia).
      by inversion Hloop; subst ok out.
    + intros j n Hfull Hrd Hn Hwr Hlen.
      rewrite (copy_loop_write_fail o _ j n) in Hloop by (done || lia).
      by inversion Hloop; subst ok out.
Qed.

(** The amended statement at a run that succeeds, and at the failing run
    above. *)
Lemma clicon_file_copy_spec_witness :
  (content (snd (clicon_file_copy (ex_os None) "src" "dst")) "dst"
     = Some (ex_bytes 600)) /\
  (fst (clicon_file_copy (ex_os (Some 1%nat)) "src" "dst") = -1 /\
   content (snd (clicon_file_copy (ex_os (Some 1%nat)) "src" "dst")) "dst"
     = Some (take (1 * LINE_SIZE) (ex_bytes 600))).
Proof.
  split.
  - destruct (clicon_file_copy_spec (ex_os None)
               (snd (clicon_file_copy (ex_os None) "src" "dst"))
               "src" "dst"
               (fst (clicon_file_copy (ex_os None) "src" "dst")))
      as (_ & _ & Hrun); [by vm_compute|].
    destruct (Hrun 10%nat (mkFile 420 (ex_bytes 600))) as [Hok _];
      [by vm_compute | done | done | intros f; by vm_compute |].
    destruct Hok as (_ & Ht & _); [|exact Ht].
    intros k. split; exists LINE_SIZE; split; (reflexivity || lia).
  - destruct (clicon_file_copy_spec (ex_os (Some 1%nat))
               (snd (clicon_file_copy (ex_os (Some 1%nat)) "src" "dst"))
               "src" "dst"
               (fst (clicon_file_copy (ex_os (Some 1%nat)) "src" "dst")))
      as (_ & _ & Hrun); [by vm_compute|].
    destruct (Hrun 10%nat (mkFile 420 (ex_bytes 600))) as [_ Hko];
      [by vm_compute | done | done | intros f; by vm_compute |].
    destruct (Hko 1%nat LINE_SIZE) as (Hr & Ht & _).
    + intros k Hk. assert (k = 0%nat) as -> by lia.
      split; exists LINE_SIZE; split; (reflexivity || lia).
    + reflexivity.
    + unfold LINE_SIZE. lia.
    + reflexivity.
    + vm_compute. lia.
    + split; [exact Hr | exact Ht].
Defined.

(** Three runs the amended statement leaves aside.  A failing [read] ends
    the loop like the end of the file, so the call returns 0 with a target
    that holds the first line only.  The count [write] returns is not
    looked at, so after a short write the call returns 0 with a target that
    lacks the bytes not written.  And a file copied onto itself, here
    under another spelling of its path, is truncated before it is read, so
    the call returns 0 and the file is empty. *)
Example clicon_file_copy_read_error :
  fst (clicon_file_copy ex_os_read_fault "src" "dst") = 0 /\
  content (snd (clicon_file_copy ex_os_read_fault "src" "dst")) "dst"
    = Some (ex_bytes 512).
Proof. by vm_compute. Qed.

Example clicon_file_copy_short_write :
  fst (clicon_file_copy ex_os_short_write "src" "dst") = 0 /\
  content (snd (clicon_file_copy ex_os_short_write "src" "dst")) "dst"
    = Some (ex_bytes 188).
Proof. by vm_compute. Qed.

Example clicon_file_copy_onto_itself :
  fst (clicon_file_copy (ex_os None) "src" "./src") = 0 /\
  content (snd (clicon_file_copy (ex_os None) "src" "./src")) "src" = Some [].
Proof. by vm_compute. Qed.

(** A target that does not exist is created with the permission bits of
    the source less those of the umask, and then filled. *)
Example clicon_file_copy_creates_target :
  stat (ex_os None) "new" = None /\
  fst (clicon_file_copy (ex_os None) "src" "new") = 0 /\
  exists i,
    stat (snd (clicon_file_copy (ex_os None) "src" "new")) "new"
      = Some (i, mkFile (Z.land 420 (Z.lnot 18)) (ex_bytes 600)).
Proof.
  split; [by vm_compute|]. split; [by vm_compute|].
  eexists. vm_compute. reflexivity.
Qed.

(** *** Directory listing *)

Lemma dirent_keep_none (ds : dirsys) (re : option (string -> bool))
    (dir : string) (type : Z) (name : string) :
  dirent_keep ds re dir type name = None <->
  match re with Some m => m name = true | None => True end /\
  type <> 0 /\ lstat ds (dirent_filename ds dir name) = None.
Proof.
  unfold dirent_keep.
  destruct re as [m|]; [destruct (m name)|]; simpl;
    (destruct (Z.eqb_spec type 0) as [->|Hne];
     [|destruct (lstat ds _)]); split;
    try discriminate; try done;
    try (by intros (? & ? & ?)).
Qed.

Lemma dirent_loop_error (lc : libc) (ds : dirsys) (re : option (string -> bool))
    (dir : string) (type : Z) (names : list string)
    (ent : option clicon_file_list) (nent : Z) :
  0 <= nent ->
  (fst (dirent_loop lc ds re dir type names ent nent) = -1 <->
   exists name, In name names /\ dirent_keep ds re dir type name = None) /\
  (fst (dirent_loop lc ds re dir type names ent nent) = -1 \/
   nent <= fst (dirent_loop lc ds re dir type names ent nent)).
Proof.
  revert ent nent.
  induction names as [|name rest IH]; intros ent nent Hn; simpl.
  - split; [|right; lia]. split; [lia|]. by intros (? & [] & _).
  - destruct (dirent_keep ds re dir type name) as [[|]|] eqn:Hk; simpl.
    + destruct (IH (Some (clicon_file_list_add lc
                     match ent with None => clicon_file_list_init
                                  | Some l => l end name)) (nent + 1))
        as [Hiff Hge]; [lia|].
      split; [|destruct Hge; [by left | right; lia]].
      rewrite Hiff. split.
      * intros (n & Hin & Hnone). exists n. split; [by right|done].
      * intros (n & [<-|Hin] & Hnone); [congruence|]. by exists n.
    + destruct (IH ent nent Hn) as [Hiff Hge]. split; [|done].
      rewrite Hiff. split.
      * intros (n & Hin & Hnone). exists n. split; [by right|done].
      * intros (n & [<-|Hin] & Hnone); [congruence|]. by exists n.
    + split; [|by left]. split; [|done].
      intros _. exists name. split; [by left|done].
Qed.

Lemma dirent_keep_counted (ds : dirsys) (re : option (string -> bool))
    (dir : string) (type : Z) (name : string) (b : bool) :
  dirent_keep ds re dir type name = Some b ->
  dirent_counted ds re dir type name = b.
Proof.
  unfold dirent_keep, dirent_counted, regexp_passes.
  destruct re as [m|]; simpl.
  - destruct (m name); simpl; [|congruence].
    destruct (type =? 0); [congruence|].
    destruct (lstat ds _); [congruence|discriminate].
  - destruct (type =? 0); [congruence|].
    destruct (lstat ds _); [congruence|discriminate].
Qed.

(** While no [lstat] fails, [nent] grows by one for each counted entry. *)
Lemma dirent_loop_count (lc : libc) (ds : dirsys)
    (re : option (string -> bool)) (dir : string) (type : Z)
    (names : list string) (ent : option clicon_file_list) (nent : Z) :
  (forall name, In name names -> dirent_keep ds re dir type name <> None) ->
  fst (dirent_loop lc ds re dir type names ent nent) =
    nent + Z.of_nat (length (List.filter (dirent_counted ds re dir type) names)).
Proof.
  revert ent nent.
  induction names as [|name rest IH]; intros ent nent Hok; simpl; [lia|].
  assert (forall n, In n rest -> dirent_keep ds re dir type n <> None) as Hok'
    by (intros n Hn; apply Hok; by right).
  destruct (dirent_keep ds re dir type name) as [[|]|] eqn:Hk.
  - rewrite (dirent_keep_counted _ _ _ _ _ _ Hk), IH by done. simpl length. lia.
  - rewrite (dirent_keep_counted _ _ _ _ _ _ Hk). by apply IH.
  - exfalso. eapply Hok; [by left | done].
Qed.

Lemma lstat_asked_spec (re : option (string -> bool)) (type : Z)
    (name : string) :
  lstat_asked re type name = true <->
  match re with Some m => m name = true | None => True end /\ type <> 0.
Proof.
  unfold lstat_asked, regexp_passes. rewrite andb_true_iff, negb_true_iff.
  rewrite Z.eqb_neq. destruct re as [m|]; [done|]. tauto.
Qed.

(** C7, as stated, fails: where [lstat] fails on an entry the return value
    is -1, which is the number of no entries, whatever "the type matches
    the mask" is taken to mean. *)
Lemma clicon_file_dirent_not_as_claimed :
  ~ exists type_matches, dirent_count_as_claimed type_matches.
Proof.
  intros [tm H].
  specialize (H ex_libc (ex_dirsys_gone ["a.so"; "gone"]) "/etc/plugins"
                None S_IFREG None ["a.so"; "gone"] eq_refl eq_refl).
  assert (fst (clicon_file_dirent ex_libc (ex_dirsys_gone ["a.so"; "gone"])
                 "/etc/plugins" None S_IFREG) = -1) as Hr by reflexivity.
  rewrite Hr in H. lia.
Qed.

(** C7, amended to the return value.  [clicon_file_dirent] returns
    - -1 when the regexp does not compile;
    - 0 when the directory does not exist, -1 when it cannot be opened for
      another reason;
    - for a directory that opens: the number of entries that pass the
      regexp and, with a mask other than 0, whose [st_mode] has a bit of
      the mask, provided [lstat] succeeds on every entry it is called on;
      and -1 when [lstat] fails on one of them.
    A directory that yields the same entries in another order gives the
    same number. *)
Theorem clicon_file_dirent_count (lc : libc) (ds : dirsys) (dir : string)
    (regexp : option string) (type : Z) :
  let r := fst (clicon_file_dirent lc ds dir regexp type) in
  (regexp_compile lc regexp = None -> r = -1) /\
  (forall re, regexp_compile lc regexp = Some re ->
     (opendir ds dir = DirNoEnt -> r = 0) /\
     (opendir ds dir = DirErr -> r = -1) /\
     (forall names, opendir ds dir = DirOpen names ->
        ((forall name, In name names -> lstat_asked re type name = true ->
            lstat ds (dirent_filename ds dir name) <> None) ->
         r = Z.of_nat (length
               (List.filter (dirent_counted ds re dir type) names)) /\
         forall names', Permutation names names' ->
           fst (clicon_file_dirent lc
                  (mkDirsys (fun _ => DirOpen names') (lstat ds) (MAXPATHLEN ds))
                  dir regexp type) = r) /\
        ((exists name, In name names /\ lstat_asked re type name = true /\
            lstat ds (dirent_filename ds dir name) = None) ->
         r = -1))).
Proof.
  unfold clicon_file_dirent. cbv zeta. split.
  { by intros ->. }
  intros re ->. split; [by intros ->|]. split; [by intros ->|].
  intros names ->. split.
  - intros Hok.
    assert (forall name, In name names ->
              dirent_keep ds re dir type name <> None) as Hkeep.
    { intros name Hin Hnone. apply dirent_keep_none in Hnone.
      destruct Hnone as (Hre & Hty & Hls).
      apply (Hok name Hin); [|done]. by apply lstat_asked_spec. }
    rewrite dirent_loop_count by done. split; [lia|].
    intros names' Hperm.
    set (ds' := mkDirsys (fun _ => DirOpen names') (lstat ds) (MAXPATHLEN ds)).
    cbn [opendir ds'].
    assert (forall n, dirent_keep ds' re dir type n = dirent_keep ds re dir type n)
      as Hk' by done.
    rewrite dirent_loop_count.
    2:{ intros n Hn. rewrite Hk'. apply Hkeep.
        eapply Permutation_in; [apply Permutation_sym; exact Hperm | exact Hn]. }
    change (dirent_counted ds' re dir type)
      with (dirent_counted ds re dir type).
    f_equal. f_equal. apply Permutation_length, Permutation_sym.
    clear -Hperm.
    induction Hperm as [|x l l' _ IH|x y l|l l' l'' _ IH1 _ IH2]; simpl.
    + done.
    + destruct (dirent_counted ds re dir type x); [by apply perm_skip|done].
    + destruct (dirent_counted ds re dir type x),
               (dirent_counted ds re dir type y); try done. apply perm_swap.
    + eapply Permutation_trans; eassumption.
  - intros (name & Hin & Hasked & Hls).
    apply (dirent_loop_error lc ds re dir type names None 0); [lia|].
    exists name. split; [done|]. apply dirent_keep_none.
    apply lstat_asked_spec in Hasked. tauto.
Qed.

(** A plugin directory with a subdirectory and a name the regexp rejects,
    and the same directory with an entry on which [lstat] fails. *)
Lemma clicon_file_dirent_count_witness :
  fst (clicon_file_dirent ex_libc (ex_dirsys ["b.so"; "dir"; "skip"; "a.so"])
         "/etc/plugins" (Some "so") S_IFREG) = 2 /\
  fst (clicon_file_dirent ex_libc (ex_dirsys_gone ["b.so"; "gone"; "a.so"])
         "/etc/plugins" (Some "so") S_IFREG) = -1.
Proof.
  split.
  - destruct (clicon_file_dirent_count ex_libc
                (ex_dirsys ["b.so"; "dir"; "skip"; "a.so"]) "/etc/plugins"
                (Some "so") S_IFREG) as [_ H].
    destruct (H (Some (fun name => negb (String.eqb name "skip"))) eq_refl)
      as (_ & _ & Hopen).
    destruct (Hopen ["b.so"; "dir"; "skip"; "a.so"] eq_refl) as [Hcount _].
    destruct Hcount as [Hcount _]; [|exact Hcount].
    intros name Hin _. simpl in Hin.
    destruct Hin as [<-|[<-|[<-|[<-|[]]]]]; vm_compute; discriminate.
  - destruct (clicon_file_dirent_count ex_libc
                (ex_dirsys_gone ["b.so"; "gone"; "a.so"]) "/etc/plugins"
                (Some "so") S_IFREG) as [_ H].
    destruct (H (Some (fun name => negb (String.eqb name "skip"))) eq_refl)
      as (_ & _ & Hopen).
    destruct (Hopen ["b.so"; "gone"; "a.so"] eq_refl) as [_ Herr].
    apply Herr. exists "gone". split; [simpl; tauto|]. by split.
Defined.

(** The test of the mask is a test of bits: under the mask [S_IFREG] a
    symbolic link is counted with the regular files, since [S_IFLNK] has
    the bit of [S_IFREG]. *)
Example clicon_file_dirent_counts_symlink :
  Z.land S_IFLNK S_IFREG = S_IFREG /\
  lstat ex_dirsys_link "/etc/plugins/link.so" = Some (Z.lor S_IFLNK 511) /\
  fst (clicon_file_dirent ex_libc ex_dirsys_link "/etc/plugins" None S_IFREG)
    = 2.
Proof. by vm_compute. Qed.

(** *** The copy: what it leaves alone, and two runs that report success *)

(** Whatever its outcome, [clicon_file_copy] changes no file other than
    the target's.  Paths lead where they led; no directory entry other
    than the target's changes; every inode other than the one the target
    names afterwards is as before; so every path that does not lead to the
    target's file afterwards names the file it named, with the same mode
    and bytes. *)
Theorem clicon_file_copy_frame (o o' : os) (src target : string) (r : Z) :
  clicon_file_copy o src target = (r, o') ->
  locate o' = locate o /\
  (forall e, e <> locate o target -> entries o' !! e = entries o !! e) /\
  (forall i, (forall f, stat o' target <> Some (i, f)) ->
     inodes o' !! i = inodes o !! i) /\
  (forall p, (forall i f g, stat o' p = Some (i, f) ->
                            stat o' target <> Some (i, g)) ->
     stat o' p = stat o p).
Proof.
  intros H.
  assert (o' = o \/
          exists isrc st, stat o src = Some (isrc, st) /\
            can_read o src = true /\ can_write o target = true) as [->|Hrun].
  { unfold clicon_file_copy in H.
    destruct (stat o src) as [[isrc st]|]; [|left; by inversion H].
    destruct (can_read o src); [|left; by inversion H].
    destruct (can_write o target); [|left; by inversion H].
    right. by exists isrc, st. }
  { done. }
  destruct Hrun as (isrc & st & Hst & Hr & Hw).
  destruct (clicon_file_copy_run o src target isrc st Hst Hr Hw)
    as (it & o1 & md & ok & out & Hop & _ & Hrun & Hino & Hent & Hloc).
  rewrite Hrun in H. inversion H; subst r o'. clear H.
  pose proof (open_trunc_spec _ _ _ _ _ Hop) as (_ & Het & Heo & _ & _).
  assert (stat (write_data o1 it out) target = Some (it, mkFile md out)) as Htgt.
  { apply stat_Some. rewrite Hloc, Hent, Hino. split; [done|].
    by rewrite lookup_insert_eq. }
  split; [done|]. split; [by rewrite Hent|]. split.
  - intros i Hi. rewrite Hino. apply lookup_insert_ne.
    intros <-. by apply (Hi (mkFile md out)).
  - intros p Hp. unfold stat at 1 2. rewrite Hloc, Hent, Hino.
    destruct (decide (locate o p = locate o target)) as [Heq|Hne].
    + exfalso. apply (Hp it (mkFile md out) (mkFile md out)); [|done].
      apply stat_Some. rewrite Hloc, Hent, Hino, Heq. split; [done|].
      by rewrite lookup_insert_eq.
    + rewrite Heo by done.
      destruct (entries o !! locate o p) as [i|] eqn:Hi; [|done].
      destruct (decide (i = it)) as [->|Hne'].
      * exfalso. apply (Hp it (mkFile md out) (mkFile md out)); [|done].
        apply stat_Some. rewrite Hloc, Hent, Hino, Heo, Hi by done.
        split; [done|]. by rewrite lookup_insert_eq.
      * by rewrite lookup_insert_ne.
Qed.

Lemma clicon_file_copy_frame_witness :
  stat (snd (clicon_file_copy (ex_os (Some 1%nat)) "src" "dst")) "src"
    = stat (ex_os (Some 1%nat)) "src".
Proof.
  destruct (clicon_file_copy_frame (ex_os (Some 1%nat))
              (snd (clicon_file_copy (ex_os (Some 1%nat)) "src" "dst"))
              "src" "dst"
              (fst (clicon_file_copy (ex_os (Some 1%nat)) "src" "dst")))
    as (_ & _ & _ & Hp); [by vm_compute|].
  apply Hp. intros i f g Hs Ht.
  vm_compute in Hs. vm_compute in Ht. congruence.
Defined.

(** Copying a file onto itself, under the same path or under another path
    that leads to the same file, returns 0 and leaves the file empty with
    its mode unchanged: the target is truncated by its [open] before the
    first [read], so the loop sees an empty source. *)
Theorem clicon_file_copy_self_truncates (o : os) (src target : string)
    (i : nat) (st : file) :
  stat o src = Some (i, st) -> stat o target = Some (i, st) ->
  can_read o src = true -> can_write o target = true ->
  clicon_file_copy o src target =
    (0, set_inodes o (<[i := mkFile (f_mode st) []]> (inodes o))).
Proof.
  intros Hsrc Htgt Hr Hw. unfold clicon_file_copy, open_trunc.
  rewrite Hsrc, Htgt, Hr, Hw. cbn [negb inodes set_inodes].
  rewrite lookup_insert_eq. cbn [default fmap option_fmap option_map f_data
                                  length copy_loop].
  assert (write_data (set_inodes o (<[i := mkFile (f_mode st) []]> (inodes o)))
            i [] = set_inodes o (<[i := mkFile (f_mode st) []]> (inodes o)))
    as Hwd.
  { unfold write_data. cbn [inodes set_inodes]. rewrite lookup_insert_eq.
    unfold set_inodes. cbn. by rewrite insert_insert_eq. }
  destruct (read_result o 0) as [|n]; [by rewrite Hwd|].
  unfold id. rewrite take_nil. cbn [length Nat.eqb]. by rewrite Hwd.
Qed.

Lemma clicon_file_copy_self_truncates_witness :
  clicon_file_copy (ex_os None) "src" "./src" =
    (0, set_inodes (ex_os None)
          (<[10%nat := mkFile 420 []]> (inodes (ex_os None)))).
Proof.
  apply (clicon_file_copy_self_truncates (ex_os None) "src" "./src" 10%nat
           (mkFile 420 (ex_bytes 600))); reflexivity.
Defined.

(** A [read] that fails is not reported: when the [read] number [j]
    (from 0) returns -1, the reads and writes before it being complete and
    source and target being different files, the call returns 0 and the
    target holds the first [j] lines of the source only. *)
Theorem clicon_file_copy_read_fault_truncates
    (o : os) (src target : string) (isrc : nat) (st : file) (j : nat) :
  stat o src = Some (isrc, st) ->
  can_read o src = true -> can_write o target = true ->
  (forall f, stat o target <> Some (isrc, f)) ->
  (forall k, (k < j)%nat -> full_read o k /\ full_write o k) ->
  read_result o j = IoFail ->
  fst (clicon_file_copy o src target) = 0 /\
  content (snd (clicon_file_copy o src target)) target
    = Some (take (j * LINE_SIZE) (f_data st)).
Proof.
  intros Hst Hr Hw Hdiff Hfull Hrd.
  destruct (clicon_file_copy_distinct o src target isrc st Hst Hr Hw Hdiff)
    as (ok & out & Hloop & Hres & Ht & _).
  rewrite (copy_loop_read_fail o _ j) in Hloop by (done || lia).
  by inversion Hloop; subst ok out.
Qed.

Lemma clicon_file_copy_read_fault_truncates_witness :
  fst (clicon_file_copy ex_os_read_fault "src" "dst") = 0 /\
  content (snd (clicon_file_copy ex_os_read_fault "src" "dst")) "dst"
    = Some (take (1 * LINE_SIZE) (ex_bytes 600)).
Proof.
  apply (clicon_file_copy_read_fault_truncates ex_os_read_fault "src" "dst"
           10%nat (mkFile 420 (ex_bytes 600)) 1%nat);
    try reflexivity.
  - intros f. by vm_compute.
  - intros k Hk. assert (k = 0%nat) as -> by lia.
    split; exists LINE_SIZE; split; (reflexivity || lia).
Defined.

(** *** The listing: errors, use of [lstat] *)

(** [clicon_file_dirent] returns -1 or a count that is not negative, and
    it returns -1 in exactly three cases: the regexp does not compile; the
    directory cannot be opened for a reason other than its absence; or a
    type mask is given and [lstat] fails on an entry that passed the
    regexp.  A directory that does not exist is not an error. *)
Theorem clicon_file_dirent_error_iff (lc : libc) (ds : dirsys) (dir : string)
    (regexp : option string) (type : Z) :
  (fst (clicon_file_dirent lc ds dir regexp type) = -1 \/
   0 <= fst (clicon_file_dirent lc ds dir regexp type)) /\
  (fst (clicon_file_dirent lc ds dir regexp type) = -1 <->
   regexp_compile lc regexp = None \/
   exists re, regexp_compile lc regexp = Some re /\
     (opendir ds dir = DirErr \/
      exists names name,
        opendir ds dir = DirOpen names /\ In name names /\
        match re with Some m => m name = true | None => True end /\
        type <> 0 /\ lstat ds (dirent_filename ds dir name) = None)).
Proof.
  unfold clicon_file_dirent.
  destruct (regexp_compile lc regexp) as [re|]; simpl.
  2:{ split; [by left|]. split; [by left|done]. }
  destruct (opendir ds dir) as [| |names] eqn:Hdir; simpl.
  - split; [right; lia|]. split; [lia|].
    intros [?|(re' & _ & [?|(? & ? & ? & _)])]; discriminate.
  - split; [by left|]. split; [|done].
    intros _. right. exists re. split; [done|by left].
  - destruct (dirent_loop_error lc ds re dir type names None 0) as [Hiff Hge];
      [lia|].
    split; [done|]. rewrite Hiff. split.
    + intros (name & Hin & Hnone). apply dirent_keep_none in Hnone.
      right. exists re. split; [done|]. right. by exists names, name.
    + intros [?|(re' & Hre & [?|(names' & name & Hn & Hin & Hnone)])];
        try discriminate.
      inversion Hre; subst re'. inversion Hn; subst names'.
      exists name. split; [done|]. by apply dirent_keep_none.
Qed.

Lemma dirent_loop_lstat_ext (lc : libc) (ds ds' : dirsys)
    (re : option (string -> bool)) (dir : string) (type : Z)
    (names : list string) (ent : option clicon_file_list) (nent : Z) :
  (forall name, dirent_keep ds re dir type name
                = dirent_keep ds' re dir type name) ->
  dirent_loop lc ds re dir type names ent nent
  = dirent_loop lc ds' re dir type names ent nent.
Proof.
  intros Hk. revert ent nent.
  induction names as [|name rest IH]; intros ent nent; simpl; [done|].
  rewrite <- Hk. destruct (dirent_keep ds re dir type name) as [[|]|]; auto.
Qed.

(** [clicon_file_dirent] consults [lstat] only for entries that pass the
    regexp, and not at all without a type mask: two systems that show the
    same directory and agree on [lstat] for those entries give the same
    return value and the same list, however they differ elsewhere. *)
Theorem clicon_file_dirent_lstat_scope (lc : libc) (ds ds' : dirsys)
    (dir : string) (regexp : option string) (type : Z) :
  opendir ds dir = opendir ds' dir ->
  (forall re name,
     regexp_compile lc regexp = Some re ->
     match re with Some m => m name = true | None => True end ->
     type <> 0 ->
     lstat ds (dirent_filename ds dir name)
     = lstat ds' (dirent_filename ds' dir name)) ->
  clicon_file_dirent lc ds dir regexp type
  = clicon_file_dirent lc ds' dir regexp type.
Proof.
  intros Hdir Hst. unfold clicon_file_dirent. rewrite <- Hdir.
  destruct (regexp_compile lc regexp) as [re|] eqn:Hre; [|done].
  destruct (opendir ds dir) as [| |names]; [done|done|].
  apply dirent_loop_lstat_ext. intros name. unfold dirent_keep.
  destruct (match re with Some m => negb (m name) | None => false end) eqn:Em;
    [done|].
  destruct (Z.eqb_spec type 0) as [|Hne]; [done|].
  rewrite (Hst re name eq_refl); [done| |done].
  destruct re as [m|]; [|done]. by destruct (m name).
Qed.

Lemma clicon_file_dirent_lstat_scope_witness :
  clicon_file_dirent ex_libc (ex_dirsys ["b.so"; "skip"; "a.so"])
    "/etc/plugins" (Some "so") 0
  = clicon_file_dirent ex_libc (ex_dirsys_nostat ["b.so"; "skip"; "a.so"])
    "/etc/plugins" (Some "so") 0.
Proof.
  apply clicon_file_dirent_lstat_scope; [reflexivity|].
  intros re name _ _ Hne. by destruct Hne.
Defined.

End FileSpec.

(* ===================================================================== *)
(** ** Properties of apps/backend/backend_startup.c *)
(* ===================================================================== *)
Module BackendSpec.
Import Xml Backend.

(** Induction on trees, with the hypothesis for every child. *)
Lemma cxobj_ind' (P : cxobj -> Prop) :
  (forall n cs, Forall P cs -> P (CxElmnt n cs)) ->
  (forall v, P (CxBody v)) ->
  forall x, P x.
Proof.
  intros He Hb. fix IH 1. intros [n cs|v]; [|apply Hb].
  apply He. induction cs as [|c cs IHcs]; constructor; [apply IH | exact IHcs].
Qed.

Lemma cxobj_eqb_eq (a b : cxobj) : cxobj_eqb a b = true -> a = b.
Proof.
  revert b. induction a as [n cs IH|v] using cxobj_ind'; intros [n' cs'|v'];
    simpl; try discriminate.
  - intros H. apply andb_true_iff in H. destruct H as [Hn Hcs].
    apply String.eqb_eq in Hn. subst n'. f_equal.
    revert cs' Hcs. induction IH as [|c cs Hc _ IHcs]; intros [|c' cs'] Hcs;
      try discriminate; [done|].
    apply andb_true_iff in Hcs. destruct Hcs as [H1 H2].
    f_equal; [by apply Hc | by apply IHcs].
  - intros H. apply String.eqb_eq in H. by subst.
Qed.

(** The events of one callback phase are plugin events. *)
Lemma fire_events ph sel ps src tgt done ok done' evs :
  fire ph sel ps src tgt done = (ok, done', evs) -> Forall txe_event evs.
Proof.
  revert done ok done' evs.
  induction ps as [|p ps IH]; intros done ok done' evs H; simpl in H.
  - by inversion H.
  - destruct (sel p) as [cb|]; [|by eapply IH].
    destruct (cb src tgt).
    + destruct (fire ph sel ps src tgt (p :: done)) as [[ok1 d1] e1] eqn:E.
      inversion H; subst. constructor; [done|]. by eapply IH.
    + inversion H; subst. by repeat constructor.
Qed.

Lemma rollback_events_txe (done : list plugin) :
  Forall txe_event (rollback_events done).
Proof.
  unfold rollback_events. induction done as [|p done IH]; simpl; [constructor|].
  destruct (ca_rollback p); simpl; [by constructor | done].
Qed.

(** What a transaction does to the world: it adds transaction events and
    then its own return; with result 1 running has the source's content,
    otherwise the datastore is as before; nothing else changes. *)
Lemma txe_commit_spec (e : env) (c : call) (source : string) (w w' : world) (r : Z) :
  txe_commit e c source w = (r, w') ->
  exists evs,
    trace w' = trace w ++ evs ++ [Ev_call c r] /\
    Forall txe_event evs /\
    (r = 1 \/ r = 0 \/ r = -1) /\
    (r = 1 ->
       exists src, dbs w !! source = Some src /\
         (dbs w' = <["running" := src]> (dbs w) \/
          (dbs w' = dbs w /\ db_content (dbs w) "running" = src))) /\
    (r <> 1 -> dbs w' = dbs w).
Proof.
  unfold txe_commit, bind, ret, emit, emit_all, set_dbs, set_errno,
    set_cbret, get_dbs. intros H.
  destruct (fault e c).
  { inversion H; subst; simpl. exists []. repeat split; auto; lia. }
  destruct (dbs w !! source) as [src|] eqn:Hsrc.
  2:{ inversion H; subst; simpl. exists []. repeat split; auto; lia. }
  destruct (cxobj_eqb src (db_content (dbs w) "running")) eqn:Heqb.
  { inversion H; subst; simpl. exists []. repeat split; auto; try lia.
    intros _. exists src. split; [done|]. right. split; [done|].
    symmetry. by apply cxobj_eqb_eq. }
  destruct (fire PH_prevalidate _ _ _ _ _) as [[ok1 d1] ev1] eqn:F1.
  apply fire_events in F1. simpl in H.
  destruct ok1; simpl in H.
  2:{ inversion H; subst; simpl. exists ev1.
      rewrite <- app_assoc. repeat split; auto; lia. }
  destruct (validator e src).
  { inversion H; subst; simpl. exists (ev1 ++ [Ev_validator source]).
    rewrite <- !app_assoc. repeat split; auto; try lia.
    apply Forall_app; split; [done|]. by repeat constructor. }
  destruct (fire PH_validate _ _ _ _ _) as [[ok2 d2] ev2] eqn:F2.
  apply fire_events in F2. simpl in H.
  destruct ok2; simpl in H.
  2:{ inversion H; subst; simpl. exists (ev1 ++ [Ev_validator source] ++ ev2).
      rewrite <- !app_assoc. repeat split; auto; try lia.
      repeat (apply Forall_app; split); try done. by repeat constructor. }
  destruct (fire PH_commit _ _ _ _ _) as [[ok3 d3] ev3] eqn:F3.
  apply fire_events in F3. simpl in H.
  destruct ok3; simpl in H.
  2:{ inversion H; subst; simpl.
      exists (ev1 ++ [Ev_validator source] ++ ev2 ++ ev3 ++ rollback_events d3).
      rewrite <- !app_assoc. repeat split; auto; try lia.
      repeat (apply Forall_app; split); try done;
        [by repeat constructor | apply rollback_events_txe]. }
  destruct (fault e (C_xmldb_copy source "running")).
  { inversion H; subst; simpl.
    exists (ev1 ++ [Ev_validator source] ++ ev2 ++ ev3 ++ rollback_events d3).
    rewrite <- !app_assoc. repeat split; auto; try lia.
    repeat (apply Forall_app; split); try done;
      [by repeat constructor | apply rollback_events_txe]. }
  destruct (fire PH_commit_done _ _ _ _ _) as [[ok4 d4] ev4] eqn:F4.
  apply fire_events in F4. simpl in H.
  inversion H; subst; simpl.
  exists (ev1 ++ [Ev_validator source] ++ ev2 ++ ev3 ++ ev4).
  rewrite <- !app_assoc. repeat split; auto; try lia.
  - repeat (apply Forall_app; split); try done. by repeat constructor.
  - intros _. exists src. split; [done|]. by left.
Qed.

Lemma new_events_app (w w' : world) (t : list event) :
  trace w' = trace w ++ t -> new_events w w' = t.
Proof. intros H. unfold new_events. rewrite H. apply drop_app_length. Qed.

(** Unfolds the state passing and the datastore calls. *)
Ltac run_in H :=
  unfold cbuf_new, xmldb_exists, xmldb_create, xmldb_copy, xmldb_db_reset,
    xmldb_delete, xmldb_get, xmldb_get0, xmldb_read, xmldb_put, call_ds,
    clicon_err, clicon_log, bind, ret, emit, emit_all, set_dbs, set_errno,
    set_cbret, get_dbs, get_errno, get_cbret in H; simpl in H.

Ltac new_events_eq :=
  erewrite new_events_app by (simpl; rewrite <- ?app_assoc; reflexivity).

#[local] Arguments candidate_commit : simpl never.
#[local] Arguments startup_commit : simpl never.
#[local] Arguments txe_commit : simpl never.

(** The runs of [startup_failsafe]: either the commit of failsafe is never
    called and the result is -1, or running was copied to tmp and reset,
    the commit ran from that state, and then either it returned 1 and the
    result is 0, or the copy of tmp back to running was called and the
    result is -1. *)
Lemma startup_failsafe_runs (e : env) (w w' : world) (r : Z) :
  startup_failsafe e w = (r, w') ->
  (r = -1 /\
   forall rc, ~ In (Ev_call (C_candidate_commit "failsafe") rc) (new_events w w')) \/
  (exists run0 fs w3 w4 rc post,
     dbs w !! "running" = Some run0 /\ dbs w !! "failsafe" = Some fs /\
     dbs w3 = <["running" := empty_config]> (<["tmp" := run0]> (dbs w)) /\
     candidate_commit e "failsafe" w3 = (rc, w4) /\
     trace w3 = trace w ++
       [Ev_call C_cbuf_new 0; Ev_call (C_xmldb_exists "failsafe") 1;
        Ev_call (C_xmldb_copy "running" "tmp") 0;
        Ev_call (C_xmldb_db_reset "running") 0] /\
     trace w' = trace w4 ++ post /\
     ((rc = 1 /\ r = 0 /\ dbs w' = dbs w4 /\
       post = [Ev_log "Startup failed, Failsafe database loaded "]) \/
      (rc <> 1 /\ r = -1 /\
       exists cr t', post = Ev_call (C_xmldb_copy "tmp" "running") cr :: t' /\
         Forall (fun ev => ~ is_call ev) t' /\
         (cr = 0 -> dbs w' = <["running" := run0]> (dbs w4)) /\
         (cr = 0 <-> fault e (C_xmldb_copy "tmp" "running") = None) /\
         (cr <> 0 -> cr = -1 /\ dbs w' = dbs w4 /\ dbs w4 = dbs w3)))).
Proof.
  intros H. unfold startup_failsafe in H. run_in H. unfold db_present in H.
  destruct (fault e C_cbuf_new); simpl in H.
  { left. inversion H; subst. split; [done|]. intros rc. new_events_eq.
    simpl. intuition discriminate. }
  destruct (fault e (C_xmldb_exists "failsafe")); simpl in H.
  { left. inversion H; subst. split; [done|]. intros rc. new_events_eq.
    simpl. intuition discriminate. }
  destruct (dbs w !! "failsafe") as [fs|] eqn:Hfs; simpl in H.
  2:{ left. inversion H; subst. split; [done|]. intros rc. new_events_eq.
      simpl. intuition discriminate. }
  destruct (fault e (C_xmldb_copy "running" "tmp")); simpl in H.
  { left. inversion H; subst. split; [done|]. intros rc. new_events_eq.
    simpl. intuition discriminate. }
  destruct (dbs w !! "running") as [run0|] eqn:Hrun; simpl in H.
  2:{ left. inversion H; subst. split; [done|]. intros rc. new_events_eq.
      simpl. intuition discriminate. }
  destruct (fault e (C_xmldb_db_reset "running")); simpl in H.
  { left. inversion H; subst. split; [done|]. intros rc. new_events_eq.
    simpl. intuition discriminate. }
  match type of H with
  | (let '(_, _) := candidate_commit e "failsafe" ?x in _) = _ =>
      set (w3 := x) in *
  end.
  destruct (candidate_commit e "failsafe" w3) as [rc w4] eqn:Hc.
  right. exists run0, fs, w3, w4, rc.
  pose proof (txe_commit_spec _ _ _ _ _ _ Hc) as (evs & Ht4 & _ & Hrc & _ & Hne).
  destruct (rc =? 1) eqn:E1; simpl in H.
  - apply Z.eqb_eq in E1. subst rc. simpl in H. inversion H; subst; simpl.
    eexists. repeat split; try done.
    + subst w3. simpl. by rewrite <- !app_assoc.
    + left. done.
  - apply Z.eqb_neq in E1. specialize (Hne E1).
    assert (dbs w4 !! "tmp" = Some run0) as Htmp.
    { rewrite Hne. subst w3. simpl.
      rewrite lookup_insert_ne by done. by rewrite lookup_insert_eq. }
    destruct (fault e (C_xmldb_copy "tmp" "running")) eqn:Hf; simpl in H.
    + inversion H; subst; simpl. eexists. repeat split; try done.
      { subst w3. simpl. by rewrite <- !app_assoc. }
      right. split; [done|]. split; [done|].
      exists (-1), []. split; [done|]. split; [constructor|].
      split; [lia|]. split; [split; [lia|discriminate]|]. intros _.
      split; [done|]. split; [done|]. by apply Hne.
    + rewrite Htmp in H. simpl in H.
      assert (trace w3 = trace w ++
        [Ev_call C_cbuf_new 0; Ev_call (C_xmldb_exists "failsafe") 1;
         Ev_call (C_xmldb_copy "running" "tmp") 0;
         Ev_call (C_xmldb_db_reset "running") 0]) as Ht3
        by (subst w3; simpl; by rewrite <- !app_assoc).
      destruct Hrc as [->|[->| ->]]; [done| |]; simpl in H;
        inversion H; subst r w'; simpl.
      * exists [Ev_call (C_xmldb_copy "tmp" "running") 0;
                Ev_err OE_DB ("Startup failed, Failsafe database validation failed "
                              +:+ cbret w4)].
        split; [done|]. split; [done|]. split; [done|]. split; [done|].
        split; [done|]. split; [by rewrite <- app_assoc|].
        right. split; [done|]. split; [done|]. eexists 0, _.
        split; [reflexivity|]. split; [repeat constructor; simpl; tauto|].
        split; [done|]. split; [done|]. lia.
      * exists [Ev_call (C_xmldb_copy "tmp" "running") 0].
        split; [done|]. split; [done|]. split; [done|]. split; [done|].
        split; [done|]. split; [done|].
        right. split; [done|]. split; [done|]. eexists 0, [].
        split; [reflexivity|]. split; [constructor|].
        split; [done|]. split; [done|]. lia.
Qed.

(** In a run that reached the commit, the new events are the four calls
    before it, the transaction's events, its return, and what follows. *)
Lemma startup_failsafe_trace (e : env) (w w3 w4 w' : world) (rc : Z)
    (post : list event) :
  candidate_commit e "failsafe" w3 = (rc, w4) ->
  trace w3 = trace w ++
    [Ev_call C_cbuf_new 0; Ev_call (C_xmldb_exists "failsafe") 1;
     Ev_call (C_xmldb_copy "running" "tmp") 0;
     Ev_call (C_xmldb_db_reset "running") 0] ->
  trace w' = trace w4 ++ post ->
  exists evs, Forall txe_event evs /\
    new_events w w' =
      ([Ev_call C_cbuf_new 0; Ev_call (C_xmldb_exists "failsafe") 1;
        Ev_call (C_xmldb_copy "running" "tmp") 0;
        Ev_call (C_xmldb_db_reset "running") 0] ++ evs) ++
      Ev_call (C_candidate_commit "failsafe") rc :: post.
Proof.
  intros Hc Ht3 Ht'.
  apply txe_commit_spec in Hc. destruct Hc as (evs & Ht4 & Hev & _).
  exists evs. split; [done|]. apply new_events_app.
  rewrite Ht', Ht4, Ht3. by rewrite <- !app_assoc.
Qed.

(** C2: when the commit of failsafe into running was called and returned
    1, [startup_failsafe] returns 0, the failsafe database exists, and
    the content of running afterwards is the content of failsafe. *)
Theorem startup_failsafe_loads_failsafe (e : env) (w w' : world) (r : Z) :
  startup_failsafe e w = (r, w') ->
  In (Ev_call (C_candidate_commit "failsafe") 1) (new_events w w') ->
  r = 0 /\ is_Some (dbs w !! "failsafe") /\
  dbs w' !! "running" = dbs w !! "failsafe" /\
  dbs w' !! "failsafe" = dbs w !! "failsafe".
Proof.
  intros H Hin.
  destruct (startup_failsafe_runs e w w' r H) as [[_ Hno]|Hrun].
  { exfalso. by eapply Hno. }
  destruct Hrun as (run0 & fs & w3 & w4 & rc & post & Hrun & Hfs & Hd3 & Hc
                    & Ht3 & Ht' & Hcases).
  destruct (startup_failsafe_trace e w w3 w4 w' rc post Hc Ht3 Ht')
    as (evs & Hev & Hnew).
  assert (rc = 1) as ->.
  { destruct Hcases as [(? & _)|(Hne & _ & cr & t' & -> & Hnc & _)]; [done|].
    rewrite Hnew in Hin. apply in_app_or in Hin. destruct Hin as [Hin|Hin].
    - apply in_app_or in Hin. destruct Hin as [Hin|Hin].
      + simpl in Hin. intuition discriminate.
      + rewrite Forall_forall in Hev. apply list_elem_of_In, Hev in Hin. done.
    - simpl in Hin. destruct Hin as [Hin|[Hin|Hin]];
        [congruence | discriminate |].
      rewrite Forall_forall in Hnc. apply list_elem_of_In, Hnc in Hin.
      exfalso. by apply Hin. }
  destruct Hcases as [(_ & -> & Hd' & _)|(Hne & _)]; [|done].
  apply txe_commit_spec in Hc.
  destruct Hc as (_ & _ & _ & _ & Hok & _).
  destruct Hok as (src & Hsrc & Hd4); [done|].
  assert (src = fs) as ->.
  { rewrite Hd3 in Hsrc. rewrite !lookup_insert_ne in Hsrc by done. congruence. }
  rewrite Hd', Hfs. split; [done|]. split; [by eexists|].
  destruct Hd4 as [->|[-> Hcont]]; rewrite Hd3.
  - rewrite lookup_insert_eq. rewrite !lookup_insert_ne by done. done.
  - rewrite Hd3 in Hcont. unfold db_content in Hcont.
    rewrite lookup_insert_eq in Hcont. simpl in Hcont. subst fs.
    rewrite lookup_insert_eq. rewrite !lookup_insert_ne by done. done.
Qed.

(** C4, as stated, fails: failsafe a/x = bad does not validate, the
    commit returns 0, and the copy of tmp back to running fails; running
    is left with the empty configuration of the reset. *)
Lemma startup_failsafe_not_always_restored : ~ failsafe_restore_as_claimed.
Proof.
  intros H.
  pose (e := ex_env restore_fault).
  pose (w := ex_world (ex_tree "a" "x" "bad")).
  destruct (H e w (snd (startup_failsafe e w)) (fst (startup_failsafe e w)) 0)
    as [_ Hrun].
  - vm_compute. reflexivity.
  - vm_compute. tauto.
  - lia.
  - vm_compute in Hrun. discriminate.
Qed.

(** C4, amended: when the commit of failsafe into running was called and
    did not return 1, [startup_failsafe] returns -1, and the call that
    follows the commit is the copy of tmp to running; tmp had been filled
    from running by the copy made before running was reset, and no other
    call follows.  The copy back returns 0 or -1.  When it returns 0,
    running has again the content it had at the start.  When it fails,
    running is not restored: it holds the empty configuration of the
    reset. *)
Theorem startup_failsafe_restores_running (e : env) (w w' : world) (r rc : Z) :
  startup_failsafe e w = (r, w') ->
  In (Ev_call (C_candidate_commit "failsafe") rc) (new_events w w') ->
  rc <> 1 ->
  r = -1 /\
  exists evs cr after,
    new_events w w' =
      ([Ev_call C_cbuf_new 0; Ev_call (C_xmldb_exists "failsafe") 1;
        Ev_call (C_xmldb_copy "running" "tmp") 0;
        Ev_call (C_xmldb_db_reset "running") 0] ++ evs) ++
      Ev_call (C_candidate_commit "failsafe") rc ::
      Ev_call (C_xmldb_copy "tmp" "running") cr :: after /\
    Forall txe_event evs /\
    Forall (fun ev => ~ is_call ev) after /\
    (cr = 0 \/ cr = -1) /\
    (cr = 0 <-> fault e (C_xmldb_copy "tmp" "running") = None) /\
    (cr = 0 -> is_Some (dbs w !! "running") /\
               dbs w' !! "running" = dbs w !! "running") /\
    (cr = -1 -> dbs w' !! "running" = Some empty_config).
Proof.
  intros H Hin Hrc.
  destruct (startup_failsafe_runs e w w' r H) as [[_ Hno]|Hrun].
  { exfalso. by eapply Hno. }
  destruct Hrun as (run0 & fs & w3 & w4 & rc' & post & Hrun & Hfs & Hd3 & Hc
                    & Ht3 & Ht' & Hcases).
  destruct (startup_failsafe_trace e w w3 w4 w' rc' post Hc Ht3 Ht')
    as (evs & Hev & Hnew).
  assert (rc' = rc) as ->.
  { rewrite Hnew in Hin. apply in_app_or in Hin. destruct Hin as [Hin|Hin].
    - apply in_app_or in Hin. destruct Hin as [Hin|Hin].
      + simpl in Hin. intuition discriminate.
      + rewrite Forall_forall in Hev. apply list_elem_of_In, Hev in Hin. done.
    - simpl in Hin. destruct Hin as [Hin|Hin]; [congruence|].
      destruct Hcases as [(_ & _ & _ & ->)|(_ & _ & cr & t' & -> & Hnc & _)].
      + simpl in Hin. intuition discriminate.
      + simpl in Hin. destruct Hin as [Hin|Hin]; [discriminate|].
        rewrite Forall_forall in Hnc. apply list_elem_of_In, Hnc in Hin.
        exfalso. by apply Hin. }
  destruct Hcases
    as [(? & _)|(_ & -> & cr & t' & -> & Hnc & Hrest & Hfault & Hfail)];
    [done|].
  split; [done|]. exists evs, cr, t'.
  split; [done|]. split; [done|]. split; [done|].
  split; [destruct (decide (cr = 0)) as [|Hne]; [by left|];
          right; by apply Hfail|].
  split; [done|]. split.
  - intros Hcr. split; [by eexists|].
    rewrite (Hrest Hcr), lookup_insert_eq. done.
  - intros Hcr. destruct Hfail as (_ & -> & ->); [lia|].
    rewrite Hd3. by rewrite lookup_insert_eq.
Qed.

(** C3: when the failsafe database does not exist, [startup_failsafe]
    returns -1, the datastore is exactly as before, and no call that
    changes the datastore or commits into it (copy, reset, create, delete,
    put, plugin reset, commit) has been made. *)
Theorem startup_failsafe_no_failsafe (e : env) (w w' : world) (r : Z) :
  startup_failsafe e w = (r, w') ->
  dbs w !! "failsafe" = None ->
  r = -1 /\ dbs w' = dbs w /\
  Forall (fun ev => ~ is_ds_mutation ev) (new_events w w').
Proof.
  intros H Habs. unfold startup_failsafe in H. run_in H.
  unfold db_present in H.
  destruct (fault e C_cbuf_new); simpl in H.
  { inversion H; subst; simpl. split; [done|]. split; [done|].
    new_events_eq.
    repeat constructor; simpl; tauto. }
  destruct (fault e (C_xmldb_exists "failsafe")); simpl in H.
  { inversion H; subst; simpl. split; [done|]. split; [done|].
    new_events_eq.
    repeat constructor; simpl; tauto. }
  rewrite Habs in H. simpl in H.
  inversion H; subst; simpl. split; [done|]. split; [done|].
  new_events_eq.
  repeat constructor; simpl; tauto.
Qed.

(** C6: with source name "running", [startup_mode_startup] returns -1
    having only raised the OE_FATAL error: no call at all was made and the
    datastore is as before.  With any other name no OE_FATAL error is
    raised and the run starts with the datastore call [xmldb_exists]. *)
Theorem startup_mode_startup_running_rejected (e : env) (db : string)
    (w w' : world) (r : Z) :
  startup_mode_startup e db w = (r, w') ->
  (db = "running" ->
     r = -1 /\ dbs w' = dbs w /\
     new_events w w' = [Ev_err OE_FATAL "Invalid startup db: running"]) /\
  (db <> "running" ->
     (forall msg, ~ In (Ev_err OE_FATAL msg) (new_events w w')) /\
     exists r0 t, new_events w w' = Ev_call (C_xmldb_exists db) r0 :: t).
Proof.
  intros H. unfold startup_mode_startup in H.
  destruct (String.eqb db "running") eqn:Hdb.
  - apply String.eqb_eq in Hdb. subst db. run_in H. inversion H; subst; simpl.
    split; [|done]. intros _. split; [done|]. split; [done|].
    by apply new_events_app.
  - apply String.eqb_neq in Hdb. split; [done|]. intros _.
    unfold bind in H.
    destruct (xmldb_exists e db w) as [ex w1] eqn:H1.
    destruct ((if negb (ex =? 1) then xmldb_create e db else ret 0) w1)
      as [cr w2] eqn:H2.
    assert (exists r0, trace w1 = trace w ++ [Ev_call (C_xmldb_exists db) r0])
      as [r0 Ht1].
    { run_in H1. destruct (fault e (C_xmldb_exists db)); simpl in H1;
        inversion H1; subst; simpl; eauto. }
    assert (exists t2, trace w2 = trace w1 ++ t2 /\ Forall is_call t2)
      as (t2 & Ht2 & Hc2).
    { destruct (negb (ex =? 1)); run_in H2.
      - destruct (fault e (C_xmldb_create db)); simpl in H2;
          inversion H2; subst; simpl; eexists; (split; [reflexivity|]);
          by repeat constructor.
      - inversion H2; subst. exists []. by rewrite app_nil_r. }
    assert (exists t3, trace w' = trace w2 ++ t3 /\
              Forall (fun ev => txe_event ev \/ is_call ev) t3)
      as (t3 & Ht3 & Hc3).
    { destruct (cr <? 0).
      - run_in H. inversion H; subst. exists []. by rewrite app_nil_r.
      - destruct (startup_commit e db w2) as [rc w3] eqn:H3.
        apply txe_commit_spec in H3.
        destruct H3 as (evs & Ht & Hev & _).
        assert (w' = w3) as -> by
          (destruct (rc <? 0); [|destruct (rc =? 0)]; run_in H; congruence).
        exists (evs ++ [Ev_call (C_startup_commit db) rc]). split; [done|].
        apply Forall_app. split.
        + eapply Forall_impl; [exact Hev|]. tauto.
        + constructor; [by right | constructor]. }
    rewrite (new_events_app w w' ([Ev_call (C_xmldb_exists db) r0] ++ t2 ++ t3))
      by (rewrite Ht3, Ht2, Ht1, <- !app_assoc; reflexivity).
    split; [|by eauto].
    intros msg Hin. simpl in Hin. destruct Hin as [Hin|Hin]; [discriminate|].
    apply in_app_or in Hin. destruct Hin as [Hin|Hin].
    + rewrite Forall_forall in Hc2. apply list_elem_of_In, Hc2 in Hin. done.
    + rewrite Forall_forall in Hc3. apply list_elem_of_In, Hc3 in Hin.
      destruct Hin as [[]|[]].
Qed.

(** *** Extra XML *)

(** The second part of [startup_extraxml], case by case. *)
Lemma extraxml_merge_runs (e : env) (w1 w2 : world) (rv : Z) :
  extraxml_merge e w1 = (rv, w2) ->
  fault e (C_xmldb_get tmp_db) = None ->
  let x0 := db_content (dbs w1) tmp_db in
  let sv := C_startup_validate tmp_db in
  let put := C_xmldb_put "running" OP_MERGE in
  exists t, trace w2 = trace w1 ++ Ev_call (C_xmldb_get tmp_db) 0 :: t /\
  if xml_child_nr x0 =? 0 then t = [] /\ rv = 1 /\ dbs w2 = dbs w1
  else match fault e sv with
  | Some _ => t = [Ev_call sv (-1)] /\ rv = -1 /\ dbs w2 = dbs w1
  | None =>
    match validator e x0 with
    | Some _ =>
        t = [Ev_validator tmp_db; Ev_call sv 0] /\ rv = 0 /\ dbs w2 = dbs w1
    | None =>
      if xml_is_empty (upgraded e x0)
      then t = [Ev_validator tmp_db; Ev_call sv 1] /\ rv = 1 /\ dbs w2 = dbs w1
      else match fault e (C_xmldb_get0 tmp_db) with
      | Some _ =>
          t = [Ev_validator tmp_db; Ev_call sv 1;
               Ev_call (C_xmldb_get0 tmp_db) (-1)] /\
          rv = 0 /\ dbs w2 = dbs w1
      | None =>
        match fault e put, put_reject e "running" OP_MERGE x0 with
        | Some _, _ =>
            t = [Ev_validator tmp_db; Ev_call sv 1;
                 Ev_call (C_xmldb_get0 tmp_db) 0; Ev_call put (-1)] /\
            rv = 0 /\ dbs w2 = dbs w1
        | None, Some _ =>
            t = [Ev_validator tmp_db; Ev_call sv 1;
                 Ev_call (C_xmldb_get0 tmp_db) 0; Ev_call put 0] /\
            rv = 0 /\ dbs w2 = dbs w1
        | None, None =>
            t = [Ev_validator tmp_db; Ev_call sv 1;
                 Ev_call (C_xmldb_get0 tmp_db) 0; Ev_call put 1] /\
            rv = 1 /\
            dbs w2 = <["running" :=
                        xml_modify e OP_MERGE (db_content (dbs w1) "running") x0]>
                     (dbs w1)
        end
      end
    end
  end.
Proof.
  intros H Hget. unfold extraxml_merge, startup_validate, db_merge in H.
  run_in H. rewrite Hget in H. simpl in H. simpl.
  destruct (xml_child_nr (db_content (dbs w1) tmp_db) =? 0); simpl in H.
  { inversion H; subst; simpl. by eexists. }
  destruct (fault e (C_startup_validate tmp_db)); simpl in H.
  { inversion H; subst; simpl. rewrite <- app_assoc. by eexists. }
  destruct (validator e (db_content (dbs w1) tmp_db)); simpl in H.
  { inversion H; subst; simpl. rewrite <- !app_assoc. by eexists. }
  destruct (xml_is_empty (upgraded e (db_content (dbs w1) tmp_db))); simpl in H.
  { inversion H; subst; simpl. rewrite <- !app_assoc. by eexists. }
  destruct (fault e (C_xmldb_get0 tmp_db)); simpl in H.
  { inversion H; subst; simpl. rewrite <- !app_assoc. by eexists. }
  destruct (fault e (C_xmldb_put "running" OP_MERGE)); simpl in H.
  { inversion H; subst; simpl. rewrite <- !app_assoc. by eexists. }
  destruct (put_reject e "running" OP_MERGE (db_content (dbs w1) tmp_db));
    simpl in H.
  { inversion H; subst; simpl. rewrite <- !app_assoc. by eexists. }
  inversion H; subst; simpl. rewrite <- !app_assoc. by eexists.
Qed.

(** C5, as stated, fails: the file bad.xml leaves tmp non-empty, the
    validation of tmp fails, and nothing is put into running. *)
Lemma startup_extraxml_not_as_claimed : ~ extraxml_as_claimed.
Proof.
  intros H.
  pose (e := ex_env no_fault).
  pose (w := ex_world (ex_tree "a" "x" "7")).
  pose (w1 := snd (extraxml_prepare e (Some "bad.xml") w)).
  pose (w' := snd (startup_extraxml e (Some "bad.xml") w)).
  assert (extraxml_prepare e (Some "bad.xml") w = (1, w1)) as Hp
    by (vm_compute; reflexivity).
  assert (startup_extraxml e (Some "bad.xml") w = (0, w')) as Hs
    by (vm_compute; reflexivity).
  destruct (H e (Some "bad.xml") w w1 w' 0 Hp Hs) as [Hne _].
  destruct Hne as (vr & pr & t1 & t2 & t3 & Ht); [by vm_compute|].
  assert (In (Ev_call (C_xmldb_put "running" OP_MERGE) pr) (new_events w1 w'))
    as Hin.
  { rewrite Ht. apply in_or_app. right. right. apply in_or_app. right. by left. }
  vm_compute in Hin. intuition discriminate.
Qed.

(** The same holds when tmp is empty and its final deletion fails: the
    result is -1. *)
Example startup_extraxml_delete_fails :
  fst (extraxml_prepare (ex_env delete_fault) None (ex_world (ex_tree "a" "x" "7")))
    = 1 /\
  xml_child_nr
    (db_content
       (dbs (snd (extraxml_prepare (ex_env delete_fault) None
                    (ex_world (ex_tree "a" "x" "7"))))) tmp_db) = 0 /\
  fst (startup_extraxml (ex_env delete_fault) None (ex_world (ex_tree "a" "x" "7")))
    = -1.
Proof. by vm_compute. Qed.

(** From the label [done], with the test of the deletion's result spelled
    out. *)
Lemma extraxml_done_result (e : env) (rv r : Z) (w2 w' : world) :
  extraxml_done e rv w2 = (r, w') ->
  exists d, trace w' = trace w2 ++ [Ev_call (C_xmldb_delete tmp_db) d] /\
    dbs w' !! "running" = dbs w2 !! "running" /\
    (d = 0 <-> fault e (C_xmldb_delete tmp_db) = None) /\
    (d = 0 \/ errno w' = ENOENT -> r = rv) /\
    (d <> 0 -> errno w' <> ENOENT -> r = -1).
Proof.
  intros H. unfold extraxml_done in H. run_in H.
  destruct (fault e (C_xmldb_delete tmp_db)) as [en|]; simpl in H.
  - destruct (en =? ENOENT) eqn:En; simpl in H; inversion H; subst; simpl;
      exists (-1); (split; [done|]); (split; [done|]);
      (split; [split; [lia|discriminate]|]).
    + split; [done|]. apply Z.eqb_eq in En. intros _ Hne. by destruct Hne.
    + apply Z.eqb_neq in En. split; [|done]. intros [?|?]; [lia|done].
  - inversion H; subst; simpl. exists 0. split; [done|].
    split; [by rewrite lookup_delete_ne|]. split; [done|]. split; [done|lia].
Qed.

(** C5, amended.  In a run whose first part went through (leaving [w1])
    and in which tmp can be read, with [d] the result of the final
    deletion of tmp and [rv] the result reached before it:
    - the function returns [rv], unless the deletion failed with an errno
      other than ENOENT: then it returns -1;
    - when tmp is empty the only calls are the read and the deletion of
      tmp, running is untouched and [rv] is 1;
    - when tmp is non-empty the static Validator is run on tmp and the
      validation returns [vr].  Unless [vr] is 1 nothing follows but the
      deletion, running is untouched and [rv] is [vr].  When [vr] is 1 and
      the validated tree is empty, likewise, with [rv] 1.  Otherwise the
      merge follows, and it is these calls and nothing else: the read of
      tmp and, if that succeeds, the put into running with merge; [rv] is
      1 and running holds the merge of tmp into its former content when
      the put returns 1, and [rv] is 0 and running is untouched when the
      read or the put fails. *)
Theorem startup_extraxml_spec (e : env) (file : option string)
    (w w1 w' : world) (r : Z) :
  extraxml_prepare e file w = (1, w1) ->
  startup_extraxml e file w = (r, w') ->
  fault e (C_xmldb_get tmp_db) = None ->
  let x0 := db_content (dbs w1) tmp_db in
  let t := new_events w1 w' in
  let get := Ev_call (C_xmldb_get tmp_db) 0 in
  let del := C_xmldb_delete tmp_db in
  let sv := C_startup_validate tmp_db in
  let get0 := C_xmldb_get0 tmp_db in
  let put := C_xmldb_put "running" OP_MERGE in
  let untouched := dbs w' !! "running" = dbs w1 !! "running" in
  exists d rv,
    (d = 0 <-> fault e del = None) /\
    (d = 0 \/ errno w' = ENOENT -> r = rv) /\
    (d <> 0 -> errno w' <> ENOENT -> r = -1) /\
    (xml_child_nr x0 = 0 ->
       t = [get; Ev_call del d] /\ rv = 1 /\ untouched) /\
    (xml_child_nr x0 <> 0 ->
       exists vr val merge,
         t = get :: val ++ Ev_call sv vr :: merge ++ [Ev_call del d] /\
         (val = [] \/ val = [Ev_validator tmp_db]) /\
         (vr = 1 <-> fault e sv = None /\ validator e x0 = None) /\
         (vr <> 1 -> merge = [] /\ rv = vr /\ (vr = 0 \/ vr = -1) /\
                     untouched) /\
         (vr = 1 -> xml_is_empty (upgraded e x0) = true ->
            merge = [] /\ rv = 1 /\ untouched) /\
         (vr = 1 -> xml_is_empty (upgraded e x0) = false ->
            exists g,
              (g = 0 <-> fault e get0 = None) /\
              (g <> 0 -> merge = [Ev_call get0 g] /\ rv = 0 /\ untouched) /\
              (g = 0 ->
                 exists pr,
                   merge = [Ev_call get0 0; Ev_call put pr] /\
                   (pr = 1 <-> fault e put = None /\
                               put_reject e "running" OP_MERGE x0 = None) /\
                   (pr = 1 ->
                      rv = 1 /\
                      dbs w' !! "running" =
                        Some (xml_modify e OP_MERGE
                                (db_content (dbs w1) "running") x0)) /\
                   (pr <> 1 -> rv = 0 /\ untouched)))).
Proof.
  intros Hp Hs Hget x0 t get del sv get0 put untouched.
  unfold startup_extraxml, bind in Hs. rewrite Hp in Hs. simpl in Hs.
  destruct (extraxml_merge e w1) as [rv w2] eqn:Hm.
  apply extraxml_done_result in Hs.
  destruct Hs as (d & Ht' & Hrun' & Hdel & Hok & Hfail).
  apply extraxml_merge_runs in Hm; [|done]. fold x0 in Hm.
  destruct Hm as (tm & Ht2 & Hm).
  assert (t = get :: tm ++ [Ev_call del d]) as Ht.
  { unfold t. apply new_events_app. rewrite Ht', Ht2, <- app_assoc. done. }
  assert (dbs w2 = dbs w1 -> untouched) as Hsame
    by (intros Hd; unfold untouched; by rewrite Hrun', Hd).
  clearbody t. subst t. clear Ht' Ht2.
  exists d, rv. split; [done|]. split; [done|]. split; [done|].
  destruct (xml_child_nr x0 =? 0) eqn:Hx0.
  { apply Z.eqb_eq in Hx0. destruct Hm as (-> & -> & Hd).
    split; [|done]. intros _. split; [done|]. split; [done|]. by apply Hsame. }
  apply Z.eqb_neq in Hx0. split; [done|]. intros _.
  fold sv in Hm. fold get0 in Hm. fold put in Hm.
  destruct (fault e sv) as [en|] eqn:Fsv.
  { destruct Hm as (-> & -> & Hd). exists (-1), [], [].
    split; [done|]. split; [by left|].
    split; [split; [lia|by intros [? _]]|].
    split; [intros _; split; [done|]; split; [done|]; split;
            [by right | by apply Hsame]|].
    split; intros; lia. }
  destruct (validator e x0) as [errdoc|] eqn:Fval.
  { destruct Hm as (-> & -> & Hd). exists 0, [Ev_validator tmp_db], [].
    split; [done|]. split; [by right|].
    split; [split; [lia|by intros [_ ?]]|].
    split; [intros _; split; [done|]; split; [done|]; split;
            [by left | by apply Hsame]|].
    split; intros; lia. }
  destruct (xml_is_empty (upgraded e x0)) eqn:Fup.
  { destruct Hm as (-> & -> & Hd). exists 1, [Ev_validator tmp_db], [].
    split; [done|]. split; [by right|]. split; [done|].
    split; [intros; lia|].
    split; [intros _ _; split; [done|]; split; [done|]; by apply Hsame|].
    intros; discriminate. }
  destruct (fault e get0) as [en|] eqn:Fget0.
  { destruct Hm as (-> & -> & Hd).
    exists 1, [Ev_validator tmp_db], [Ev_call get0 (-1)].
    split; [done|]. split; [by right|]. split; [done|].
    split; [intros; lia|]. split; [intros; discriminate|].
    intros _ _. exists (-1). split; [split; [lia|discriminate]|].
    split; [|intros; lia].
    intros _. split; [done|]. split; [done|]. by apply Hsame. }
  destruct (fault e put) as [en|] eqn:Fput.
  { destruct Hm as (-> & -> & Hd).
    exists 1, [Ev_validator tmp_db], [Ev_call get0 0; Ev_call put (-1)].
    split; [done|]. split; [by right|]. split; [done|].
    split; [intros; lia|]. split; [intros; discriminate|].
    intros _ _. exists 0. split; [done|]. split; [intros; lia|].
    intros _. exists (-1). split; [done|].
    split; [split; [lia|by intros [? _]]|]. split; [intros; lia|].
    intros _. split; [done|]. by apply Hsame. }
  destruct (put_reject e "running" OP_MERGE x0) as [errdoc|] eqn:Frej.
  { destruct Hm as (-> & -> & Hd).
    exists 1, [Ev_validator tmp_db], [Ev_call get0 0; Ev_call put 0].
    split; [done|]. split; [by right|]. split; [done|].
    split; [intros; lia|]. split; [intros; discriminate|].
    intros _ _. exists 0. split; [done|]. split; [intros; lia|].
    intros _. exists 0. split; [done|].
    split; [split; [lia|by intros [_ ?]]|]. split; [intros; lia|].
    intros _. split; [done|]. by apply Hsame. }
  destruct Hm as (-> & -> & Hd).
  exists 1, [Ev_validator tmp_db], [Ev_call get0 0; Ev_call put 1].
  split; [done|]. split; [by right|]. split; [done|].
  split; [intros; lia|]. split; [intros; discriminate|].
  intros _ _. exists 0. split; [done|]. split; [intros; lia|].
  intros _. exists 1. split; [done|]. split; [done|].
  split; [|intros; lia].
  intros _. split; [done|]. rewrite Hrun', Hd. by rewrite lookup_insert_eq.
Qed.

(** *** The theorems at concrete runs *)

Ltac in_list := vm_compute; repeat (first [left; reflexivity | right]).

(** Failsafe a/x = 7 is valid: it is committed and becomes running. *)
Lemma startup_failsafe_loads_failsafe_witness :
  fst (startup_failsafe (ex_env no_fault) (ex_world (ex_tree "a" "x" "7"))) = 0 /\
  dbs (snd (startup_failsafe (ex_env no_fault) (ex_world (ex_tree "a" "x" "7"))))
    !! "running" = Some (ex_tree "a" "x" "7").
Proof.
  pose (e := ex_env no_fault). pose (w := ex_world (ex_tree "a" "x" "7")).
  fold e w.
  destruct (startup_failsafe_loads_failsafe e w
              (snd (startup_failsafe e w)) (fst (startup_failsafe e w)))
    as (Hr & _ & Hrun & _).
  - vm_compute. reflexivity.
  - in_list.
  - split; [exact Hr|]. rewrite Hrun. vm_compute. reflexivity.
Defined.

(** Without a failsafe database nothing is touched. *)
Lemma startup_failsafe_no_failsafe_witness :
  fst (startup_failsafe (ex_env no_fault) ex_world_bare) = -1 /\
  dbs (snd (startup_failsafe (ex_env no_fault) ex_world_bare)) = dbs ex_world_bare.
Proof.
  destruct (startup_failsafe_no_failsafe (ex_env no_fault) ex_world_bare
              (snd (startup_failsafe (ex_env no_fault) ex_world_bare))
              (fst (startup_failsafe (ex_env no_fault) ex_world_bare)))
    as (Hr & Hd & _).
  - vm_compute. reflexivity.
  - vm_compute. reflexivity.
  - split; [exact Hr | exact Hd].
Defined.

(** Failsafe a/x = bad fails validation: running is copied back and has
    its former content a/x = 1. *)
Lemma startup_failsafe_restores_running_witness :
  fst (startup_failsafe (ex_env no_fault) (ex_world (ex_tree "a" "x" "bad"))) = -1
  /\
  dbs (snd (startup_failsafe (ex_env no_fault) (ex_world (ex_tree "a" "x" "bad"))))
    !! "running" = Some (ex_tree "a" "x" "1").
Proof.
  pose (e := ex_env no_fault). pose (w := ex_world (ex_tree "a" "x" "bad")).
  fold e w.
  destruct (startup_failsafe_restores_running e w
              (snd (startup_failsafe e w)) (fst (startup_failsafe e w)) 0)
    as (Hr & evs & cr & after & _ & _ & _ & _ & Hfault & Hok & _).
  - vm_compute. reflexivity.
  - in_list.
  - lia.
  - split; [exact Hr|].
    destruct Hok as [_ Hrun]; [by apply Hfault|].
    rewrite Hrun. vm_compute. reflexivity.
Defined.

Example startup_failsafe_restore_run :
  dbs (snd (startup_failsafe (ex_env no_fault) (ex_world (ex_tree "a" "x" "bad"))))
    !! "running" = Some (ex_tree "a" "x" "1") /\
  new_events (ex_world (ex_tree "a" "x" "bad"))
    (snd (startup_failsafe (ex_env no_fault) (ex_world (ex_tree "a" "x" "bad")))) =
  [Ev_call C_cbuf_new 0; Ev_call (C_xmldb_exists "failsafe") 1;
   Ev_call (C_xmldb_copy "running" "tmp") 0;
   Ev_call (C_xmldb_db_reset "running") 0;
   Ev_validator "failsafe"; Ev_call (C_candidate_commit "failsafe") 0;
   Ev_call (C_xmldb_copy "tmp" "running") 0;
   Ev_err OE_DB "Startup failed, Failsafe database validation failed invalid-value"].
Proof. by vm_compute. Qed.

(** The same run with the copy back failing: -1, and running is left
    empty. *)
Example startup_failsafe_restore_fails :
  fst (startup_failsafe (ex_env restore_fault) (ex_world (ex_tree "a" "x" "bad")))
    = -1 /\
  dbs (snd (startup_failsafe (ex_env restore_fault)
              (ex_world (ex_tree "a" "x" "bad")))) !! "running"
    = Some empty_config /\
  new_events (ex_world (ex_tree "a" "x" "bad"))
    (snd (startup_failsafe (ex_env restore_fault)
            (ex_world (ex_tree "a" "x" "bad")))) =
  [Ev_call C_cbuf_new 0; Ev_call (C_xmldb_exists "failsafe") 1;
   Ev_call (C_xmldb_copy "running" "tmp") 0;
   Ev_call (C_xmldb_db_reset "running") 0;
   Ev_validator "failsafe"; Ev_call (C_candidate_commit "failsafe") 0;
   Ev_call (C_xmldb_copy "tmp" "running") (-1)].
Proof. by vm_compute. Qed.

(** The file extra.xml adds b/y = 2: tmp is validated and merged, and the
    result is 1. *)
Lemma startup_extraxml_spec_witness :
  fst (startup_extraxml (ex_env no_fault) (Some "extra.xml")
         (ex_world (ex_tree "a" "x" "7"))) = 1 /\
  dbs (snd (startup_extraxml (ex_env no_fault) (Some "extra.xml")
              (ex_world (ex_tree "a" "x" "7")))) !! "running" =
    Some (CxElmnt "config" [CxElmnt "a" [xml_leaf "x" "1"];
                            CxElmnt "b" [xml_leaf "y" "2"]]).
Proof.
  pose (e := ex_env no_fault). pose (w := ex_world (ex_tree "a" "x" "7")).
  fold e w.
  destruct (startup_extraxml_spec e (Some "extra.xml") w
              (snd (extraxml_prepare e (Some "extra.xml") w))
              (snd (startup_extraxml e (Some "extra.xml") w))
              (fst (startup_extraxml e (Some "extra.xml") w)))
    as (d & rv & Hd & Hok & _ & _ & Hne).
  - vm_compute. reflexivity.
  - vm_compute. reflexivity.
  - reflexivity.
  - destruct Hne as (vr & val & merge & _ & _ & Hvr & _ & _ & Hmerge);
      [vm_compute; discriminate|].
    destruct Hmerge as (g & Hg & _ & Hput);
      [apply Hvr; by vm_compute | reflexivity |].
    destruct Hput as (pr & _ & Hpr & Hone & _); [by apply Hg|].
    destruct Hone as [-> Hrun]; [apply Hpr; by vm_compute|].
    split.
    + apply Hok. left. by apply Hd.
    + rewrite Hrun. vm_compute. reflexivity.
Defined.

(** The name "running" is refused; the name "startup" is not. *)
Lemma startup_mode_startup_running_rejected_witness :
  fst (startup_mode_startup (ex_env no_fault) "running"
         (ex_world (ex_tree "a" "x" "7"))) = -1 /\
  exists r0 t,
    new_events (ex_world (ex_tree "a" "x" "7"))
      (snd (startup_mode_startup (ex_env no_fault) "startup"
              (ex_world (ex_tree "a" "x" "7")))) =
    Ev_call (C_xmldb_exists "startup") r0 :: t.
Proof.
  pose (e := ex_env no_fault). pose (w := ex_world (ex_tree "a" "x" "7")).
  fold e w. split.
  - destruct (startup_mode_startup_running_rejected e "running" w
                (snd (startup_mode_startup e "running" w))
                (fst (startup_mode_startup e "running" w)))
      as [Hrun _]; [vm_compute; reflexivity|].
    destruct Hrun as (Hr & _); [reflexivity | exact Hr].
  - destruct (startup_mode_startup_running_rejected e "startup" w
                (snd (startup_mode_startup e "startup" w))
                (fst (startup_mode_startup e "startup" w)))
      as [_ Hother]; [vm_compute; reflexivity|].
    destruct Hother as (_ & Hex); [discriminate | exact Hex].
Defined.

(** *** Further properties of [startup_failsafe] *)

(** [startup_failsafe] returns 0 or -1, and it returns 0 exactly when the
    commit of failsafe into running was called and returned 1: there is no
    other way to success. *)
Theorem startup_failsafe_success_iff (e : env) (w w' : world) (r : Z) :
  startup_failsafe e w = (r, w') ->
  (r = 0 \/ r = -1) /\
  (r = 0 <-> In (Ev_call (C_candidate_commit "failsafe") 1) (new_events w w')).
Proof.
  intros H.
  destruct (startup_failsafe_runs e w w' r H) as [[-> Hno]|Hrun].
  { split; [by right|]. split; [lia|]. intros Hin. by apply Hno in Hin. }
  destruct Hrun as (run0 & fs & w3 & w4 & rc & post & _ & _ & _ & Hc
                    & Ht3 & Ht' & Hcases).
  destruct (startup_failsafe_trace e w w3 w4 w' rc post Hc Ht3 Ht')
    as (evs & Hev & Hnew).
  destruct Hcases as [(-> & -> & _ & ->)|(Hne & -> & cr & t' & -> & Hnc & _)].
  - split; [by left|]. split; [intros _|done].
    rewrite Hnew. apply in_or_app. right. by left.
  - split; [by right|]. split; [lia|]. intros Hin. exfalso.
    rewrite Hnew in Hin. apply in_app_or in Hin. destruct Hin as [Hin|Hin].
    + apply in_app_or in Hin. destruct Hin as [Hin|Hin].
      * simpl in Hin. intuition discriminate.
      * rewrite Forall_forall in Hev. by apply list_elem_of_In, Hev in Hin.
    + simpl in Hin. destruct Hin as [Hin|[Hin|Hin]];
        [congruence | discriminate |].
      rewrite Forall_forall in Hnc. apply list_elem_of_In, Hnc in Hin.
      by apply Hin.
Qed.

Lemma startup_failsafe_success_iff_witness :
  In (Ev_call (C_candidate_commit "failsafe") 1)
     (new_events (ex_world (ex_tree "a" "x" "7"))
        (snd (startup_failsafe (ex_env no_fault)
                (ex_world (ex_tree "a" "x" "7"))))).
Proof.
  pose (e := ex_env no_fault). pose (w := ex_world (ex_tree "a" "x" "7")).
  fold e w.
  destruct (startup_failsafe_success_iff e w
              (snd (startup_failsafe e w)) (fst (startup_failsafe e w)))
    as (_ & Hiff).
  - vm_compute. reflexivity.
  - apply Hiff. vm_compute. reflexivity.
Defined.

(** The datastore after [startup_failsafe]: either it is as before and
    running was never reset, or running existed and the datastore differs
    from the one at entry by tmp holding the former running and, possibly,
    by the content of running. *)
Lemma startup_failsafe_dbs (e : env) (w w' : world) (r : Z) :
  startup_failsafe e w = (r, w') ->
  (dbs w' = dbs w /\
   forall rr, ~ In (Ev_call (C_xmldb_db_reset "running") rr) (new_events w w')) \/
  (exists run0, dbs w !! "running" = Some run0 /\
     (dbs w' = <["tmp" := run0]> (dbs w) \/
      exists x, dbs w' = <["running" := x]> (<["tmp" := run0]> (dbs w)))).
Proof.
  intros H. unfold startup_failsafe in H. run_in H. unfold db_present in H.
  destruct (fault e C_cbuf_new); simpl in H.
  { left. inversion H; subst. split; [done|]. intros rr. new_events_eq.
    simpl. intuition discriminate. }
  destruct (fault e (C_xmldb_exists "failsafe")); simpl in H.
  { left. inversion H; subst. split; [done|]. intros rr. new_events_eq.
    simpl. intuition discriminate. }
  destruct (dbs w !! "failsafe") as [fs|] eqn:Hfs; simpl in H.
  2:{ left. inversion H; subst. split; [done|]. intros rr. new_events_eq.
      simpl. intuition discriminate. }
  destruct (fault e (C_xmldb_copy "running" "tmp")); simpl in H.
  { left. inversion H; subst. split; [done|]. intros rr. new_events_eq.
    simpl. intuition discriminate. }
  destruct (dbs w !! "running") as [run0|] eqn:Hrun; simpl in H.
  2:{ left. inversion H; subst. split; [done|]. intros rr. new_events_eq.
      simpl. intuition discriminate. }
  right. exists run0. split; [done|].
  destruct (fault e (C_xmldb_db_reset "running")); simpl in H.
  { left. by inversion H; subst. }
  right.
  match type of H with
  | (let '(_, _) := candidate_commit e "failsafe" ?x in _) = _ =>
      set (w3 := x) in *
  end.
  destruct (candidate_commit e "failsafe" w3) as [rc w4] eqn:Hc.
  pose proof (txe_commit_spec _ _ _ _ _ _ Hc) as (evs & Ht4 & _ & Hrc & Hok & Hne).
  assert (dbs w3 = <["running" := empty_config]> (<["tmp" := run0]> (dbs w)))
    as Hd3 by done.
  assert (exists x, dbs w4 = <["running" := x]> (<["tmp" := run0]> (dbs w)))
    as [x4 Hd4].
  { destruct (decide (rc = 1)) as [->|Hn].
    - destruct Hok as (src & _ & [Hd|[Hd _]]); [done| |].
      + exists src. rewrite Hd, Hd3. by rewrite insert_insert_eq.
      + exists empty_config. by rewrite Hd.
    - exists empty_config. by rewrite (Hne Hn). }
  assert (dbs w4 !! "tmp" = Some run0) as Htmp.
  { rewrite Hd4. rewrite lookup_insert_ne by done. by rewrite lookup_insert_eq. }
  destruct (rc =? 1) eqn:E1; simpl in H.
  - apply Z.eqb_eq in E1. subst rc. simpl in H. inversion H; subst; simpl.
    by exists x4.
  - destruct (fault e (C_xmldb_copy "tmp" "running")); simpl in H.
    + inversion H; subst; simpl. by exists x4.
    + rewrite Htmp in H. simpl in H.
      destruct Hrc as [->|[->| ->]]; [done| |]; simpl in H;
        inversion H; subst r w'; simpl; exists run0;
        by rewrite Hd4, insert_insert_eq.
Qed.

(** Whenever [startup_failsafe] has called the reset of running, running
    existed at entry and tmp holds at return the content running had at
    entry: the backup copy is made before the reset, and tmp is not
    deleted or overwritten afterwards, whether the run succeeds or not. *)
Theorem startup_failsafe_backup_kept (e : env) (w w' : world) (r rr : Z) :
  startup_failsafe e w = (r, w') ->
  In (Ev_call (C_xmldb_db_reset "running") rr) (new_events w w') ->
  is_Some (dbs w !! "running") /\ dbs w' !! "tmp" = dbs w !! "running".
Proof.
  intros H Hin.
  destruct (startup_failsafe_dbs e w w' r H)
    as [[_ Hno]|(run0 & Hrun & [Hd|[x Hd]])].
  - exfalso. by eapply Hno.
  - rewrite Hd, Hrun, lookup_insert_eq. by split; [eexists|].
  - rewrite Hd, Hrun. rewrite lookup_insert_ne by done.
    rewrite lookup_insert_eq. by split; [eexists|].
Qed.

Lemma startup_failsafe_backup_kept_witness :
  dbs (snd (startup_failsafe (ex_env no_fault) (ex_world (ex_tree "a" "x" "7"))))
    !! "tmp" = Some (ex_tree "a" "x" "1").
Proof.
  pose (e := ex_env no_fault). pose (w := ex_world (ex_tree "a" "x" "7")).
  fold e w.
  destruct (startup_failsafe_backup_kept e w
              (snd (startup_failsafe e w)) (fst (startup_failsafe e w)) 0)
    as (_ & Htmp).
  - vm_compute. reflexivity.
  - in_list.
  - rewrite Htmp. vm_compute. reflexivity.
Defined.

(** [startup_failsafe] changes no database other than running and tmp; in
    particular failsafe and startup are as before, and none is created or
    deleted. *)
Theorem startup_failsafe_frame (e : env) (w w' : world) (r : Z) (db : string) :
  startup_failsafe e w = (r, w') ->
  db <> "running" -> db <> "tmp" ->
  dbs w' !! db = dbs w !! db.
Proof.
  intros H Hr Ht.
  destruct (startup_failsafe_dbs e w w' r H)
    as [[-> _]|(run0 & _ & [->|[x ->]])]; [done| |];
    by rewrite !lookup_insert_ne.
Qed.

Lemma startup_failsafe_frame_witness :
  dbs (snd (startup_failsafe (ex_env no_fault) (ex_world (ex_tree "a" "x" "bad"))))
    !! "failsafe" = Some (ex_tree "a" "x" "bad").
Proof.
  pose (e := ex_env no_fault). pose (w := ex_world (ex_tree "a" "x" "bad")).
  fold e w.
  rewrite (startup_failsafe_frame e w (snd (startup_failsafe e w))
             (fst (startup_failsafe e w)) "failsafe").
  - vm_compute. reflexivity.
  - vm_compute. reflexivity.
  - discriminate.
  - discriminate.
Defined.

(** *** Further properties of [startup_mode_startup] *)

(** For a name other than "running", [startup_mode_startup] makes these
    calls and no others: [xmldb_exists]; then [xmldb_create] exactly when
    [xmldb_exists] did not return 1 (so also when it failed with -1); then,
    unless the creation failed, [startup_commit], whose result is the
    result of the function.  A failed creation gives -1 without a commit,
    and nothing else does: whenever the creation was not called or did not
    fail, the commit is called. *)
Theorem startup_mode_startup_calls (e : env) (db : string) (w w' : world)
    (r : Z) :
  db <> "running" ->
  startup_mode_startup e db w = (r, w') ->
  (r = -1 \/ r = 0 \/ r = 1) /\
  exists ex,
    (ex = 1 /\
     exists evs, Forall txe_event evs /\
       new_events w w' =
         Ev_call (C_xmldb_exists db) ex ::
         evs ++ [Ev_call (C_startup_commit db) r]) \/
    (ex <> 1 /\
     exists cr,
       (cr < 0 /\ r = -1 /\
        new_events w w' =
          [Ev_call (C_xmldb_exists db) ex; Ev_call (C_xmldb_create db) cr]) \/
       (0 <= cr /\
        exists evs, Forall txe_event evs /\
          new_events w w' =
            Ev_call (C_xmldb_exists db) ex :: Ev_call (C_xmldb_create db) cr ::
            evs ++ [Ev_call (C_startup_commit db) r])).
Proof.
  intros Hdb H. unfold startup_mode_startup in H.
  apply String.eqb_neq in Hdb. rewrite Hdb in H.
  run_in H. unfold db_present in H.
  assert (forall w2 pre,
    (let '(a, s') := startup_commit e db w2 in
     (if a <? 0 then fun s => (-1, s)
      else if a =? 0 then fun s => (0, s) else fun s => (1, s)) s') = (r, w') ->
    trace w2 = trace w ++ pre ->
    (r = -1 \/ r = 0 \/ r = 1) /\
    exists evs, Forall txe_event evs /\
      new_events w w' = pre ++ evs ++ [Ev_call (C_startup_commit db) r])
    as Htail.
  { intros w2 pre H2 Ht2.
    destruct (startup_commit e db w2) as [rc w3] eqn:Hc.
    apply txe_commit_spec in Hc. destruct Hc as (evs & Ht & Hev & Hrc & _).
    assert (rc = r /\ w3 = w') as [-> ->]
      by (destruct Hrc as [->|[->| ->]]; simpl in H2; by inversion H2).
    split; [tauto|]. exists evs. split; [done|].
    apply new_events_app. rewrite Ht, Ht2, <- !app_assoc. done. }
  destruct (fault e (C_xmldb_exists db)); simpl in H.
  - destruct (fault e (C_xmldb_create db)); simpl in H.
    + inversion H; subst; simpl. split; [tauto|].
      exists (-1). right. split; [lia|]. exists (-1). left.
      split; [lia|]. split; [done|]. by new_events_eq.
    + apply (Htail _ [Ev_call (C_xmldb_exists db) (-1);
                      Ev_call (C_xmldb_create db) 0]) in H;
        [|by simpl; rewrite <- !app_assoc].
      destruct H as (Hr & evs & Hev & Hnew). split; [done|].
      exists (-1). right. split; [lia|]. exists 0. right.
      split; [lia|]. by exists evs.
  - destruct (dbs w !! db) as [x|] eqn:Hx; simpl in H.
    + apply (Htail _ [Ev_call (C_xmldb_exists db) 1]) in H; [|done].
      destruct H as (Hr & evs & Hev & Hnew). split; [done|].
      exists 1. left. split; [done|]. by exists evs.
    + destruct (fault e (C_xmldb_create db)); simpl in H.
      * inversion H; subst; simpl. split; [tauto|].
        exists 0. right. split; [lia|]. exists (-1). left.
        split; [lia|]. split; [done|]. by new_events_eq.
      * rewrite Hx in H. simpl in H.
        apply (Htail _ [Ev_call (C_xmldb_exists db) 0;
                        Ev_call (C_xmldb_create db) 0]) in H;
          [|by simpl; rewrite <- !app_assoc].
        destruct H as (Hr & evs & Hev & Hnew). split; [done|].
        exists 0. right. split; [lia|]. exists 0. right.
        split; [lia|]. by exists evs.
Qed.

(** The startup database exists: no creation, and the commit is called. *)
Lemma startup_mode_startup_calls_witness :
  exists evs r,
    new_events (ex_world (ex_tree "a" "x" "7"))
      (snd (startup_mode_startup (ex_env no_fault) "startup"
              (ex_world (ex_tree "a" "x" "7")))) =
    Ev_call (C_xmldb_exists "startup") 1 ::
    evs ++ [Ev_call (C_startup_commit "startup") r].
Proof.
  pose (e := ex_env no_fault). pose (w := ex_world (ex_tree "a" "x" "7")).
  fold e w.
  destruct (startup_mode_startup_calls e "startup" w
              (snd (startup_mode_startup e "startup" w))
              (fst (startup_mode_startup e "startup" w)))
    as (_ & ex & [(-> & evs & _ & Hnew)|(Hne & cr & Hcr)]).
  - discriminate.
  - vm_compute. reflexivity.
  - by exists evs, (fst (startup_mode_startup e "startup" w)).
  - exfalso.
    destruct Hcr as [(_ & _ & Hnew)|(_ & evs & _ & Hnew)];
      vm_compute in Hnew; congruence.
Defined.

(** *** Further properties of the extra-XML step *)

(** [load_extraxml] returns -1, 0 or 1.  With a NULL file name it returns
    1 and does nothing.  Unless it returns 1 the datastore is as before;
    when it returns 1 for a file, the file parsed, its top element had a
    first child, and the given database now holds the merge of that child
    into its former content, the other databases being as before.  A
    failing [open] gives -1, sets [errno] and raises an OE_UNIX error. *)
Theorem load_extraxml_effect (e : env) (filename : option string)
    (db : string) (w w' : world) (r : Z) :
  load_extraxml e filename db w = (r, w') ->
  (r = -1 \/ r = 0 \/ r = 1) /\
  (filename = None -> r = 1 /\ w' = w) /\
  (r <> 1 -> dbs w' = dbs w) /\
  (forall fn, filename = Some fn -> r = 1 ->
     exists xt xt', file_xml e fn = Some xt /\ xml_rootchild xt 0 = Some xt' /\
       dbs w' = <[db := xml_modify e OP_MERGE (db_content (dbs w) db) xt']>
                  (dbs w)) /\
  (forall fn en, filename = Some fn -> fault e (C_open fn) = Some en ->
     r = -1 /\ errno w' = en /\
     new_events w w' = [Ev_call (C_open fn) (-1);
                        Ev_err OE_UNIX ("open(" +:+ fn +:+ ")")]).
Proof.
  intros H. unfold load_extraxml in H. run_in H.
  destruct filename as [fn|].
  2:{ inversion H; subst. repeat split; auto; try done; lia. }
  destruct (fault e (C_open fn)) as [en|] eqn:Hopen; simpl in H.
  { inversion H; subst; simpl. split; [tauto|]. split; [done|].
    split; [done|]. split; [intros; lia|].
    intros fn' en' Hfn Hen. inversion Hfn; subst fn'.
    rewrite Hopen in Hen. inversion Hen; subst en'.
    split; [done|]. split; [done|]. by new_events_eq. }
  assert (forall fn' (en : Z), Some fn = Some fn' ->
            fault e (C_open fn') = Some en -> False) as Hno
    by (intros fn' en' Hfn Hen; inversion Hfn; subst; congruence).
  destruct (file_xml e fn) as [xt|] eqn:Hfile; simpl in H.
  2:{ inversion H; subst; simpl. split; [tauto|]. split; [done|].
      split; [done|]. split; [intros; lia|].
      intros fn' en' Hfn Hen. exfalso. eauto. }
  destruct (xml_rootchild xt 0) as [xt'|] eqn:Hroot; simpl in H.
  2:{ inversion H; subst; simpl. split; [tauto|]. split; [done|].
      split; [done|]. split; [intros; lia|].
      intros fn' en' Hfn Hen. exfalso. eauto. }
  destruct (fault e (C_xmldb_put db OP_MERGE)); simpl in H.
  { inversion H; subst; simpl. split; [tauto|]. split; [done|].
    split; [done|]. split; [intros; lia|].
    intros fn' en' Hfn Hen. exfalso. eauto. }
  destruct (put_reject e db OP_MERGE xt'); simpl in H.
  { inversion H; subst; simpl. split; [tauto|]. split; [done|].
    split; [done|]. split; [intros; lia|].
    intros fn' en' Hfn Hen. exfalso. eauto. }
  inversion H; subst; simpl. split; [tauto|]. split; [done|].
  split; [done|]. split.
  - intros fn' Hfn _. inversion Hfn; subst fn'. by exists xt, xt'.
  - intros fn' en' Hfn Hen. exfalso. eauto.
Qed.

Lemma load_extraxml_effect_witness :
  dbs (snd (load_extraxml (ex_env no_fault) (Some "missing.xml") "tmp"
              (ex_world (ex_tree "a" "x" "7"))))
  = dbs (ex_world (ex_tree "a" "x" "7")).
Proof.
  pose (e := ex_env no_fault). pose (w := ex_world (ex_tree "a" "x" "7")).
  fold e w.
  destruct (load_extraxml_effect e (Some "missing.xml") "tmp" w
              (snd (load_extraxml e (Some "missing.xml") "tmp" w))
              (fst (load_extraxml e (Some "missing.xml") "tmp" w)))
    as (_ & _ & Hsame & _).
  - vm_compute. reflexivity.
  - apply Hsame. vm_compute. discriminate.
Defined.

Lemma plugin_reset_all_frame (ps : list plugin) (db : string) (w w' : world)
    (r : Z) :
  plugin_reset_all ps db w = (r, w') ->
  (forall db', db' <> db -> dbs w' !! db' = dbs w !! db') /\
  exists t, trace w' = trace w ++ t /\ Forall prepare_event t.
Proof.
  revert w. induction ps as [|p ps IH]; intros w H; simpl in H.
  - run_in H. inversion H; subst. split; [done|]. exists [].
    by rewrite app_nil_r.
  - destruct (ca_reset p) as [hook|]; [|by apply IH].
    run_in H.
    destruct (hook (db_content (dbs w) db)) as [x|].
    + apply IH in H. destruct H as (Hfr & t & Ht & Hall). simpl in Ht, Hfr.
      split.
      * intros db' Hne. rewrite Hfr by done. by rewrite lookup_insert_ne.
      * exists (Ev_plugin PH_reset (p_name p) :: t).
        split; [by rewrite Ht, <- app_assoc|]. by constructor.
    + inversion H; subst; simpl. split; [done|]. eexists.
      split; [reflexivity|]. by repeat constructor.
Qed.

(** The first part of [startup_extraxml] works on tmp only. *)
Lemma extraxml_prepare_frame (e : env) (file : option string) (w w1 : world)
    (r : Z) :
  extraxml_prepare e file w = (r, w1) ->
  (r = -1 \/ r = 0 \/ r = 1) /\
  (forall db, db <> tmp_db -> dbs w1 !! db = dbs w !! db) /\
  exists t, trace w1 = trace w ++ t /\ Forall prepare_event t.
Proof.
  intros H. unfold extraxml_prepare, clixon_plugin_reset, load_extraxml in H.
  run_in H.
  destruct (fault e (C_xmldb_db_reset tmp_db)); simpl in H.
  { inversion H; subst; simpl. split; [tauto|]. split; [done|].
    eexists. split; [reflexivity|]. by repeat constructor. }
  destruct (fault e (C_clixon_plugin_reset tmp_db)); simpl in H.
  { inversion H; subst; simpl. split; [tauto|].
    split; [by intros; rewrite lookup_insert_ne|]. eexists.
    split; [rewrite <- app_assoc; reflexivity|]. by repeat constructor. }
  destruct (plugin_reset_all (plugins e) tmp_db _) as [pr wp] eqn:Hp.
  apply plugin_reset_all_frame in Hp. destruct Hp as (Hfr & tp & Htp & Hallp).
  simpl in Htp, Hfr, H.
  assert (forall db, db <> tmp_db -> dbs wp !! db = dbs w !! db) as Hfr'
    by (intros db Hne; rewrite Hfr by done; by rewrite lookup_insert_ne).
  assert (forall l, Forall prepare_event l ->
            Forall prepare_event
              ([Ev_call (C_xmldb_db_reset tmp_db) 0] ++ tp ++
               Ev_call (C_clixon_plugin_reset tmp_db) pr :: l)) as Hpre.
  { intros l Hl. constructor; [done|]. apply Forall_app.
    split; [done|]. by constructor. }
  assert (forall l, (trace wp ++ [Ev_call (C_clixon_plugin_reset tmp_db) pr]) ++ l
            = trace w ++ [Ev_call (C_xmldb_db_reset tmp_db) 0] ++ tp ++
              Ev_call (C_clixon_plugin_reset tmp_db) pr :: l) as Hshape
    by (intros l; rewrite Htp, <- !app_assoc; reflexivity).
  destruct (pr <? 0); simpl in H.
  { inversion H; subst; simpl. split; [tauto|]. split; [done|]. eexists.
    split; [rewrite <- (app_nil_r (_ ++ [_])); apply Hshape|].
    apply Hpre. constructor. }
  destruct file as [fn|]; simpl in H.
  2:{ inversion H; subst; simpl. split; [tauto|]. split; [done|]. eexists.
      split; [rewrite <- (app_nil_r (_ ++ [_])); apply Hshape|].
      apply Hpre. constructor. }
  destruct (fault e (C_open fn)); simpl in H.
  { inversion H; subst; simpl. split; [tauto|]. split; [done|]. eexists.
    split; [rewrite <- !app_assoc, app_assoc; apply Hshape|].
    apply Hpre. by repeat constructor. }
  destruct (file_xml e fn) as [xt|]; simpl in H.
  2:{ inversion H; subst; simpl. split; [tauto|]. split; [done|]. eexists.
      split; [rewrite <- !app_assoc, app_assoc; apply Hshape|].
      apply Hpre. by repeat constructor. }
  destruct (xml_rootchild xt 0) as [xt'|]; simpl in H.
  2:{ inversion H; subst; simpl. split; [tauto|]. split; [done|]. eexists.
      split; [rewrite <- !app_assoc, app_assoc; apply Hshape|].
      apply Hpre. by repeat constructor. }
  destruct (fault e (C_xmldb_put tmp_db OP_MERGE)); simpl in H.
  { inversion H; subst; simpl. split; [tauto|]. split; [done|]. eexists.
    split; [rewrite <- !app_assoc, app_assoc; apply Hshape|].
    apply Hpre. by repeat constructor. }
  destruct (put_reject e tmp_db OP_MERGE xt'); simpl in H.
  { inversion H; subst; simpl. split; [tauto|]. split; [done|]. eexists.
    split; [rewrite <- !app_assoc, app_assoc; apply Hshape|].
    apply Hpre. by repeat constructor. }
  inversion H; subst; simpl. split; [tauto|].
  split; [intros db Hne; rewrite lookup_insert_ne by done; by apply Hfr'|].
  eexists.
  split; [rewrite <- !app_assoc, app_assoc; apply Hshape|].
  apply Hpre. by repeat constructor.
Qed.

(** The second part of [startup_extraxml] on every path: its events, its
    result, and the datastore, which changes only by a merge put that
    returned 1; a failed [db_merge] gives 0. *)
Lemma extraxml_merge_effect (e : env) (w1 w2 : world) (rv : Z) :
  extraxml_merge e w1 = (rv, w2) ->
  let put := C_xmldb_put "running" OP_MERGE in
  exists t, trace w2 = trace w1 ++ t /\ Forall merge_event t /\
    (rv = -1 \/ rv = 0 \/ rv = 1) /\
    ((dbs w2 = dbs w1 /\ ~ In (Ev_call put 1) t /\
      (rv = 1 -> ~ In (Ev_call (C_xmldb_get0 tmp_db) 0) t)) \/
     (rv = 1 /\ In (Ev_call put 1) t /\
      dbs w2 = <["running" :=
                  xml_modify e OP_MERGE (db_content (dbs w1) "running")
                    (db_content (dbs w1) tmp_db)]> (dbs w1))) /\
    (In (Ev_call (C_xmldb_get0 tmp_db) (-1)) t \/ In (Ev_call put (-1)) t ->
     rv = 0).
Proof.
  intros H put. subst put.
  unfold extraxml_merge, startup_validate, db_merge in H. run_in H.
  destruct (fault e (C_xmldb_get tmp_db)); simpl in H.
  { inversion H; subst; simpl. eexists. split; [reflexivity|].
    split; [by repeat constructor|]. split; [tauto|].
    split; [left|]; simpl; intuition discriminate. }
  destruct (xml_child_nr (db_content (dbs w1) tmp_db) =? 0); simpl in H.
  { inversion H; subst; simpl. eexists. split; [reflexivity|].
    split; [by repeat constructor|]. split; [tauto|].
    split; [left|]; simpl; intuition discriminate. }
  destruct (fault e (C_startup_validate tmp_db)); simpl in H.
  { inversion H; subst; simpl. eexists.
    split; [rewrite <- !app_assoc; reflexivity|].
    split; [by repeat constructor|]. split; [tauto|].
    split; [left|]; simpl; intuition discriminate. }
  destruct (validator e (db_content (dbs w1) tmp_db)); simpl in H.
  { inversion H; subst; simpl. eexists.
    split; [rewrite <- !app_assoc; reflexivity|].
    split; [by repeat constructor|]. split; [tauto|].
    split; [left|]; simpl; intuition discriminate. }
  destruct (xml_is_empty (upgraded e (db_content (dbs w1) tmp_db))); simpl in H.
  { inversion H; subst; simpl. eexists.
    split; [rewrite <- !app_assoc; reflexivity|].
    split; [by repeat constructor|]. split; [tauto|].
    split; [left|]; simpl; intuition discriminate. }
  destruct (fault e (C_xmldb_get0 tmp_db)); simpl in H.
  { inversion H; subst; simpl. eexists.
    split; [rewrite <- !app_assoc; reflexivity|].
    split; [by repeat constructor|]. split; [tauto|].
    split; [left|]; simpl; intuition discriminate. }
  destruct (fault e (C_xmldb_put "running" OP_MERGE)); simpl in H.
  { inversion H; subst; simpl. eexists.
    split; [rewrite <- !app_assoc; reflexivity|].
    split; [by repeat constructor|]. split; [tauto|].
    split; [left|]; simpl; intuition discriminate. }
  destruct (put_reject e "running" OP_MERGE (db_content (dbs w1) tmp_db));
    simpl in H.
  { inversion H; subst; simpl. eexists.
    split; [rewrite <- !app_assoc; reflexivity|].
    split; [by repeat constructor|]. split; [tauto|].
    split; [left|]; simpl; intuition discriminate. }
  inversion H; subst; simpl. eexists.
  split; [rewrite <- !app_assoc; reflexivity|].
  split; [by repeat constructor|]. split; [tauto|].
  split; [right|]; simpl; [|intuition discriminate].
  split; [done|]. split; [tauto|done].
Qed.

Lemma extraxml_done_effect (e : env) (rv r : Z) (w2 w' : world) :
  extraxml_done e rv w2 = (r, w') ->
  exists d, trace w' = trace w2 ++ [Ev_call (C_xmldb_delete tmp_db) d] /\
    (d = 0 -> r = rv /\ dbs w' = delete tmp_db (dbs w2)) /\
    (d <> 0 -> dbs w' = dbs w2) /\
    (r = rv \/ (r = -1 /\ d <> 0)).
Proof.
  intros H. unfold extraxml_done in H. run_in H.
  destruct (fault e (C_xmldb_delete tmp_db)) as [en|]; simpl in H.
  - destruct (en =? ENOENT) eqn:En; simpl in H; inversion H; subst; simpl;
      exists (-1); (split; [done|]); (split; [lia|]); (split; [done|]).
    + by left.
    + right. split; [done|lia].
  - inversion H; subst; simpl. exists 0. split; [done|].
    split; [done|]. split; [lia|]. by left.
Qed.

(** The whole step as its two parts and the deletion of tmp. *)
Lemma startup_extraxml_parts (e : env) (file : option string)
    (w w' : world) (r : Z) :
  startup_extraxml e file w = (r, w') ->
  exists rp w1 rv w2,
    extraxml_prepare e file w = (rp, w1) /\
    (rp = 1 /\ extraxml_merge e w1 = (rv, w2) \/
     rp <> 1 /\ rv = rp /\ w2 = w1) /\
    extraxml_done e rv w2 = (r, w').
Proof.
  intros H. unfold startup_extraxml, bind in H.
  destruct (extraxml_prepare e file w) as [rp w1] eqn:Hp.
  exists rp, w1.
  destruct (rp =? 1) eqn:E.
  - apply Z.eqb_eq in E. subst rp.
    destruct (extraxml_merge e w1) as [rv w2] eqn:Hm.
    exists rv, w2. split; [done|]. split; [by left|done].
  - apply Z.eqb_neq in E. exists rp, w1. split; [done|].
    split; [by right|done].
Qed.

(** [startup_extraxml] returns -1, 0 or 1, and on every path, failing or
    not, its last call is the deletion of tmp, which it calls once; when
    that deletion succeeds, tmp does not exist afterwards.  No call before
    it is a deletion. *)
Theorem startup_extraxml_deletes_tmp (e : env) (file : option string)
    (w w' : world) (r : Z) :
  startup_extraxml e file w = (r, w') ->
  (r = -1 \/ r = 0 \/ r = 1) /\
  exists t d,
    new_events w w' = t ++ [Ev_call (C_xmldb_delete tmp_db) d] /\
    (forall db d', ~ In (Ev_call (C_xmldb_delete db) d') t) /\
    (d = 0 -> dbs w' !! tmp_db = None).
Proof.
  intros H.
  destruct (startup_extraxml_parts e file w w' r H)
    as (rp & w1 & rv & w2 & Hp & Hm & Hd).
  apply extraxml_prepare_frame in Hp.
  destruct Hp as (Hrp & _ & t0 & Ht0 & Hall0).
  apply extraxml_done_effect in Hd. destruct Hd as (d & Ht' & Hd0 & _ & Hr).
  assert (exists tm, trace w2 = trace w1 ++ tm /\ Forall merge_event tm /\
            (rv = -1 \/ rv = 0 \/ rv = 1)) as (tm & Htm & Hallm & Hrv).
  { destruct Hm as [(_ & Hm)|(_ & -> & ->)].
    - apply extraxml_merge_effect in Hm.
      destruct Hm as (tm & Htm & Hall & Hrv & _). by exists tm.
    - exists []. by rewrite app_nil_r. }
  split; [destruct Hr as [->|[-> _]]; tauto|].
  exists (t0 ++ tm), d. split; [|split].
  - apply new_events_app. rewrite Ht', Htm, Ht0, <- !app_assoc. done.
  - intros db d' Hin. apply in_app_or in Hin.
    rewrite Forall_forall in Hall0, Hallm.
    destruct Hin as [Hin|Hin];
      [apply list_elem_of_In, Hall0 in Hin | apply list_elem_of_In, Hallm in Hin];
      done.
  - intros ->. destruct Hd0 as [_ ->]; [done|]. apply lookup_delete_eq.
Qed.

Lemma startup_extraxml_deletes_tmp_witness :
  exists t d,
    new_events (ex_world (ex_tree "a" "x" "7"))
      (snd (startup_extraxml (ex_env no_fault) (Some "bad.xml")
              (ex_world (ex_tree "a" "x" "7"))))
    = t ++ [Ev_call (C_xmldb_delete tmp_db) d].
Proof.
  pose (e := ex_env no_fault). pose (w := ex_world (ex_tree "a" "x" "7")).
  fold e w.
  destruct (startup_extraxml_deletes_tmp e (Some "bad.xml") w
              (snd (startup_extraxml e (Some "bad.xml") w))
              (fst (startup_extraxml e (Some "bad.xml") w)))
    as (_ & t & d & Hnew & _).
  - vm_compute. reflexivity.
  - by exists t, d.
Defined.

(** A [db_merge] that fails with an error, its read of tmp or its put into
    running returning -1, is reported by [startup_extraxml] as 0, the code
    for a failed validation, not as -1: the result is 0 unless the final
    deletion of tmp fails as well. *)
Theorem startup_extraxml_merge_error_is_0 (e : env) (file : option string)
    (w w' : world) (r : Z) :
  startup_extraxml e file w = (r, w') ->
  In (Ev_call (C_xmldb_get0 tmp_db) (-1)) (new_events w w') \/
  In (Ev_call (C_xmldb_put "running" OP_MERGE) (-1)) (new_events w w') ->
  r = 0 \/
  (r = -1 /\ exists d, d <> 0 /\
     In (Ev_call (C_xmldb_delete tmp_db) d) (new_events w w')).
Proof.
  intros H Hin.
  destruct (startup_extraxml_parts e file w w' r H)
    as (rp & w1 & rv & w2 & Hp & Hm & Hd).
  apply extraxml_prepare_frame in Hp.
  destruct Hp as (Hrp & _ & t0 & Ht0 & Hall0).
  apply extraxml_done_effect in Hd. destruct Hd as (d & Ht' & _ & _ & Hr).
  assert (exists tm, trace w2 = trace w1 ++ tm /\
            (In (Ev_call (C_xmldb_get0 tmp_db) (-1)) tm \/
             In (Ev_call (C_xmldb_put "running" OP_MERGE) (-1)) tm -> rv = 0))
    as (tm & Htm & Hrv).
  { destruct Hm as [(_ & Hm)|(_ & -> & ->)].
    - apply extraxml_merge_effect in Hm.
      destruct Hm as (tm & Htm & _ & _ & _ & Hrv). by exists tm.
    - exists []. rewrite app_nil_r. split; [done|]. simpl. tauto. }
  assert (new_events w w' = t0 ++ tm ++ [Ev_call (C_xmldb_delete tmp_db) d])
    as Hnew by (apply new_events_app; rewrite Ht', Htm, Ht0, <- !app_assoc; done).
  assert (rv = 0) as ->.
  { apply Hrv. rewrite Hnew in Hin. rewrite Forall_forall in Hall0.
    destruct Hin as [Hin|Hin]; [left|right];
      (apply in_app_or in Hin; destruct Hin as [Hin|Hin];
       [apply list_elem_of_In, Hall0 in Hin; simpl in Hin;
        exfalso; intuition discriminate|]);
      (apply in_app_or in Hin; destruct Hin as [Hin|Hin]; [done|]);
      simpl in Hin; intuition discriminate. }
  destruct Hr as [->|[-> Hd]]; [by left|]. right. split; [done|].
  exists d. split; [done|]. rewrite Hnew.
  apply in_or_app. right. apply in_or_app. right. by left.
Qed.

Lemma startup_extraxml_merge_error_is_0_witness :
  fst (startup_extraxml (ex_env put_fault) (Some "extra.xml")
         (ex_world (ex_tree "a" "x" "7"))) = 0.
Proof.
  pose (e := ex_env put_fault). pose (w := ex_world (ex_tree "a" "x" "7")).
  fold e w.
  destruct (startup_extraxml_merge_error_is_0 e (Some "extra.xml") w
              (snd (startup_extraxml e (Some "extra.xml") w))
              (fst (startup_extraxml e (Some "extra.xml") w)))
    as [Hr|[Hr _]].
  - vm_compute. reflexivity.
  - right. in_list.
  - exact Hr.
  - vm_compute in Hr. discriminate Hr.
Defined.

(** [startup_extraxml] changes running only through a merge put that
    returned 1: without one, and in particular whenever the result is 0,
    running is as before.  The databases other than running and tmp are
    never changed. *)
Theorem startup_extraxml_running_unchanged (e : env) (file : option string)
    (w w' : world) (r : Z) :
  startup_extraxml e file w = (r, w') ->
  (~ In (Ev_call (C_xmldb_put "running" OP_MERGE) 1) (new_events w w') ->
   dbs w' !! "running" = dbs w !! "running") /\
  (r = 0 -> dbs w' !! "running" = dbs w !! "running") /\
  (forall db, db <> "running" -> db <> tmp_db ->
     dbs w' !! db = dbs w !! db).
Proof.
  intros H.
  destruct (startup_extraxml_parts e file w w' r H)
    as (rp & w1 & rv & w2 & Hp & Hm & Hd).
  apply extraxml_prepare_frame in Hp.
  destruct Hp as (Hrp & Hfr0 & t0 & Ht0 & Hall0).
  apply extraxml_done_effect in Hd. destruct Hd as (d & Ht' & Hd0 & Hdn & Hr).
  assert (forall db, db <> tmp_db -> dbs w' !! db = dbs w2 !! db) as Hfr2.
  { intros db Hne. destruct (decide (d = 0)) as [Hz|Hz].
    - destruct (Hd0 Hz) as [_ ->]. by rewrite lookup_delete_ne.
    - by rewrite (Hdn Hz). }
  assert (exists tm, trace w2 = trace w1 ++ tm /\
            ((dbs w2 = dbs w1 /\
              ~ In (Ev_call (C_xmldb_put "running" OP_MERGE) 1) tm) \/
             (rv = 1 /\ In (Ev_call (C_xmldb_put "running" OP_MERGE) 1) tm /\
              exists x, dbs w2 = <["running" := x]> (dbs w1))))
    as (tm & Htm & Hcases).
  { destruct Hm as [(_ & Hm)|(_ & -> & ->)].
    - apply extraxml_merge_effect in Hm.
      destruct Hm as (tm & Htm & _ & _ & [(Hs & Hno & _)|(Hrv & Hin & Hs)] & _);
        exists tm; (split; [done|]); [by left|right].
      split; [done|]. split; [done|]. by eexists.
    - exists []. rewrite app_nil_r. split; [done|]. left.
      split; [done | by intros []]. }
  assert (new_events w w' = t0 ++ tm ++ [Ev_call (C_xmldb_delete tmp_db) d])
    as Hnew by (apply new_events_app; rewrite Ht', Htm, Ht0, <- !app_assoc; done).
  split; [|split].
  - intros Hno. rewrite Hfr2 by done.
    destruct Hcases as [(-> & _)|(_ & Hin & _)]; [by apply Hfr0|].
    exfalso. apply Hno. rewrite Hnew. apply in_or_app. right.
    apply in_or_app. by left.
  - intros ->. rewrite Hfr2 by done.
    destruct Hcases as [(-> & _)|(-> & _)]; [by apply Hfr0|].
    destruct Hr as [?|[? _]]; lia.
  - intros db Hrun Htmp. rewrite Hfr2 by done.
    destruct Hcases as [(-> & _)|(_ & _ & x & ->)]; [by apply Hfr0|].
    rewrite lookup_insert_ne by done. by apply Hfr0.
Qed.

Lemma startup_extraxml_running_unchanged_witness :
  dbs (snd (startup_extraxml (ex_env no_fault) (Some "bad.xml")
              (ex_world (ex_tree "a" "x" "7")))) !! "running"
  = Some (ex_tree "a" "x" "1").
Proof.
  pose (e := ex_env no_fault). pose (w := ex_world (ex_tree "a" "x" "7")).
  fold e w.
  destruct (startup_extraxml_running_unchanged e (Some "bad.xml") w
              (snd (startup_extraxml e (Some "bad.xml") w))
              (fst (startup_extraxml e (Some "bad.xml") w)))
    as (_ & Hzero & _).
  - vm_compute. reflexivity.
  - rewrite Hzero; vm_compute; reflexivity.
Defined.

End BackendSpec.

(* ===================================================================== *)
(** ** Properties of apps/restconf/restconf_err.c and restconf_main.c *)
(* ===================================================================== *)
Module RestconfSpec.
Import Xml Restconf.

#[local] Arguments xpath_first : simpl never.
#[local] Arguments err_code : simpl never.
#[local] Arguments err_body : simpl never.

Ltac rrun_in H :=
  unfold netconf_operation_not_supported_xml, netconf_operation_failed_xml,
    netconf_access_denied_xml, netconf_xml, restconf_notfound,
    restconf_unsupported_media_r, restconf_reply_header, restconf_reply_send,
    restconf_test, run_handler, attempt, clicon_err, rlog_add, bind, ret in H;
  simpl in H.

Ltac fault_cases H :=
  repeat match type of H with
         | context [rfault ?env ?n ?c] =>
             let E := fresh "Hf" in
             destruct (rfault env n c) eqn:E; simpl in H
         end.

Lemma new_replies_app (s s' : rstate) (l : list (Z * option string)) :
  replies s' = replies s ++ l -> new_replies s s' = l.
Proof. intros H. unfold new_replies. rewrite H. apply drop_app_length. Qed.

Lemma new_rlog_app (s s' : rstate) (l : list revent) :
  rlog s' = rlog s ++ l -> new_rlog s s' = l.
Proof. intros H. unfold new_rlog. rewrite H. apply drop_app_length. Qed.

(** Renaming the error element keeps its children, hence its message. *)
Lemma is_unauthorized_renamed (xerr : cxobj) (name : string) :
  is_unauthorized (xml_name_set xerr name) = is_unauthorized xerr.
Proof. by destruct xerr. Qed.

Lemma is_unauthorized_iff (xerr : cxobj) :
  is_unauthorized xerr = true <->
  exists xmsg, xpath_first (Some xerr) [Child "error-message"] = Some xmsg /\
               xml_body xmsg = Some unauthorized_msg.
Proof.
  unfold is_unauthorized. split.
  - destruct (xpath_first _ _) as [xmsg|]; [|discriminate].
    destruct (xml_body xmsg) as [mb|] eqn:Hb; [|discriminate].
    intros H. apply String.eqb_eq in H. subst. eauto.
  - intros (xmsg & -> & ->). apply String.eqb_refl.
Qed.

(** What [err_regenerate] leaves: no reply. *)
Lemma err_regenerate_replies (env : renv) (xerr : cxobj) (s s' : rstate)
    (o : option (cxobj * cxobj)) :
  err_regenerate env xerr s = (o, s') -> replies s' = replies s.
Proof.
  intros H. unfold err_regenerate in H. rrun_in H.
  fault_cases H; inversion H; subst; reflexivity.
Qed.

(** [api_return_err] sends at most one reply; it sends one exactly when it
    returns 0, and the status is the one [err_code] gives for the error
    it reports: the error passed in when that is an rpc-error with an
    error-tag. *)
Lemma api_return_err_replies (env : renv) (xerr : cxobj) (pretty : bool)
    (media : restconf_media) (code0 r : Z) (s s' : rstate) :
  api_return_err env xerr pretty media code0 s = (r, s') ->
  (r = -1 /\ replies s' = replies s) \/
  (r = 0 /\ exists xe xtag body,
     replies s' =
       replies s ++ [(err_code env (xml_name_set xe "error") xtag code0,
                      Some body)] /\
     (xml_name xerr = "rpc-error" ->
      forall xt0, xpath_first (Some xerr) [Child "error-tag"] = Some xt0 ->
                  xe = xerr /\ xtag = xt0)).
Proof.
  intros H. unfold api_return_err in H. unfold bind at 1 in H.
  destruct (attempt env R_cbuf_new s) as [ok s1] eqn:H1.
  assert (replies s1 = replies s) as Hr1
    by (rrun_in H1; inversion H1; subst; reflexivity).
  destruct ok; simpl in H.
  2:{ rrun_in H. inversion H; subst. left. by rewrite <- Hr1. }
  unfold bind at 1 in H.
  match type of H with
  | (let '(_, _) := ?m s1 in _) = _ => destruct (m s1) as [wf s2] eqn:H2
  end.
  assert (replies s2 = replies s1 /\
          forall xe xtag, wf = Some (xe, xtag) ->
            xml_name xerr = "rpc-error" ->
            forall xt0, xpath_first (Some xerr) [Child "error-tag"] = Some xt0 ->
                        xe = xerr /\ xtag = xt0) as [Hr2 Hwf].
  { destruct (String.eqb (xml_name xerr) "rpc-error") eqn:En; cbn [negb] in H2.
    - destruct (xpath_first (Some xerr) [Child "error-tag"]) as [xt|] eqn:Et.
      + unfold ret in H2. inversion H2; subst. split; [done|].
        intros xe xtag Heq _ xt0 Hxt0. inversion Heq; subst.
        split; [done|]. congruence.
      + split; [by eapply err_regenerate_replies|].
        intros; discriminate.
    - split; [by eapply err_regenerate_replies|].
      intros xe xtag _ Hn. apply String.eqb_neq in En. done. }
  destruct wf as [[xe xtag]|]; simpl in H.
  2:{ unfold ret in H. inversion H; subst. left. by rewrite Hr2, Hr1. }
  rrun_in H.
  destruct (rfault env (ticks s2) R_xml_name_set); simpl in H.
  { inversion H; subst. left. simpl. by rewrite Hr2, Hr1. }
  destruct (rfault env (S (ticks s2)) (R_reply_header "Content-Type"));
    simpl in H.
  { inversion H; subst. left. simpl. by rewrite Hr2, Hr1. }
  destruct (err_body env (xml_name_set xe "error") pretty media)
    as [[ser body]|]; simpl in H.
  2:{ inversion H; subst. left. simpl. by rewrite Hr2, Hr1. }
  destruct (rfault env (S (S (ticks s2))) ser); simpl in H.
  { inversion H; subst. left. simpl. by rewrite Hr2, Hr1. }
  destruct (rfault env (S (S (S (ticks s2)))) (R_reply_send _)); simpl in H.
  { inversion H; subst. left. simpl. by rewrite Hr2, Hr1. }
  inversion H; subst. right. split; [done|]. exists xe, xtag, body.
  simpl. rewrite Hr2, Hr1. split; [done|]. by apply Hwf.
Qed.

Lemma err_code_override (env : renv) (xerr xtag : cxobj) (code0 : Z) :
  code0 <> 0 -> err_code env xerr xtag code0 = code0.
Proof.
  intros H. unfold err_code. destruct (Z.eqb_spec code0 0); [done|reflexivity].
Qed.

(** In tag-mapped mode a tag that maps to 403 gives 401 for the
    unauthorized message and 403 otherwise. *)
Lemma err_code_403 (env : renv) (xerr xtag : cxobj) :
  restconf_err2code env (xml_body xtag) = 403 ->
  err_code env xerr xtag 0 = if is_unauthorized xerr then 401 else 403.
Proof. intros H. unfold err_code. rewrite H. reflexivity. Qed.

Lemma api_return_err0_replies (env : renv) (xerr : cxobj) (pretty : bool)
    (media : restconf_media) (code r : Z) (s s' : rstate) :
  code <> 0 ->
  api_return_err0 env xerr pretty media code s = (r, s') ->
  (r = -1 /\ replies s' = replies s) \/
  (r = 0 /\ exists body, replies s' = replies s ++ [(code, Some body)]).
Proof.
  intros Hc H. unfold api_return_err0 in H.
  destruct (xpath_first (Some xerr) [Child "rpc-error"]) as [xe|].
  2:{ rrun_in H. inversion H; subst. by left. }
  unfold bind in H.
  destruct (api_return_err env xe pretty media code s) as [r1 s1] eqn:H1.
  apply api_return_err_replies in H1.
  destruct H1 as [[-> Hr]|(-> & xe' & xtag & body & Hr & _)]; simpl in H;
    unfold ret in H; inversion H; subst.
  - by left.
  - right. split; [done|]. exists body.
    by rewrite Hr, err_code_override.
Qed.

(** C8 (code): every reply [restconf_not_acceptable] sends has status 415,
    never 406, and a run that returns 0 has sent two replies, the error
    document and an empty one. *)
Theorem restconf_not_acceptable_replies (env : renv) (pretty : bool)
    (media : restconf_media) (s s' : rstate) (r : Z) :
  restconf_not_acceptable env pretty media s = (r, s') ->
  (forall code body, In (code, body) (new_replies s s') -> code = 415) /\
  (r = 0 -> exists body, new_replies s s' = [(415, Some body); (415, None)]).
Proof.
  intros H. unfold restconf_not_acceptable in H. unfold bind at 1 in H.
  destruct (netconf_operation_not_supported_xml env "protocol"
              "Unacceptable output encoding" s) as [x s1] eqn:H1.
  assert (replies s1 = replies s) as Hr1.
  { rrun_in H1. destruct (rfault env (ticks s) _); inversion H1; subst; done. }
  destruct x as [xerr|].
  2:{ unfold ret in H. inversion H; subst.
      rewrite (new_replies_app s s' []) by (by rewrite Hr1, app_nil_r).
      split; [intros ? ? []|lia]. }
  unfold bind at 1 in H.
  destruct (api_return_err0 env xerr pretty media 415 s1) as [r1 s2] eqn:H2.
  apply api_return_err0_replies in H2; [|lia].
  destruct H2 as [[-> Hr2]|(-> & body & Hr2)]; simpl in H.
  { unfold ret in H. inversion H; subst.
    rewrite (new_replies_app s s' []) by (by rewrite Hr2, Hr1, app_nil_r).
    split; [intros ? ? []|lia]. }
  rrun_in H. destruct (rfault env (ticks s2) (R_reply_send 415)); simpl in H;
    inversion H; subst; simpl.
  - rewrite (new_replies_app _ _ [(415, Some body)])
      by (simpl; by rewrite Hr2, Hr1).
    split; [|lia]. intros code b [Heq|[]]. congruence.
  - rewrite (new_replies_app _ _ [(415, Some body); (415, None)])
      by (simpl; by rewrite Hr2, Hr1, <- app_assoc).
    split; [|by eauto]. intros code b [Heq|[Heq|[]]]; congruence.
Qed.

(** The run the claim fails on: nothing fails, JSON is asked for, and two
    replies with status 415 leave. *)
Example restconf_not_acceptable_run :
  fst (restconf_not_acceptable ex_renv false YANG_DATA_JSON rstate0) = 0 /\
  map fst (replies (snd (restconf_not_acceptable ex_renv false YANG_DATA_JSON
                           rstate0))) = [415; 415].
Proof. by vm_compute. Qed.

(** The sibling [restconf_unsupported_media] sends its one reply with the
    status it documents. *)
Lemma restconf_unsupported_media_replies (env : renv) (pretty : bool)
    (media : restconf_media) (s s' : rstate) :
  restconf_unsupported_media env pretty media s = (0, s') ->
  exists body, new_replies s s' = [(415, Some body)].
Proof.
  intros H. unfold restconf_unsupported_media in H. unfold bind at 1 in H.
  destruct (netconf_operation_not_supported_xml env "protocol"
              "Unsupported Media Type" s) as [x s1] eqn:H1.
  assert (replies s1 = replies s) as Hr1.
  { rrun_in H1. destruct (rfault env (ticks s) _); inversion H1; subst; done. }
  destruct x as [xerr|]; [|unfold ret in H; inversion H].
  unfold bind at 1 in H.
  destruct (api_return_err0 env xerr pretty media 415 s1) as [r1 s2] eqn:H2.
  apply api_return_err0_replies in H2; [|lia].
  destruct H2 as [[-> Hr2]|(-> & body & Hr2)]; simpl in H;
    unfold ret in H; inversion H; subst.
  exists body. apply new_replies_app. by rewrite Hr2, Hr1.
Qed.

Lemma restconf_not_acceptable_replies_witness :
  exists body,
    new_replies rstate0
      (snd (restconf_not_acceptable ex_renv true YANG_DATA_XML rstate0)) =
    [(415, Some body); (415, None)].
Proof.
  destruct (restconf_not_acceptable_replies ex_renv true YANG_DATA_XML rstate0
              (snd (restconf_not_acceptable ex_renv true YANG_DATA_XML rstate0))
              (fst (restconf_not_acceptable ex_renv true YANG_DATA_XML rstate0)))
    as [_ Htwo]; [vm_compute; reflexivity|].
  apply Htwo. vm_compute. reflexivity.
Defined.

(** The reply of [api_return_err] in tag-mapped mode for a tag that maps
    to 403. *)
Lemma api_return_err_403 (env : renv) (xerr xtag : cxobj) (pretty : bool)
    (media : restconf_media) (s s' : rstate) (r : Z) :
  xml_name xerr = "rpc-error" ->
  xpath_first (Some xerr) [Child "error-tag"] = Some xtag ->
  restconf_err2code env (xml_body xtag) = 403 ->
  api_return_err env xerr pretty media 0 s = (r, s') ->
  (r = -1 /\ new_replies s s' = []) \/
  (r = 0 /\ exists body,
     new_replies s s' =
       [(if is_unauthorized xerr then 401 else 403, Some body)]).
Proof.
  intros Hn Ht Hc H. apply api_return_err_replies in H.
  destruct H as [[-> Hr]|(-> & xe & xt & body & Hr & Hwf)].
  - left. split; [done|]. apply new_replies_app. by rewrite app_nil_r.
  - right. split; [done|]. exists body. apply new_replies_app.
    destruct (Hwf Hn xtag Ht) as [-> ->].
    by rewrite Hr, (err_code_403 _ _ _ Hc), is_unauthorized_renamed.
Qed.

Ltac no_auth_event H Hin :=
  inversion H; subst;
  exfalso;
  erewrite new_rlog_app in Hin by (simpl; rewrite <- ?app_assoc; reflexivity);
  simpl in Hin; intuition discriminate.

(** A run of [api_restconf] that reached the authentication and was not
    authenticated ends in [api_return_err] on the access-denied error with
    the unauthorized message. *)
Lemma api_restconf_unauthenticated (env : renv) (rq : request) (s s' : rstate)
    (r : Z) :
  api_restconf env rq s = (r, s') ->
  In (RE_call R_plugin_auth 0) (new_rlog s s') ->
  (r = -1 /\ new_replies s s' = []) \/
  exists media s1,
    replies s1 = replies s /\
    (let '(r1, s2) := api_return_err env access_denied_error (opt_pretty env)
                        media 0 s1 in
     s' = s2 /\ r = (if r1 <? 0 then -1 else 0)).
Proof.
  intros H Hin. unfold api_restconf, api_dispatch in H.
  destruct (media_out_of (req_accept rq)) as [media|].
  2:{ rrun_in H. destruct (rfault env (ticks s) _); no_auth_event H Hin. }
  rrun_in H.
  destruct (rfault env (ticks s) R_strsep); simpl in H;
    [no_auth_event H Hin|].
  destruct (length (clicon_strsep slash (req_path rq)) <? 2)%nat; simpl in H.
  { destruct (rfault env (S (ticks s)) _); no_auth_event H Hin. }
  destruct (negb (nth 0 (clicon_strsep slash (req_path rq)) EmptyString
                  =? EmptyString)%string); simpl in H.
  { destruct (rfault env (S (ticks s)) _); no_auth_event H Hin. }
  destruct (negb (nth 1 (clicon_strsep slash (req_path rq)) EmptyString
                  =? RESTCONF_API)%string); simpl in H.
  { destruct (rfault env (S (ticks s)) _); no_auth_event H Hin. }
  destruct (length (clicon_strsep slash (req_path rq)) =? 2)%nat; simpl in H;
    [no_auth_event H Hin|].
  destruct (rfault env (S (ticks s)) R_str2cvec); simpl in H;
    [no_auth_event H Hin|].
  destruct (rfault env (S (S (ticks s))) R_str2cvec); simpl in H;
    [no_auth_event H Hin|].
  destruct (rfault env (S (S (S (ticks s)))) R_readdata); simpl in H;
    [no_auth_event H Hin|].
  destruct (rfault env (S (S (S (S (ticks s))))) R_str2cvec); simpl in H;
    [no_auth_event H Hin|].
  destruct (plugin_auth env <? 0) eqn:Hneg; simpl in H.
  { left. inversion H; subst. split; [done|].
    apply new_replies_app. by rewrite app_nil_r. }
  destruct (plugin_auth env =? 0) eqn:Hz; simpl in H.
  2:{ exfalso. apply Z.eqb_neq in Hz.
      assert (exists l, rlog s' = rlog s ++ l /\
                ~ In (RE_call R_plugin_auth 0) l) as (l & Hl & Hnl).
      { repeat match type of H with
               | context [if ?b then _ else _] => destruct b; simpl in H
               | context [rfault ?e ?n ?c] =>
                   destruct (rfault e n c); simpl in H
               end;
          inversion H; subst; simpl; eexists;
          (split; [rewrite <- ?app_assoc; reflexivity|]);
          simpl; intros Hx;
          repeat (destruct Hx as [Hx|Hx]; [inversion Hx; congruence|]);
          exact Hx. }
      rewrite (new_rlog_app _ _ _ Hl) in Hin. done. }
  destruct (rfault env (S (S (S (S (S (ticks s)))))) (R_netconf_xml _));
    simpl in H.
  { left. inversion H; subst. split; [done|].
    apply new_replies_app. by rewrite app_nil_r. }
  change (xpath_first (Some (netconf_rpc_error "access-denied" "protocol"
                               unauthorized_msg)) [Desc "rpc-error"])
    with (Some access_denied_error) in H.
  simpl in H. fold access_denied_error in H. right.
  match type of H with
  | context [api_return_err _ _ _ _ _ ?x] => exists media, x
  end.
  split; [reflexivity|].
  destruct (api_return_err env access_denied_error (opt_pretty env) media 0 _)
    as [r1 s2] eqn:H1.
  destruct (r1 <? 0); inversion H; subst; done.
Qed.

(** C10.  (1) When [api_return_err] is called with code 0 on an rpc-error
    whose error-tag maps to 403, every reply it sends has status 401 or
    403, and 401 exactly when the first error-message of the error has the
    body "The requested URL was unauthorized"; a call that returns 0 has
    sent exactly one reply.  (2) With access-denied mapped to 403, a run
    of [api_restconf] in which the authentication was called and returned
    0 sends no reply other than with status 401, and exactly one such
    reply when it returns 0. *)
Theorem api_return_err_unauthorized_401 (env : renv) :
  (forall (xerr xtag : cxobj) (pretty : bool) (media : restconf_media)
          (s s' : rstate) (r : Z),
     xml_name xerr = "rpc-error" ->
     xpath_first (Some xerr) [Child "error-tag"] = Some xtag ->
     restconf_err2code env (xml_body xtag) = 403 ->
     api_return_err env xerr pretty media 0 s = (r, s') ->
     (forall code body, In (code, body) (new_replies s s') ->
        (code = 401 \/ code = 403) /\
        (code = 401 <->
         exists xmsg,
           xpath_first (Some xerr) [Child "error-message"] = Some xmsg /\
           xml_body xmsg = Some unauthorized_msg)) /\
     (r = 0 -> exists code body, new_replies s s' = [(code, body)])) /\
  (forall (rq : request) (s s' : rstate) (r : Z),
     restconf_err2code env (Some "access-denied") = 403 ->
     api_restconf env rq s = (r, s') ->
     In (RE_call R_plugin_auth 0) (new_rlog s s') ->
     (forall code body, In (code, body) (new_replies s s') -> code = 401) /\
     (r = 0 -> exists body, new_replies s s' = [(401, body)])).
Proof.
  split.
  - intros xerr xtag pretty media s s' r Hn Ht Hc H.
    apply (api_return_err_403 env xerr xtag) in H; [|done..].
    destruct H as [[-> ->]|(-> & body & ->)].
    + split; [intros ? ? []|lia].
    + split; [|by eauto].
      intros code b [Heq|[]]. inversion Heq; subst.
      rewrite <- is_unauthorized_iff.
      destruct (is_unauthorized xerr); split; try tauto; try lia;
        split; (congruence || lia).
  - intros rq s s' r Hc H Hin.
    apply api_restconf_unauthenticated in H; [|done].
    destruct H as [[-> ->]|(media & s1 & Hs1 & H)].
    { split; [intros ? ? []|lia]. }
    destruct (api_return_err env access_denied_error (opt_pretty env) media 0 s1)
      as [r1 s2] eqn:H1.
    destruct H as [-> ->].
    apply (api_return_err_403 env access_denied_error
             (xml_leaf "error-tag" "access-denied")) in H1;
      [|reflexivity|reflexivity|exact Hc].
    assert (new_replies s s2 = new_replies s1 s2) as ->
      by (unfold new_replies; by rewrite Hs1).
    destruct H1 as [[-> ->]|(-> & body & ->)]; simpl.
    + split; [intros ? ? []|lia].
    + change (is_unauthorized access_denied_error) with true. simpl.
      split; [|by eauto]. intros code b [Heq|[]]. congruence.
Qed.

(** An access-denied error with another message is answered 403; an
    unauthenticated GET of /restconf/data is answered 401. *)
Lemma api_return_err_unauthorized_401_witness :
  (exists body,
     new_replies rstate0
       (snd (api_return_err ex_renv
               (CxElmnt "rpc-error"
                  [xml_leaf "error-tag" "access-denied";
                   xml_leaf "error-message" "default deny"])
               false YANG_DATA_JSON 0 rstate0)) = [(403, body)]) /\
  (exists body,
     new_replies rstate0
       (snd (api_restconf ex_renv (mkRequest "/restconf/data" None) rstate0))
     = [(401, body)]).
Proof.
  destruct (api_return_err_unauthorized_401 ex_renv) as [Herr Hmain]. split.
  - pose (xerr := CxElmnt "rpc-error"
                    [xml_leaf "error-tag" "access-denied";
                     xml_leaf "error-message" "default deny"]).
    fold xerr.
    destruct (Herr xerr (xml_leaf "error-tag" "access-denied") false
                YANG_DATA_JSON rstate0
                (snd (api_return_err ex_renv xerr false YANG_DATA_JSON 0 rstate0))
                (fst (api_return_err ex_renv xerr false YANG_DATA_JSON 0 rstate0)))
      as [Hcode Hone];
      [reflexivity | reflexivity | reflexivity | vm_compute; reflexivity |].
    destruct Hone as (code & body & Heq); [vm_compute; reflexivity|].
    exists body. rewrite Heq. f_equal. f_equal.
    destruct (Hcode code body) as [[->| ->] Hiff];
      [rewrite Heq; by left | | reflexivity].
    exfalso. destruct Hiff as [Hiff _].
    destruct (Hiff eq_refl) as (xmsg & Hx & Hb).
    vm_compute in Hx. inversion Hx; subst. vm_compute in Hb. discriminate Hb.
  - destruct (Hmain (mkRequest "/restconf/data" None) rstate0
                (snd (api_restconf ex_renv (mkRequest "/restconf/data" None)
                        rstate0))
                (fst (api_restconf ex_renv (mkRequest "/restconf/data" None)
                        rstate0)))
      as [_ Hone];
      [reflexivity | vm_compute; reflexivity
      | vm_compute; repeat (first [left; reflexivity | right]) |].
    apply Hone. vm_compute. reflexivity.
Defined.

(** *** Further properties of restconf_err.c *)

Lemma err_regenerate_result (env : renv) (xerr xe xtag : cxobj)
    (s s' : rstate) :
  err_regenerate env xerr s = (Some (xe, xtag), s') ->
  headers s' = headers s /\
  xpath_first (Some (internal_error env xerr)) [Child "rpc-error"] = Some xe /\
  xpath_first (Some xe) [Child "error-tag"] = Some xtag.
Proof.
  intros H. unfold err_regenerate in H. rrun_in H.
  fault_cases H; try discriminate.
  by inversion H; subst.
Qed.

(** A call of [api_return_err] that returns 0: the reply, the header, the
    body, and the error reported, which is the one passed in when that is
    well formed and the generated internal error otherwise. *)
Lemma api_return_err_sent (env : renv) (xerr : cxobj) (pretty : bool)
    (media : restconf_media) (code0 : Z) (s s' : rstate) :
  api_return_err env xerr pretty media code0 s = (0, s') ->
  exists xe xtag ser body,
    replies s' =
      replies s ++ [(err_code env (xml_name_set xe "error") xtag code0,
                     Some body)] /\
    headers s' = headers s ++ [("Content-Type", restconf_media_int2str media)] /\
    err_body env (xml_name_set xe "error") pretty media = Some (ser, body) /\
    ((xml_name xerr = "rpc-error" /\ xe = xerr /\
      xpath_first (Some xerr) [Child "error-tag"] = Some xtag) \/
     ((xml_name xerr <> "rpc-error" \/
       xpath_first (Some xerr) [Child "error-tag"] = None) /\
      xpath_first (Some (internal_error env xerr)) [Child "rpc-error"] = Some xe /\
      xpath_first (Some xe) [Child "error-tag"] = Some xtag)).
Proof.
  intros H. unfold api_return_err in H. unfold bind at 1 in H.
  destruct (attempt env R_cbuf_new s) as [ok s1] eqn:H1.
  assert (replies s1 = replies s /\ headers s1 = headers s) as [Hr1 Hh1]
    by (rrun_in H1; by inversion H1; subst).
  destruct ok; simpl in H.
  2:{ rrun_in H. discriminate H. }
  unfold bind at 1 in H.
  match type of H with
  | (let '(_, _) := ?m s1 in _) = _ => destruct (m s1) as [wf s2] eqn:H2
  end.
  destruct wf as [[xe xtag]|]; simpl in H; [|unfold ret in H; discriminate H].
  assert (replies s2 = replies s1 /\ headers s2 = headers s1 /\
          ((xml_name xerr = "rpc-error" /\ xe = xerr /\
            xpath_first (Some xerr) [Child "error-tag"] = Some xtag) \/
           ((xml_name xerr <> "rpc-error" \/
             xpath_first (Some xerr) [Child "error-tag"] = None) /\
            xpath_first (Some (internal_error env xerr)) [Child "rpc-error"]
              = Some xe /\
            xpath_first (Some xe) [Child "error-tag"] = Some xtag)))
    as (Hr2 & Hh2 & Hwf).
  { destruct (String.eqb (xml_name xerr) "rpc-error") eqn:En; cbn [negb] in H2.
    - apply String.eqb_eq in En.
      destruct (xpath_first (Some xerr) [Child "error-tag"]) as [xt|] eqn:Et.
      + unfold ret in H2. inversion H2; subst. split; [done|]. split; [done|].
        by left.
      + pose proof (err_regenerate_replies _ _ _ _ _ H2) as Hr.
        apply err_regenerate_result in H2. destruct H2 as (Hh & Hx & Ht).
        split; [done|]. split; [done|]. right. split; [by right|done].
    - apply String.eqb_neq in En.
      pose proof (err_regenerate_replies _ _ _ _ _ H2) as Hr.
      apply err_regenerate_result in H2. destruct H2 as (Hh & Hx & Ht).
      split; [done|]. split; [done|]. right. split; [by left|done]. }
  rrun_in H.
  destruct (rfault env (ticks s2) R_xml_name_set); simpl in H;
    [discriminate H|].
  destruct (rfault env (S (ticks s2)) (R_reply_header "Content-Type"));
    simpl in H; [discriminate H|].
  destruct (err_body env (xml_name_set xe "error") pretty media)
    as [[ser body]|] eqn:Hb; simpl in H; [|discriminate H].
  destruct (rfault env (S (S (ticks s2))) ser); simpl in H; [discriminate H|].
  destruct (rfault env (S (S (S (ticks s2)))) (R_reply_send _)); simpl in H;
    [discriminate H|].
  inversion H; subst. exists xe, xtag, ser, body. simpl.
  by rewrite Hr2, Hr1, Hh2, Hh1.
Qed.

Lemma err_code_nonneg (env : renv) (xerr xtag : cxobj) :
  0 <= err_code env xerr xtag 0.
Proof.
  unfold err_code. simpl.
  destruct (Z.ltb_spec (restconf_err2code env (xml_body xtag)) 0); simpl; [lia|].
  destruct (Z.eqb_spec (restconf_err2code env (xml_body xtag)) 403); [|lia].
  destruct (is_unauthorized xerr); lia.
Qed.

(** In tag-mapped mode, for an error that does not carry the unauthorized
    message, or whose tag does not map to 403, the status is the table's,
    with 500 for a tag the table does not know. *)
Lemma err_code_table (env : renv) (xerr xtag : cxobj) :
  restconf_err2code env (xml_body xtag) <> 403 \/ is_unauthorized xerr = false ->
  err_code env xerr xtag 0 =
    if restconf_err2code env (xml_body xtag) <? 0 then 500
    else restconf_err2code env (xml_body xtag).
Proof.
  intros H. unfold err_code. simpl.
  destruct (Z.ltb_spec (restconf_err2code env (xml_body xtag)) 0); simpl;
    [done|].
  destruct (Z.eqb_spec (restconf_err2code env (xml_body xtag)) 403) as [E|];
    [|done].
  destruct H as [H| ->]; [done|]. done.
Qed.

(** [api_return_err] returns 0 or -1 and sends at most one reply: none
    when it returns -1, exactly one when it returns 0.  That reply has a
    body, the Content-Type header of the given media was added for it, the
    media is JSON or XML, and its status is [code0] when that is not 0 and
    otherwise a code that is not negative. *)
Theorem api_return_err_one_reply (env : renv) (xerr : cxobj) (pretty : bool)
    (media : restconf_media) (code0 r : Z) (s s' : rstate) :
  api_return_err env xerr pretty media code0 s = (r, s') ->
  (r = 0 \/ r = -1) /\
  (r = -1 -> new_replies s s' = []) /\
  (r = 0 ->
     exists code body,
       new_replies s s' = [(code, Some body)] /\
       (code0 <> 0 -> code = code0) /\
       (code0 = 0 -> 0 <= code) /\
       headers s' = headers s ++ [("Content-Type", restconf_media_int2str media)] /\
       (media = YANG_DATA_JSON \/ media = YANG_DATA_XML)).
Proof.
  intros H.
  destruct (api_return_err_replies _ _ _ _ _ _ _ _ H) as [[-> Hr]|[-> _]].
  - split; [by right|]. split; [|lia]. intros _.
    apply new_replies_app. by rewrite app_nil_r.
  - split; [by left|]. split; [lia|]. intros _.
    apply api_return_err_sent in H.
    destruct H as (xe & xtag & ser & body & Hr & Hh & Hb & _).
    exists (err_code env (xml_name_set xe "error") xtag code0), body.
    split; [by apply new_replies_app|].
    split; [apply err_code_override|].
    split; [intros ->; apply err_code_nonneg|].
    split; [done|].
    unfold err_body in Hb. destruct media; [by left|by right|discriminate].
Qed.

Lemma api_return_err_one_reply_witness :
  exists code body,
    new_replies rstate0
      (snd (api_return_err ex_renv access_denied_error true YANG_DATA_XML 418
              rstate0)) = [(code, Some body)] /\
    code = 418.
Proof.
  destruct (api_return_err_one_reply ex_renv access_denied_error true
              YANG_DATA_XML 418
              (fst (api_return_err ex_renv access_denied_error true
                      YANG_DATA_XML 418 rstate0))
              rstate0
              (snd (api_return_err ex_renv access_denied_error true
                      YANG_DATA_XML 418 rstate0)))
    as (_ & _ & Hone); [vm_compute; reflexivity|].
  destruct Hone as (code & body & Hnew & Hcode & _); [vm_compute; reflexivity|].
  exists code, body. split; [exact Hnew|]. apply Hcode. lia.
Defined.

(** In tag-mapped mode (code 0), for an rpc-error with an error-tag that
    the table does not map to 403, every reply [api_return_err] sends has
    the status the table gives for the body of the tag, and 500 when the
    table does not know it (a negative entry). *)
Theorem api_return_err_tag_status (env : renv) (xerr xtag : cxobj)
    (pretty : bool) (media : restconf_media) (s s' : rstate) (r : Z) :
  xml_name xerr = "rpc-error" ->
  xpath_first (Some xerr) [Child "error-tag"] = Some xtag ->
  restconf_err2code env (xml_body xtag) <> 403 ->
  api_return_err env xerr pretty media 0 s = (r, s') ->
  forall code body, In (code, body) (new_replies s s') ->
    code = if restconf_err2code env (xml_body xtag) <? 0 then 500
           else restconf_err2code env (xml_body xtag).
Proof.
  intros Hn Ht Hc H code body Hin.
  destruct (api_return_err_replies _ _ _ _ _ _ _ _ H)
    as [[-> Hr]|(-> & xe & xt & b & Hr & Hwf)].
  - rewrite (new_replies_app s s' []) in Hin by (by rewrite app_nil_r).
    destruct Hin.
  - destruct (Hwf Hn xtag Ht) as [-> ->].
    rewrite (new_replies_app _ _ _ Hr) in Hin.
    destruct Hin as [Heq|[]]. inversion Heq; subst.
    apply err_code_table. by left.
Qed.

Lemma api_return_err_tag_status_witness :
  fst (hd (0, None)
         (new_replies rstate0
            (snd (api_return_err ex_renv
                    (CxElmnt "rpc-error" [xml_leaf "error-tag" "lock-denied"])
                    false YANG_DATA_JSON 0 rstate0)))) = 412.
Proof.
  pose (xerr := CxElmnt "rpc-error" [xml_leaf "error-tag" "lock-denied"]).
  fold xerr.
  pose (s' := snd (api_return_err ex_renv xerr false YANG_DATA_JSON 0 rstate0)).
  fold s'.
  apply (api_return_err_tag_status ex_renv xerr
           (xml_leaf "error-tag" "lock-denied") false YANG_DATA_JSON rstate0
           s' (fst (api_return_err ex_renv xerr false YANG_DATA_JSON 0 rstate0))
           eq_refl eq_refl
           ltac:(vm_compute; discriminate) ltac:(vm_compute; reflexivity)
           (fst (hd (0, None) (new_replies rstate0 s')))
           (snd (hd (0, None) (new_replies rstate0 s')))).
  vm_compute. left. reflexivity.
Defined.

(** An error message that is not an rpc-error, or has no error-tag, is
    not sent: when [api_return_err] returns 0 for it, the one reply holds
    the serialization of the operation-failed error generated in its place
    (type application, the message "Internal error, system returned
    invalid error message: " followed by the text of the input), and in
    tag-mapped mode its status is the table's for operation-failed. *)
Theorem api_return_err_malformed (env : renv) (xerr : cxobj) (pretty : bool)
    (media : restconf_media) (code0 : Z) (s s' : rstate) :
  xml_name xerr <> "rpc-error" \/
  xpath_first (Some xerr) [Child "error-tag"] = None ->
  api_return_err env xerr pretty media code0 s = (0, s') ->
  exists xe ser body,
    xpath_first (Some (internal_error env xerr)) [Child "rpc-error"] = Some xe /\
    err_body env (xml_name_set xe "error") pretty media = Some (ser, body) /\
    new_replies s s' =
      [(if code0 =? 0 then
          (if restconf_err2code env (Some "operation-failed") <? 0 then 500
           else restconf_err2code env (Some "operation-failed"))
        else code0, Some body)].
Proof.
  intros Hbad H. apply api_return_err_sent in H.
  destruct H as (xe & xtag & ser & body & Hr & _ & Hb & Hwf).
  destruct Hwf as [(Hn & _ & Ht)|(_ & Hx & Ht)].
  { exfalso. destruct Hbad as [Hbad|Hbad]; congruence. }
  exists xe, ser, body. split; [done|]. split; [done|].
  apply new_replies_app. rewrite Hr. do 3 f_equal.
  assert (xe = CxElmnt "rpc-error"
                 [xml_leaf "error-type" "application";
                  xml_leaf "error-tag" "operation-failed";
                  xml_leaf "error-severity" "error";
                  xml_leaf "error-message"
                    ("Internal error, system returned invalid error message: "
                     +:+ netconf_err2cb env xerr)]) as ->
    by (cbv in Hx; cbv; congruence).
  assert (xtag = xml_leaf "error-tag" "operation-failed") as ->
    by (cbv in Ht; cbv; congruence).
  destruct (Z.eqb_spec code0 0) as [->|Hne]; [|by apply err_code_override].
  rewrite err_code_table; [done|]. by right.
Qed.

Lemma api_return_err_malformed_witness :
  exists body,
    new_replies rstate0
      (snd (api_return_err ex_renv (CxElmnt "garbage" []) false YANG_DATA_JSON 0
              rstate0)) = [(500, Some body)].
Proof.
  destruct (api_return_err_malformed ex_renv (CxElmnt "garbage" []) false
              YANG_DATA_JSON 0 rstate0
              (snd (api_return_err ex_renv (CxElmnt "garbage" []) false
                      YANG_DATA_JSON 0 rstate0)))
    as (xe & ser & body & _ & _ & Hnew).
  - left. vm_compute. discriminate.
  - vm_compute. reflexivity.
  - exists body. exact Hnew.
Defined.

(** With a media that is neither JSON nor XML, [api_return_err] returns
    -1 and sends no reply, whatever the error and the code. *)
Theorem api_return_err_invalid_media (env : renv) (xerr : cxobj)
    (pretty : bool) (n code0 r : Z) (s s' : rstate) :
  api_return_err env xerr pretty (MEDIA_OTHER n) code0 s = (r, s') ->
  r = -1 /\ new_replies s s' = [].
Proof.
  intros H.
  destruct (api_return_err_replies _ _ _ _ _ _ _ _ H) as [[-> Hr]|[-> _]].
  - split; [done|]. apply new_replies_app. by rewrite app_nil_r.
  - exfalso. apply api_return_err_sent in H.
    destruct H as (xe & xtag & ser & body & _ & _ & Hb & _).
    unfold err_body in Hb. discriminate Hb.
Qed.

Lemma api_return_err_invalid_media_witness :
  fst (api_return_err ex_renv access_denied_error false (MEDIA_OTHER 7) 0
         rstate0) = -1.
Proof.
  destruct (api_return_err_invalid_media ex_renv access_denied_error false 7 0
              (fst (api_return_err ex_renv access_denied_error false
                      (MEDIA_OTHER 7) 0 rstate0))
              rstate0
              (snd (api_return_err ex_renv access_denied_error false
                      (MEDIA_OTHER 7) 0 rstate0)))
    as [Hr _]; [vm_compute; reflexivity | exact Hr].
Defined.

(** The shape the 415 and 501 helpers share: build the error, hand it to
    [api_return_err0] with an override code. *)
Lemma error_reply_override (env : renv) (msg : string) (pretty : bool)
    (media : restconf_media) (code r : Z) (s s' : rstate) :
  code <> 0 ->
  (let* x := netconf_operation_not_supported_xml env "protocol" msg in
   match x with
   | None => ret (-1)
   | Some xerr =>
       let* r := api_return_err0 env xerr pretty media code in
       if r <? 0 then ret (-1) else ret 0
   end) s = (r, s') ->
  (r = 0 \/ r = -1) /\
  (r = -1 -> new_replies s s' = []) /\
  (r = 0 -> exists body, new_replies s s' = [(code, Some body)]).
Proof.
  intros Hc H. unfold bind at 1 in H.
  destruct (netconf_operation_not_supported_xml env "protocol" msg s)
    as [x s1] eqn:H1.
  assert (replies s1 = replies s) as Hr1.
  { rrun_in H1. destruct (rfault env (ticks s) _); by inversion H1; subst. }
  destruct x as [xerr|].
  2:{ unfold ret in H. inversion H; subst. split; [by right|].
      split; [|lia]. intros _. apply new_replies_app.
      by rewrite Hr1, app_nil_r. }
  unfold bind at 1 in H.
  destruct (api_return_err0 env xerr pretty media code s1) as [r1 s2] eqn:H2.
  apply api_return_err0_replies in H2; [|done].
  destruct H2 as [[-> Hr2]|(-> & body & Hr2)]; simpl in H;
    unfold ret in H; inversion H; subst.
  - split; [by right|]. split; [|lia]. intros _. apply new_replies_app.
    by rewrite Hr2, Hr1, app_nil_r.
  - split; [by left|]. split; [lia|]. intros _. exists body.
    apply new_replies_app. by rewrite Hr2, Hr1.
Qed.

(** [restconf_unsupported_media] returns 0 or -1 and sends at most one
    reply: none when it returns -1, and when it returns 0 exactly one, with
    status 415 and a body. *)
Theorem restconf_unsupported_media_one_reply (env : renv) (pretty : bool)
    (media : restconf_media) (s s' : rstate) (r : Z) :
  restconf_unsupported_media env pretty media s = (r, s') ->
  (r = 0 \/ r = -1) /\
  (r = -1 -> new_replies s s' = []) /\
  (r = 0 -> exists body, new_replies s s' = [(415, Some body)]).
Proof.
  intros H. by apply (error_reply_override env "Unsupported Media Type"
                        pretty media 415) in H.
Qed.

Lemma restconf_unsupported_media_one_reply_witness :
  exists body,
    new_replies rstate0
      (snd (restconf_unsupported_media ex_renv false YANG_DATA_XML rstate0))
    = [(415, Some body)].
Proof.
  destruct (restconf_unsupported_media_one_reply ex_renv false YANG_DATA_XML
              rstate0
              (snd (restconf_unsupported_media ex_renv false YANG_DATA_XML
                      rstate0))
              (fst (restconf_unsupported_media ex_renv false YANG_DATA_XML
                      rstate0)))
    as (_ & _ & Hone); [vm_compute; reflexivity|].
  apply Hone. vm_compute. reflexivity.
Defined.

(** [restconf_notimplemented] returns 0 or -1 and sends at most one
    reply: none when it returns -1, and when it returns 0 exactly one, with
    status 501, a body, and the JSON Content-Type, its [media] argument
    not being used. *)
Theorem restconf_notimplemented_one_reply (env : renv) (pretty : bool)
    (s s' : rstate) (r : Z) :
  restconf_notimplemented env pretty s = (r, s') ->
  (r = 0 \/ r = -1) /\
  (r = -1 -> new_replies s s' = []) /\
  (r = 0 -> exists body, new_replies s s' = [(501, Some body)] /\
     headers s' = headers s ++ [("Content-Type", "application/yang-data+json")]).
Proof.
  intros H.
  pose proof (error_reply_override env "Not Implemented" pretty YANG_DATA_JSON
                501 r s s' ltac:(lia) H) as (Hr & Hnone & Hone).
  split; [done|]. split; [done|]. intros Hz.
  destruct (Hone Hz) as (body & Hnew). exists body. split; [done|].
  subst r. unfold restconf_notimplemented in H. unfold bind at 1 in H.
  destruct (netconf_operation_not_supported_xml env "protocol"
              "Not Implemented" s) as [x s1] eqn:H1.
  assert (headers s1 = headers s) as Hh1.
  { rrun_in H1. destruct (rfault env (ticks s) _); by inversion H1; subst. }
  destruct x as [xerr|]; [|unfold ret in H; discriminate H].
  unfold bind at 1 in H. unfold api_return_err0 in H.
  destruct (xpath_first (Some xerr) [Child "rpc-error"]) as [xe|].
  2:{ rrun_in H. discriminate H. }
  unfold bind at 1 in H.
  destruct (api_return_err env xe pretty YANG_DATA_JSON 501 s1) as [r1 s2] eqn:H2.
  destruct (api_return_err_replies _ _ _ _ _ _ _ _ H2) as [[-> _]|[-> _]];
    simpl in H; unfold ret in H; inversion H; subst.
  apply api_return_err_sent in H2.
  destruct H2 as (_ & _ & _ & _ & _ & Hh & _). by rewrite Hh, Hh1.
Qed.

Lemma restconf_notimplemented_one_reply_witness :
  exists body,
    new_replies rstate0 (snd (restconf_notimplemented ex_renv false rstate0))
    = [(501, Some body)].
Proof.
  destruct (restconf_notimplemented_one_reply ex_renv false rstate0
              (snd (restconf_notimplemented ex_renv false rstate0))
              (fst (restconf_notimplemented ex_renv false rstate0)))
    as (_ & _ & Hone); [vm_compute; reflexivity|].
  destruct Hone as (body & Hnew & _); [vm_compute; reflexivity|].
  by exists body.
Defined.

(** A call of [restconf_method_notallowed] that returns 0 has added the
    Allow header with the given methods and after it the JSON
    Content-Type, whatever media was passed, and has sent one reply whose
    status is the table's for operation-not-supported (500 when the table
    does not know the tag): the function itself fixes no 405. *)
Theorem restconf_method_notallowed_reply (env : renv) (allow : string)
    (pretty : bool) (media : restconf_media) (s s' : rstate) :
  restconf_method_notallowed env allow pretty media s = (0, s') ->
  headers s' = headers s ++
    [("Allow", allow); ("Content-Type", "application/yang-data+json")] /\
  exists body,
    new_replies s s' =
      [(if restconf_err2code env (Some "operation-not-supported") <? 0 then 500
        else restconf_err2code env (Some "operation-not-supported"),
        Some body)].
Proof.
  intros H. unfold restconf_method_notallowed in H. unfold bind at 1 in H.
  destruct (netconf_operation_not_supported_xml env "protocol"
              "Method not allowed" s) as [x s1] eqn:H1.
  assert (headers s1 = headers s /\ replies s1 = replies s /\
          (forall xerr, x = Some xerr ->
             xerr = netconf_rpc_error "operation-not-supported" "protocol"
                      "Method not allowed")) as (Hh1 & Hr1 & Hx).
  { rrun_in H1. destruct (rfault env (ticks s) _); inversion H1; subst;
      (split; [done|]); (split; [done|]); intros xerr Hs; by inversion Hs. }
  destruct x as [xerr|]; [|unfold ret in H; discriminate H].
  rewrite (Hx xerr eq_refl) in H. clear Hx.
  unfold bind at 1 in H.
  destruct (restconf_reply_header env "Allow" allow s1) as [h s2] eqn:H2.
  assert (h = -1 \/ h = 0 /\ headers s2 = headers s1 ++ [("Allow", allow)] /\
                    replies s2 = replies s1) as Hh2.
  { rrun_in H2. destruct (rfault env (ticks s1) _); inversion H2; subst;
      [by left | by right]. }
  destruct Hh2 as [->|(-> & Hh2 & Hr2)]; simpl in H;
    [unfold ret in H; discriminate H|].
  unfold bind at 1 in H. unfold api_return_err0 in H.
  set (xe := CxElmnt "rpc-error"
               [xml_leaf "error-type" "protocol";
                xml_leaf "error-tag" "operation-not-supported";
                xml_leaf "error-severity" "error";
                xml_leaf "error-message" "Method not allowed"]).
  change (xpath_first (Some (netconf_rpc_error "operation-not-supported"
                               "protocol" "Method not allowed"))
            [Child "rpc-error"]) with (Some xe) in H.
  cbv beta iota in H. unfold bind at 1 in H.
  destruct (api_return_err env xe pretty YANG_DATA_JSON 0 s2) as [r1 s3] eqn:H3.
  destruct (api_return_err_replies _ _ _ _ _ _ _ _ H3) as [[-> _]|[-> _]];
    simpl in H; unfold ret in H; inversion H; subst.
  apply api_return_err_sent in H3.
  destruct H3 as (xe' & xtag & ser & body & Hr & Hh & _ & Hwf).
  split; [rewrite Hh, Hh2, Hh1, <- app_assoc; done|].
  exists body. apply new_replies_app. rewrite Hr, Hr2, Hr1. do 3 f_equal.
  destruct Hwf as [(_ & -> & Ht)|([Hn|Hn] & _)];
    [|exfalso; by apply Hn|discriminate Hn].
  assert (xtag = xml_leaf "error-tag" "operation-not-supported") as ->
    by (cbv in Ht; cbv; congruence).
  rewrite err_code_table; [done|]. by right.
Qed.

Lemma restconf_method_notallowed_reply_witness :
  exists body,
    new_replies rstate0
      (snd (restconf_method_notallowed ex_renv "GET,POST" false YANG_DATA_XML
              rstate0)) = [(405, Some body)].
Proof.
  destruct (restconf_method_notallowed_reply ex_renv "GET,POST" false
              YANG_DATA_XML rstate0
              (snd (restconf_method_notallowed ex_renv "GET,POST" false
                      YANG_DATA_XML rstate0)))
    as (_ & body & Hnew); [vm_compute; reflexivity|].
  exists body. exact Hnew.
Defined.

(** *** Further properties of restconf_main.c *)

(** [api_restconf] calls the authentication only for a request with a
    supported Accept header whose path has more than two fields, the first
    empty and the second "restconf"; so the root /restconf and everything
    outside it are answered without authentication.  When the
    authentication fails with an error, the call returns -1 and no reply
    is sent. *)
Theorem api_restconf_auth_scope (env : renv) (rq : request) (s s' : rstate)
    (r a : Z) :
  api_restconf env rq s = (r, s') ->
  In (RE_call R_plugin_auth a) (new_rlog s s') ->
  is_Some (media_out_of (req_accept rq)) /\
  (2 < length (clicon_strsep slash (req_path rq)))%nat /\
  nth 0 (clicon_strsep slash (req_path rq)) EmptyString = EmptyString /\
  nth 1 (clicon_strsep slash (req_path rq)) EmptyString = RESTCONF_API /\
  (plugin_auth env < 0 -> r = -1 /\ new_replies s s' = []).
Proof.
  intros H Hin. unfold api_restconf in H.
  destruct (media_out_of (req_accept rq)) as [media|].
  2:{ rrun_in H. destruct (rfault env (ticks s) _); no_auth_event H Hin. }
  rrun_in H.
  destruct (rfault env (ticks s) R_strsep); simpl in H;
    [no_auth_event H Hin|].
  destruct (length (clicon_strsep slash (req_path rq)) <? 2)%nat eqn:Hlen;
    simpl in H.
  { destruct (rfault env (S (ticks s)) _); no_auth_event H Hin. }
  destruct (nth 0 (clicon_strsep slash (req_path rq)) EmptyString
            =? EmptyString)%string eqn:H0; simpl in H.
  2:{ destruct (rfault env (S (ticks s)) _); no_auth_event H Hin. }
  destruct (nth 1 (clicon_strsep slash (req_path rq)) EmptyString
            =? RESTCONF_API)%string eqn:H1; simpl in H.
  2:{ destruct (rfault env (S (ticks s)) _); no_auth_event H Hin. }
  destruct (length (clicon_strsep slash (req_path rq)) =? 2)%nat eqn:Hlen2;
    simpl in H; [no_auth_event H Hin|].
  apply Nat.ltb_ge in Hlen. apply Nat.eqb_neq in Hlen2.
  apply String.eqb_eq in H0, H1.
  split; [by eexists|]. split; [lia|]. split; [done|]. split; [done|].
  intros Hneg. apply Z.ltb_lt in Hneg.
  destruct (rfault env (S (ticks s)) R_str2cvec); simpl in H;
    [no_auth_event H Hin|].
  destruct (rfault env (S (S (ticks s))) R_str2cvec); simpl in H;
    [no_auth_event H Hin|].
  destruct (rfault env (S (S (S (ticks s)))) R_readdata); simpl in H;
    [no_auth_event H Hin|].
  destruct (rfault env (S (S (S (S (ticks s))))) R_str2cvec); simpl in H;
    [no_auth_event H Hin|].
  rewrite Hneg in H. simpl in H. inversion H; subst. split; [done|].
  apply new_replies_app. by rewrite app_nil_r.
Qed.

Lemma api_restconf_auth_scope_witness :
  (2 < length (clicon_strsep slash "/restconf/data"))%nat /\
  nth 1 (clicon_strsep slash "/restconf/data") EmptyString = RESTCONF_API.
Proof.
  destruct (api_restconf_auth_scope ex_renv (mkRequest "/restconf/data" None)
              rstate0
              (snd (api_restconf ex_renv (mkRequest "/restconf/data" None)
                      rstate0))
              (fst (api_restconf ex_renv (mkRequest "/restconf/data" None)
                      rstate0)) 0)
    as (_ & Hlen & _ & Hapi & _).
  - vm_compute. reflexivity.
  - vm_compute. repeat (first [left; reflexivity | right]).
  - split; [exact Hlen | exact Hapi].
Defined.

(** Without a successful authentication no method handler runs: when the
    authentication does not return a positive value, the result of
    [api_restconf] and everything it sends are the same whatever the
    handlers for yang-library-version, data, operations and test would
    do. *)
Theorem api_restconf_handlers_need_auth (env : renv) (rq : request)
    (s : rstate)
    (ylv : bool -> restconf_media -> Z * list (Z * option string))
    (data ops : string -> bool -> restconf_media -> Z * list (Z * option string))
    (test : list (Z * option string)) :
  plugin_auth env <= 0 ->
  api_restconf (with_handlers env ylv data ops test) rq s
  = api_restconf env rq s.
Proof.
  intros Hauth. unfold api_restconf, api_dispatch, with_handlers.
  destruct (media_out_of (req_accept rq)) as [media|]; [|reflexivity].
  unfold netconf_access_denied_xml, netconf_xml, restconf_notfound,
    restconf_reply_send, restconf_test, run_handler, attempt, rlog_add,
    bind, ret.
  simpl.
  repeat match goal with
         | |- context [if ?b then _ else _] => destruct b eqn:?; simpl
         end;
    try reflexivity; exfalso;
    repeat match goal with
           | H : (_ <? _) = false |- _ => apply Z.ltb_ge in H
           | H : negb (_ =? _) = true |- _ =>
               apply negb_true_iff, Z.eqb_neq in H
           end; lia.
Qed.

Lemma api_restconf_handlers_need_auth_witness :
  api_restconf
    (with_handlers ex_renv (fun _ _ => (0, [(200, None)]))
       (fun _ _ _ => (0, [(200, Some "secret")]))
       (fun _ _ _ => (0, [(204, None)])) [(200, None)])
    (mkRequest "/restconf/data/x" None) rstate0
  = api_restconf ex_renv (mkRequest "/restconf/data/x" None) rstate0.
Proof.
  apply api_restconf_handlers_need_auth. vm_compute. discriminate.
Defined.

(** [strncmp] over the length of [p] tests whether [p] begins [s]. *)
Lemma strncmp_eq_prefix (s p : string) :
  strncmp_eq s p (String.length p) = true <-> exists rest, s = p +:+ rest.
Proof.
  revert s. induction p as [|y p IH]; intros s; simpl.
  - split; [intros _; by exists s | done].
  - destruct s as [|x s].
    + split; [discriminate | intros [rest Hr]; discriminate Hr].
    + destruct (Ascii.eqb_spec x y) as [->|Hne]; simpl.
      * rewrite IH. split; intros [rest Hr]; exists rest.
        -- by rewrite Hr.
        -- by inversion Hr.
      * split; [discriminate|]. intros [rest Hr]. inversion Hr. by subst.
Qed.

(** The request loop of [main] hands a request to [api_restconf] exactly
    when its URI begins with "/restconf" (so also "/restconfX"); otherwise
    to [api_stream] exactly when the URI from its second character on
    begins with the stream path, whatever the first character is; and a
    request reaches [api_well_known] only for a URI beginning with
    "/.well-known/host-meta" and only if the stream path is not empty: an
    empty stream path sends every request outside /restconf to
    [api_stream]. *)
Theorem main_route_spec (path stream_path : string) :
  path <> EmptyString ->
  (main_route (Some path) stream_path = To_api_restconf <->
   exists rest, path = "/restconf" +:+ rest) /\
  (main_route (Some path) stream_path = To_api_stream <->
   (~ exists rest, path = "/restconf" +:+ rest) /\
   exists c rest, path = String c (stream_path +:+ rest)) /\
  (main_route (Some path) stream_path = To_api_well_known ->
   stream_path <> EmptyString /\
   exists rest, path = "/.well-known/host-meta" +:+ rest).
Proof.
  intros Hne. unfold main_route.
  pose proof (strncmp_eq_prefix path ("/" +:+ RESTCONF_API)) as Hapi.
  pose proof (strncmp_eq_prefix (string_tail path) stream_path) as Hstr.
  pose proof (strncmp_eq_prefix path RESTCONF_WELL_KNOWN) as Hwk.
  change ("/" +:+ RESTCONF_API) with "/restconf" in *.
  assert ((exists rest, string_tail path = stream_path +:+ rest) <->
          exists c rest, path = String c (stream_path +:+ rest)) as Htail.
  { destruct path as [|c path]; [done|]. simpl. split.
    - intros [rest ->]. by exists c, rest.
    - intros (c' & rest & Hr). inversion Hr. by exists rest. }
  rewrite Htail in Hstr.
  assert (stream_path = EmptyString ->
          strncmp_eq (string_tail path) stream_path (String.length stream_path)
          = true) as Hemp by (by intros ->).
  destruct (strncmp_eq path "/restconf" _);
    destruct (strncmp_eq (string_tail path) stream_path _);
    destruct (strncmp_eq path RESTCONF_WELL_KNOWN _);
    change RESTCONF_WELL_KNOWN with "/.well-known/host-meta" in Hwk;
    intuition congruence.
Qed.

Lemma main_route_spec_witness :
  main_route (Some "/restconfig/x") "streams" = To_api_restconf.
Proof.
  destruct (main_route_spec "/restconfig/x" "streams") as [Hiff _];
    [discriminate|].
  apply Hiff. by exists "ig/x".
Defined.

End RestconfSpec.

(* ===================================================================== *)
(** ** Properties of lib/src/clixon_proto_client.c *)
(* ===================================================================== *)
Module ProtoClientSpec.
Import Xml ProtoClient.

(** C9: when [clicon_rpc_get_config] returns 0 for a caller that passed
    [xt], a tree is stored through [xt]; and when the reply the backend
    sent has no config below a data element, that tree is the new element
    config without children. *)
Theorem clicon_rpc_get_config_never_null (env : penv) (db : string)
    (xpath : option string) (xt : option cxobj) :
  clicon_rpc_get_config env db xpath true = (0, xt) ->
  (exists x, xt = Some x) /\
  (forall msg xret,
     clicon_msg_encode env (get_config_request db xpath) = Some msg ->
     clicon_rpc_msg env msg = (0, xret) ->
     xpath_first xret [Desc "data"; Child "config"] = None ->
     xt = Some (xml_new "config") /\
     xml_name (xml_new "config") = "config" /\
     xml_child_nr (xml_new "config") = 0).
Proof.
  unfold clicon_rpc_get_config. intros H.
  destruct (pfault env P_cbuf_new); [discriminate|].
  destruct (clicon_msg_encode env (get_config_request db xpath)) as [msg|];
    [|discriminate].
  destruct (clicon_rpc_msg env msg) as [r xret] eqn:Hmsg.
  destruct (r <? 0); [discriminate|].
  destruct (xpath_first xret [Desc "rpc-error"]); [discriminate|].
  destruct (xpath_first xret [Desc "data"; Child "config"]) as [xd|] eqn:Hxd.
  - destruct (pfault env P_xml_rm); [discriminate|].
    inversion H; subst. split; [by eauto|].
    intros msg' xret' Hm' Hr' Hnone. inversion Hm'; subst.
    rewrite Hmsg in Hr'. inversion Hr'; subst. congruence.
  - destruct (pfault env P_xml_new); [discriminate|].
    destruct (pfault env P_xml_rm); [discriminate|].
    inversion H; subst. split; [by eauto|]. intros. done.
Qed.

(** An empty database: the reply has a data element without config. *)
Lemma clicon_rpc_get_config_never_null_witness :
  clicon_rpc_get_config ex_penv "running" (Some "/") true
    = (0, Some (CxElmnt "config" [])).
Proof.
  destruct (clicon_rpc_get_config_never_null ex_penv "running" (Some "/")
              (snd (clicon_rpc_get_config ex_penv "running" (Some "/") true)))
    as [_ Hempty]; [vm_compute; reflexivity|].
  destruct (Hempty (get_config_request "running" (Some "/"))
              (Some (CxElmnt "rpc-reply" [CxElmnt "data" []])))
    as [Hxt _]; [reflexivity | reflexivity | reflexivity |].
  transitivity (0, snd (clicon_rpc_get_config ex_penv "running" (Some "/") true));
    [vm_compute; reflexivity|].
  by rewrite Hxt.
Defined.

(** *** The transport and the RPCs built on it *)

Ltac msg_case :=
  split; [lia|];
  split; [intros; first [done | lia]|];
  split; [intros ? Hx; first [discriminate Hx | inversion Hx; subst; eauto]|];
  split; [intros; first [done | congruence | lia]|];
  split; [intros; first [done | congruence | lia]|];
  intros; first [done | congruence | lia].

(** [clicon_rpc_msg] returns 0 or -1 and hands back a tree only with 0,
    a tree that [clicon_xml_parse_str] produced.  Without the socket
    option it returns -1; for AF_INET with a negative port it returns -1
    without connecting; and for a socket family other than AF_UNIX and
    AF_INET, for which the switch has no case, it returns 0 with a NULL
    tree without any connection being made. *)
Theorem clicon_rpc_msg_result (env : penv) (msg : string) (r : Z)
    (xret : option cxobj) :
  clicon_rpc_msg env msg = (r, xret) ->
  (r = 0 \/ r = -1) /\
  (r = -1 -> xret = None) /\
  (forall x, xret = Some x ->
     exists retdata, clicon_xml_parse_str env retdata = Some x) /\
  (clicon_sock env = None -> r = -1) /\
  (clicon_sock_family env = AF_INET -> clicon_sock_port env < 0 -> r = -1) /\
  (is_Some (clicon_sock env) -> clicon_sock_family env = AF_OTHER ->
     r = 0 /\ xret = None).
Proof.
  unfold clicon_rpc_msg. intros H.
  destruct (clicon_sock env) as [sock|].
  2:{ inversion H; subst. split; [lia|]. split; [done|].
      split; [intros x Hx; discriminate Hx|]. split; [done|].
      split; [done|]. intros [x Hx]. discriminate Hx. }
  destruct (clicon_sock_family env) eqn:Hfam.
  - destruct (clicon_rpc_connect_unix env msg sock) as [[retdata|]|];
      [destruct (clicon_xml_parse_str env retdata) as [x|] eqn:Hp| |];
      inversion H; subst; msg_case.
  - destruct (Z.ltb_spec (clicon_sock_port env) 0) as [Hneg|Hpos];
      [inversion H; subst; msg_case|].
    destruct (clicon_rpc_connect_inet env msg sock (clicon_sock_port env))
      as [[retdata|]|];
      [destruct (clicon_xml_parse_str env retdata) as [x|] eqn:Hp| |];
      inversion H; subst; msg_case.
  - inversion H; subst; msg_case.
Qed.

Lemma clicon_rpc_msg_result_witness :
  fst (clicon_rpc_msg ex_penv_other "<rpc><commit/></rpc>") = 0 /\
  snd (clicon_rpc_msg ex_penv_other "<rpc><commit/></rpc>") = None.
Proof.
  destruct (clicon_rpc_msg_result ex_penv_other "<rpc><commit/></rpc>"
              (fst (clicon_rpc_msg ex_penv_other "<rpc><commit/></rpc>"))
              (snd (clicon_rpc_msg ex_penv_other "<rpc><commit/></rpc>")))
    as (_ & _ & _ & _ & _ & Hother); [reflexivity|].
  apply Hother; [by eexists | reflexivity].
Defined.

Lemma head_filter_none {A : Type} (f : A -> bool) (l : list A) :
  head (List.filter f l) = None <-> existsb f l = false.
Proof.
  induction l as [|a l IH]; simpl; [done|].
  destruct (f a); simpl; [by split | done].
Qed.

(** ["//rpc-error"] finds nothing exactly when no node below the root is
    an rpc-error element. *)
Lemma xpath_first_rpc_error (xret : cxobj) :
  xpath_first (Some xret) [Desc "rpc-error"] = None <->
  has_rpc_error xret = false.
Proof.
  unfold xpath_first, has_rpc_error. simpl. rewrite app_nil_r.
  apply head_filter_none.
Qed.

Lemma rpc_expect_ok_reply (env : penv) (xret : cxobj) (request : string) :
  (forall msg, clicon_rpc_msg env msg = (0, Some xret)) ->
  (forall text, clicon_msg_encode env text <> None) ->
  rpc_expect_ok env request = if has_rpc_error xret then -1 else 0.
Proof.
  intros Hmsg Henc. unfold rpc_expect_ok.
  destruct (clicon_msg_encode env request) as [msg|] eqn:He;
    [|by apply Henc in He].
  rewrite Hmsg. cbn -[xpath_first has_rpc_error].
  destruct (xpath_first (Some xret) [Desc "rpc-error"]) eqn:Hx.
  - destruct (has_rpc_error xret) eqn:Hh; [done|].
    apply xpath_first_rpc_error in Hh. congruence.
  - apply xpath_first_rpc_error in Hx. by rewrite Hx.
Qed.

(** With requests that encode and a backend that answers every request
    with the tree [xret], each of copy-config, delete-config, lock,
    unlock, close-session, kill-session, validate, commit and
    discard-changes returns -1 when an rpc-error element occurs anywhere
    below the root of [xret] (also beside an ok) and 0 otherwise: nothing
    else in the reply is looked at, an [ok] is not required. *)
Theorem clicon_rpc_result_by_rpc_error (env : penv) (xret : cxobj) :
  (forall msg, clicon_rpc_msg env msg = (0, Some xret)) ->
  (forall text, clicon_msg_encode env text <> None) ->
  (forall db1 db2, clicon_rpc_copy_config env db1 db2
                   = if has_rpc_error xret then -1 else 0) /\
  (forall db, clicon_rpc_delete_config env db
              = if has_rpc_error xret then -1 else 0) /\
  (forall db, clicon_rpc_lock env db = if has_rpc_error xret then -1 else 0) /\
  (forall db, clicon_rpc_unlock env db = if has_rpc_error xret then -1 else 0) /\
  clicon_rpc_close_session env = (if has_rpc_error xret then -1 else 0) /\
  (forall id, clicon_rpc_kill_session env id
              = if has_rpc_error xret then -1 else 0) /\
  (forall db, clicon_rpc_validate env db
              = if has_rpc_error xret then -1 else 0) /\
  clicon_rpc_commit env = (if has_rpc_error xret then -1 else 0) /\
  clicon_rpc_discard_changes env = (if has_rpc_error xret then -1 else 0).
Proof.
  intros Hmsg Henc.
  repeat split; intros; by apply rpc_expect_ok_reply.
Qed.

Lemma clicon_rpc_result_by_rpc_error_witness :
  clicon_rpc_commit
    (ex_penv_reply
       (CxElmnt "top"
          [CxElmnt "rpc-reply" [CxElmnt "ok" []; CxElmnt "rpc-error" []]]))
  = -1 /\
  clicon_rpc_lock (ex_penv_reply (CxElmnt "top" [CxElmnt "rpc-reply" []]))
    "candidate" = 0.
Proof.
  split.
  - destruct (clicon_rpc_result_by_rpc_error
                (ex_penv_reply
                   (CxElmnt "top"
                      [CxElmnt "rpc-reply"
                         [CxElmnt "ok" []; CxElmnt "rpc-error" []]]))
                (CxElmnt "top"
                   [CxElmnt "rpc-reply"
                      [CxElmnt "ok" []; CxElmnt "rpc-error" []]]))
      as (_ & _ & _ & _ & _ & _ & _ & Hcommit & _);
      [reflexivity | discriminate | exact Hcommit].
  - destruct (clicon_rpc_result_by_rpc_error
                (ex_penv_reply (CxElmnt "top" [CxElmnt "rpc-reply" []]))
                (CxElmnt "top" [CxElmnt "rpc-reply" []]))
      as (_ & _ & Hlock & _);
      [reflexivity | discriminate | exact (Hlock "candidate")].
Defined.

(** [clicon_rpc_debug] is stricter: under the same assumptions it returns
    0 exactly when the reply has no rpc-error element and has an [ok]
    child of an [rpc-reply] below the root; a reply without error and
    without that [ok], which the other RPCs accept, gives -1. *)
Theorem clicon_rpc_debug_needs_ok (env : penv) (xret : cxobj) (level : Z) :
  (forall msg, clicon_rpc_msg env msg = (0, Some xret)) ->
  (forall text, clicon_msg_encode env text <> None) ->
  (clicon_rpc_debug env level = 0 \/ clicon_rpc_debug env level = -1) /\
  (clicon_rpc_debug env level = 0 <->
   has_rpc_error xret = false /\
   is_Some (xpath_first (Some xret) [Desc "rpc-reply"; Child "ok"])).
Proof.
  intros Hmsg Henc. unfold clicon_rpc_debug.
  destruct (clicon_msg_encode env _) as [msg|] eqn:He; [|by apply Henc in He].
  rewrite Hmsg. cbn -[xpath_first has_rpc_error].
  destruct (xpath_first (Some xret) [Desc "rpc-error"]) eqn:Hx.
  - split; [by right|]. split; [lia|]. intros [Hh _].
    apply xpath_first_rpc_error in Hh. congruence.
  - apply xpath_first_rpc_error in Hx.
    destruct (xpath_first (Some xret) [Desc "rpc-reply"; Child "ok"]) eqn:Hok.
    + split; [by left|]. split; [|done]. intros _. split; [done|by eexists].
    + split; [by right|]. split; [lia|]. intros [_ [? Hs]]. discriminate Hs.
Qed.

Lemma clicon_rpc_debug_needs_ok_witness :
  clicon_rpc_debug (ex_penv_reply (CxElmnt "top" [CxElmnt "rpc-reply" []])) 1
  = -1.
Proof.
  destruct (clicon_rpc_debug_needs_ok
              (ex_penv_reply (CxElmnt "top" [CxElmnt "rpc-reply" []]))
              (CxElmnt "top" [CxElmnt "rpc-reply" []]) 1)
    as ([H0|Hm] & Hiff); [reflexivity | discriminate | | exact Hm].
  exfalso. apply Hiff in H0. destruct H0 as [_ [x Hx]].
  vm_compute in Hx. discriminate Hx.
Defined.

(** For a request that encodes and a reply tree [xret]:
    an rpc-error anywhere below the root of the reply makes
    [clicon_rpc_get_config] return -1 and store nothing, even when the
    reply also holds data; without one, and with the allocations
    succeeding, the tree stored through [xt] is the first config child of
    a data element of the reply; and a caller that passes a NULL [xt] gets
    nothing stored and the result 0 in both of these error-free cases. *)
Theorem clicon_rpc_get_config_reply (env : penv) (db : string)
    (xpath : option string) (msg : string) (xret : cxobj) :
  clicon_msg_encode env (get_config_request db xpath) = Some msg ->
  clicon_rpc_msg env msg = (0, Some xret) ->
  (has_rpc_error xret = true ->
     forall xt_given, clicon_rpc_get_config env db xpath xt_given = (-1, None)) /\
  (has_rpc_error xret = false ->
     pfault env P_cbuf_new = false ->
     (forall xd,
        xpath_first (Some xret) [Desc "data"; Child "config"] = Some xd ->
        clicon_rpc_get_config env db xpath false = (0, None) /\
        (pfault env P_xml_rm = false ->
         clicon_rpc_get_config env db xpath true = (0, Some xd)))).
Proof.
  intros He Hmsg. unfold clicon_rpc_get_config. rewrite He, Hmsg. cbn -[xpath_first has_rpc_error].
  split.
  - intros Hh xt_given. destruct (pfault env P_cbuf_new); [done|].
    destruct (xpath_first (Some xret) [Desc "rpc-error"]) eqn:Hx; [done|].
    apply xpath_first_rpc_error in Hx. congruence.
  - intros Hh -> xd Hxd. apply xpath_first_rpc_error in Hh.
    rewrite Hh, Hxd. split; [done|]. by intros ->.
Qed.

Lemma clicon_rpc_get_config_reply_witness :
  clicon_rpc_get_config
    (ex_penv_reply
       (CxElmnt "top"
          [CxElmnt "rpc-reply"
             [CxElmnt "data" [CxElmnt "config" [xml_leaf "x" "1"]];
              CxElmnt "rpc-error" []]]))
    "running" None true = (-1, None).
Proof.
  destruct (clicon_rpc_get_config_reply
              (ex_penv_reply
                 (CxElmnt "top"
                    [CxElmnt "rpc-reply"
                       [CxElmnt "data" [CxElmnt "config" [xml_leaf "x" "1"]];
                        CxElmnt "rpc-error" []]]))
              "running" None (get_config_request "running" None)
              (CxElmnt "top"
                 [CxElmnt "rpc-reply"
                    [CxElmnt "data" [CxElmnt "config" [xml_leaf "x" "1"]];
                     CxElmnt "rpc-error" []]]))
    as [Herr _]; [reflexivity | reflexivity |].
  apply Herr. reflexivity.
Defined.

End ProtoClientSpec.
